(** * reactivepy: code-unit analysis and cell execution

    A shallow embedding of [reactivepy/code_object.py] and
    [reactivepy/execute.py].

    The two modules are thin layers over the CPython runtime: [symtable],
    [ast.parse], [compile], [exec], [hashlib.blake2b], the traceback
    renderers of IPython and the process-wide [sys] singletons.  The
    runtime services whose results the code only passes along are
    interfaces (type classes); BLAKE2b is implemented, so that identities
    can be computed; [MiniPy] at the end of the definitions implements the
    interfaces for a small fragment of Python 3.7, the interpreter
    generation the repository was written for. *)

From Stdlib Require Import ZArith String Ascii List Permutation.
From stdpp Require Import gmap strings list.
Import ListNotations.

Set Warnings "-register-all".
Open Scope string_scope.
Open Scope list_scope.

(** ** Python objects *)

(** Exception classes, with the base class of each.  [UserClass] stands
    for a class defined by a program. *)
Inductive pyclass :=
| BaseException
| Exception_
| ArithmeticError
| ZeroDivisionError
| NameError
| TypeError
| ValueError
| AttributeError
| SyntaxError
| IndentationError
| NotImplementedError
| KeyboardInterrupt
| CancelledError
| UserClass (name : string) (base : pyclass).

Global Instance pyclass_eq_dec : EqDecision pyclass.
Proof. solve_decision. Defined.

(** The method resolution order of a class: itself, then its ancestors. *)
Fixpoint mro (c : pyclass) : list pyclass :=
  match c with
  | BaseException => [BaseException]
  | Exception_ => [Exception_; BaseException]
  | ArithmeticError => [ArithmeticError; Exception_; BaseException]
  | ZeroDivisionError =>
      [ZeroDivisionError; ArithmeticError; Exception_; BaseException]
  | NameError => [NameError; Exception_; BaseException]
  | TypeError => [TypeError; Exception_; BaseException]
  | ValueError => [ValueError; Exception_; BaseException]
  | AttributeError => [AttributeError; Exception_; BaseException]
  | SyntaxError => [SyntaxError; Exception_; BaseException]
  | IndentationError =>
      [IndentationError; SyntaxError; Exception_; BaseException]
  | NotImplementedError => [NotImplementedError; Exception_; BaseException]
  | KeyboardInterrupt => [KeyboardInterrupt; BaseException]
  | CancelledError => [CancelledError; Exception_; BaseException]
  | UserClass n b => UserClass n b :: mro b
  end.

Definition issubclass (c d : pyclass) : bool := bool_decide (d ∈ mro c).

(** A raised exception: its class and [str] of it. *)
Record pyexc := PyExc { exc_type : pyclass; exc_str : string }.

Global Instance pyexc_eq_dec : EqDecision pyexc.
Proof. solve_decision. Defined.

(** [except classes as e]: the clause catches [e] when [e] is an instance
    of one of the classes. *)
Definition isinstance (e : pyexc) (classes : list pyclass) : bool :=
  existsb (issubclass (exc_type e)) classes.

(** Values bound in the namespace or handed to the display hook.
    [VObject] is any object the development does not look into. *)
Inductive value :=
| VNone
| VBool (b : bool)
| VInt (n : Z)
| VStr (s : string)
| VObject (id : nat).

Global Instance value_eq_dec : EqDecision value.
Proof. solve_decision. Defined.

(** A result or a raised exception. *)
Definition raises (A : Type) : Type := pyexc + A.

Definition bind_raises {A B} (m : raises A) (k : A → raises B) : raises B :=
  match m with
  | inl e => inl e
  | inr a => k a
  end.

(** ** The [ast] node classes the executor inspects *)

Inductive operator := Add | Sub | Mult | Div | FloorDiv.
Inductive unaryop := UAdd | USub.
Inductive expr_context := Load | Store | Del.

Inductive expr :=
| Num (n : Z)
| Name (id : string) (ctx : expr_context)
| UnaryOp (op : unaryop) (operand : expr)
| BinOp (left : expr) (op : operator) (right : expr)
| Attribute (value : expr) (attr : string) (ctx : expr_context)
| Subscript (value : expr) (index : expr) (ctx : expr_context)
| Tuple (elts : list expr) (ctx : expr_context)
| Call (func : expr) (args : list expr).

Inductive stmt :=
| Assign (targets : list expr) (value : expr)
| AugAssign (target : expr) (op : operator) (value : expr)
| AnnAssign (target : expr) (annotation : expr) (value : option expr)
| Expr (value : expr)
| Import (names : list string)
| Pass
| Return (value : option expr).

(** ** [symtable]: the scope tree of a snippet *)

(** A [symtable.Symbol], with the flags its [is_*] methods report. *)
Record Symbol := mkSymbol {
  get_name : string;
  is_referenced : bool;
  is_imported : bool;
  is_global : bool;
  is_local : bool;
  is_assigned : bool;
  is_namespace : bool
}.

(** A [symtable.SymbolTable]: [get_symbols ()] and [get_children ()]. *)
Inductive SymbolTable :=
| Table (name : string) (symbols : list Symbol) (children : list SymbolTable).

Definition get_symbols (st : SymbolTable) : list Symbol :=
  match st with Table _ syms _ => syms end.

Definition get_children (st : SymbolTable) : list SymbolTable :=
  match st with Table _ _ cs => cs end.

(** ** [hashlib.blake2b] (RFC 7693), on bytes as integers below 256 *)

Module Blake2b.
Local Open Scope Z_scope.
Local Open Scope list_scope.

Definition IV : list Z :=
  [0x6a09e667f3bcc908; 0xbb67ae8584caa73b; 0x3c6ef372fe94f82b;
   0xa54ff53a5f1d36f1; 0x510e527fade682d1; 0x9b05688c2b3e6c1f;
   0x1f83d9abfb41bd6b; 0x5be0cd19137e2179].

Definition SIGMA : list (list nat) :=
  [[0; 1; 2; 3; 4; 5; 6; 7; 8; 9; 10; 11; 12; 13; 14; 15];
   [14; 10; 4; 8; 9; 15; 13; 6; 1; 12; 0; 2; 11; 7; 5; 3];
   [11; 8; 12; 0; 5; 2; 15; 13; 10; 14; 3; 6; 7; 1; 9; 4];
   [7; 9; 3; 1; 13; 12; 11; 14; 2; 6; 5; 10; 4; 0; 15; 8];
   [9; 0; 5; 7; 2; 4; 10; 15; 14; 1; 11; 12; 6; 8; 3; 13];
   [2; 12; 6; 10; 0; 11; 8; 3; 4; 13; 7; 5; 15; 14; 1; 9];
   [12; 5; 1; 15; 14; 13; 4; 10; 0; 7; 6; 3; 9; 2; 8; 11];
   [13; 11; 7; 14; 12; 1; 3; 9; 5; 0; 15; 4; 8; 6; 2; 10];
   [6; 15; 14; 9; 11; 3; 0; 8; 12; 2; 13; 7; 1; 4; 10; 5];
   [10; 2; 8; 4; 7; 6; 1; 5; 15; 11; 9; 14; 3; 12; 13; 0]]%nat.

Definition w64 (x : Z) : Z := x mod 2 ^ 64.

Definition rotr64 (x n : Z) : Z :=
  Z.lor (Z.shiftr x n) (w64 (Z.shiftl x (64 - n))).

Definition word (v : list Z) (i : nat) : Z := nth i v 0.

(** The mixing function, on the working vector [v]. *)
Definition G (a b c d : nat) (x y : Z) (v : list Z) : list Z :=
  let v := <[a := w64 (word v a + word v b + x)]> v in
  let v := <[d := rotr64 (Z.lxor (word v d) (word v a)) 32]> v in
  let v := <[c := w64 (word v c + word v d)]> v in
  let v := <[b := rotr64 (Z.lxor (word v b) (word v c)) 24]> v in
  let v := <[a := w64 (word v a + word v b + y)]> v in
  let v := <[d := rotr64 (Z.lxor (word v d) (word v a)) 16]> v in
  let v := <[c := w64 (word v c + word v d)]> v in
  <[b := rotr64 (Z.lxor (word v b) (word v c)) 63]> v.

Definition round (m : list Z) (s : list nat) (v : list Z) : list Z :=
  let mi (i : nat) := word m (nth i s 0%nat) in
  let v := G 0 4 8 12 (mi 0%nat) (mi 1%nat) v in
  let v := G 1 5 9 13 (mi 2%nat) (mi 3%nat) v in
  let v := G 2 6 10 14 (mi 4%nat) (mi 5%nat) v in
  let v := G 3 7 11 15 (mi 6%nat) (mi 7%nat) v in
  let v := G 0 5 10 15 (mi 8%nat) (mi 9%nat) v in
  let v := G 1 6 11 12 (mi 10%nat) (mi 11%nat) v in
  let v := G 2 7 8 13 (mi 12%nat) (mi 13%nat) v in
  G 3 4 9 14 (mi 14%nat) (mi 15%nat) v.

Fixpoint le_word (bs : list Z) : Z :=
  match bs with
  | [] => 0
  | b :: bs' => b + 256 * le_word bs'
  end.

Fixpoint words_of (n : nat) (bs : list Z) : list Z :=
  match n with
  | O => []
  | S n' => le_word (take 8 bs) :: words_of n' (drop 8 bs)
  end.

Definition compress (h block : list Z) (t : Z) (final : bool) : list Z :=
  let m := words_of 16 block in
  let v := h ++ IV in
  let v := <[12%nat := Z.lxor (word v 12) (w64 t)]> v in
  let v := <[13%nat := Z.lxor (word v 13) (Z.shiftr t 64)]> v in
  let v := if final then <[14%nat := Z.lxor (word v 14) (2 ^ 64 - 1)]> v
           else v in
  let v := fold_left (fun v r => round m (nth (r mod 10) SIGMA []) v)
                     (seq 0 12) v in
  map (fun i => Z.lxor (Z.lxor (word h i) (word v i)) (word v (i + 8)))
      (seq 0 8).

Definition pad_block (bs : list Z) : list Z :=
  bs ++ repeat 0 (128 - length bs).

(** All blocks but the last are compressed with the running byte count;
    the last one, padded, carries the final flag. *)
Fixpoint absorb (fuel : nat) (h : list Z) (t : Z) (data : list Z) : list Z :=
  match fuel with
  | O => h
  | S fuel' =>
      if (length data <=? 128)%nat
      then compress h (pad_block data) (t + Z.of_nat (length data)) true
      else absorb fuel' (compress h (take 128 data) (t + 128) false)
                  (t + 128) (drop 128 data)
  end.

Fixpoint le_bytes (n : nat) (x : Z) : list Z :=
  match n with
  | O => []
  | S n' => x mod 256 :: le_bytes n' (x / 256)
  end.

Definition digest (digest_size : nat) (key data : list Z) : list Z :=
  let kk := Z.of_nat (length key) in
  let nn := Z.of_nat digest_size in
  let h := <[0%nat := Z.lxor (word IV 0)
                        (Z.lxor 0x01010000 (Z.lxor (Z.shiftl kk 8) nn))]> IV in
  let input := (if 0 <? kk then pad_block key else []) ++ data in
  let h := absorb (S (length input)) h 0 input in
  take digest_size (concat (map (le_bytes 8) h)).

Definition hex_digit (n : Z) : ascii :=
  nth (Z.to_nat n) (list_ascii_of_string "0123456789abcdef") "0"%char.

Fixpoint hex (bs : list Z) : string :=
  match bs with
  | [] => EmptyString
  | b :: bs' =>
      String (hex_digit (b / 16)) (String (hex_digit (b mod 16)) (hex bs'))
  end.

(** [s.encode('utf-8')], a [str] being held as its UTF-8 bytes. *)
Definition encode (s : string) : list Z :=
  map (fun c => Z.of_N (N_of_ascii c)) (list_ascii_of_string s).

(** A hash object: [blake2b(digest_size=n, key=k)] followed by [update]s. *)
Record hasher := Hasher {
  h_digest_size : nat;
  h_key : list Z;
  h_data : list Z
}.

(** The constructor refuses a key of more than 64 bytes. *)
Definition blake2b (digest_size : nat) (key : list Z) : raises hasher :=
  if (64 <? length key)%nat
  then inl (PyExc ValueError "maximum key length is 64 bytes")
  else inr (Hasher digest_size key []).

Definition update (h : hasher) (data : list Z) : hasher :=
  Hasher (h_digest_size h) (h_key h) (h_data h ++ data).

Definition hexdigest (h : hasher) : string :=
  hex (digest (h_digest_size h) (h_key h) (h_data h)).

End Blake2b.

(** ** code_object.py *)

(** [SymbolWrapper]: a symbol that is compared and hashed by name. *)
Record SymbolWrapper := Wrap { _symbol : Symbol }.

Definition wrapper_name (w : SymbolWrapper) : string := get_name (_symbol w).

(** [SymbolWrapper.__eq__] *)
Definition SymbolWrapper__eq__ (a b : SymbolWrapper) : bool :=
  String.eqb (wrapper_name a) (wrapper_name b).

(** [SymbolWrapper.__repr__], which [str] falls back on. *)
Definition str (w : SymbolWrapper) : string := "[" +:+ wrapper_name w +:+ "]".

(** The members a set keeps of a sequence of wrappers: the first one of
    every name. *)
Fixpoint distinct (seen : list string) (l : list SymbolWrapper)
  : list SymbolWrapper :=
  match l with
  | [] => []
  | w :: l' =>
      if bool_decide (wrapper_name w ∈ seen) then distinct seen l'
      else w :: distinct (wrapper_name w :: seen) l'
  end.

(** What code_object.py takes from the runtime: [symtable.symtable], which
    fails on a source that does not parse, and the order in which a
    [frozenset] built from a sequence is iterated.  CPython fixes that order
    by the hash values of the names; all that is known of it is that it
    enumerates the members once each. *)
Class Analysis := {
  symtable : string → raises SymbolTable;
  frozenset : list SymbolWrapper → list SymbolWrapper;
  frozenset_members : ∀ l, frozenset l ≡ₚ distinct [] l
}.

(** The builtin-name registry, [BuiltInManager]: the analysis only asks
    whether a name is in it ([name in ns_manager]). *)
Record BuiltInManager := { contains : string → bool }.

Definition MultipleDefinitionsError : pyclass :=
  UserClass "MultipleDefinitionsError" Exception_.

Record CodeObject := mkCodeObject {
  symbol_table : SymbolTable;
  code : string;
  input_vars : list SymbolWrapper;
  output_vars : list SymbolWrapper;
  display_id : string
}.

Section CodeObject.
Context `{Analysis}.

(** One turn of the loop over [symbols.get_symbols ()]: [imports] is the
    set shared by the whole traversal, returned updated with what was
    yielded. *)
Definition visit_symbol (ns_manager : BuiltInManager) (sym : Symbol)
    (imports : gset string) : list SymbolWrapper * gset string :=
  let imports :=
    if is_imported sym then {[get_name sym]} ∪ imports else imports in
  if is_global sym && negb (contains ns_manager (get_name sym))
     && negb (bool_decide (get_name sym ∈ imports))
  then ([Wrap sym], imports)
  else ([], imports).

Fixpoint visit_symbols (ns_manager : BuiltInManager) (syms : list Symbol)
    (imports : gset string) : list SymbolWrapper * gset string :=
  match syms with
  | [] => ([], imports)
  | sym :: syms' =>
      let '(out1, imports) := visit_symbol ns_manager sym imports in
      let '(out2, imports) := visit_symbols ns_manager syms' imports in
      (out1 ++ out2, imports)
  end.

(** The generator [_find_symbol_tables]: what it yields, and the set
    [imports] as it leaves it. *)
Fixpoint _find_symbol_tables (symbols : SymbolTable) (imports : gset string)
    (ns_manager : BuiltInManager) : list SymbolWrapper * gset string :=
  match symbols with
  | Table _ syms children =>
      let '(out1, imports) := visit_symbols ns_manager syms imports in
      let '(out2, imports) :=
        (fix visit_children (cs : list SymbolTable) (imports : gset string) :=
           match cs with
           | [] => ([], imports)
           | a :: cs' =>
               let '(o1, imports) := _find_symbol_tables a imports ns_manager in
               let '(o2, imports) := visit_children cs' imports in
               (o1 ++ o2, imports)
           end) children imports in
      (out1 ++ out2, imports)
  end.

Definition _find_input_variables (st : SymbolTable)
    (ns_manager : BuiltInManager) : list SymbolWrapper :=
  let imports : gset string := ∅ in
  fst (_find_symbol_tables st imports ns_manager).

Definition _find_output_variables (st : SymbolTable)
  : raises (list SymbolWrapper) :=
  let output_vars :=
    map Wrap (List.filter (fun sym => is_assigned sym || is_imported sym)
                          (get_symbols st)) in
  let num_imports :=
    list_sum (map (fun w => if is_imported (_symbol w) then 1 else 0)%nat
                  output_vars) in
  if (1 <? Z.of_nat (length output_vars) - Z.of_nat num_imports)%Z
  then inl (PyExc MultipleDefinitionsError "")
  else inr (frozenset output_vars).

(** [CodeObject.__init__] *)
Definition CodeObject__init__ (code : string) (key : list Z)
    (ns_manager : BuiltInManager) : raises CodeObject :=
  bind_raises (symtable code) (fun symbol_table =>
  let input_vars := _find_input_variables symbol_table ns_manager in
  bind_raises (_find_output_variables symbol_table) (fun output_vars =>
  bind_raises (Blake2b.blake2b 10 key) (fun h =>
  if (0 <? length output_vars)%nat then
    let display_id_prefix := String.concat "+" (map str output_vars) in
    let h := Blake2b.update h (Blake2b.encode display_id_prefix) in
    inr (mkCodeObject symbol_table code input_vars output_vars
           (display_id_prefix +:+ "-" +:+ Blake2b.hexdigest h))
  else
    let h := Blake2b.update h (Blake2b.encode code) in
    inr (mkCodeObject symbol_table code input_vars output_vars
           (Blake2b.hexdigest h))))).

(** [CodeObject.__eq__], on two code objects *)
Definition CodeObject__eq__ (a b : CodeObject) : bool :=
  String.eqb (display_id a) (display_id b).

End CodeObject.

(** ** [CodeObject.__repr__] *)

(** [ESCAPE_TABLE]: the seven control characters bell, backspace, form
    feed, line feed, carriage return, tab and vertical tab, and the single
    and the double quote, each with the two characters of its escape
    sequence. *)
Definition ESCAPE_TABLE : list (ascii * string) :=
  [("007"%char, "\a"); ("008"%char, "\b"); ("012"%char, "\f");
   ("010"%char, "\n"); ("013"%char, "\r"); ("009"%char, "\t");
   ("011"%char, "\v");
   ("039"%char, String "\"%char (String "039"%char EmptyString));
   ("034"%char, String "\"%char (String "034"%char EmptyString))].

(** What [str.translate] does to one character: its entry in the table, or
    the character itself. *)
Fixpoint translate_char (table : list (ascii * string)) (c : ascii) : string :=
  match table with
  | [] => String c EmptyString
  | (k, r) :: table' => if Ascii.eqb c k then r else translate_char table' c
  end.

(** [s.translate(table)] *)
Fixpoint translate (table : list (ascii * string)) (s : string) : string :=
  match s with
  | EmptyString => EmptyString
  | String c s' => translate_char table c +:+ translate table s'
  end.

(** [str] of a list of wrappers: their [repr]s between brackets. *)
Definition list_str (l : list SymbolWrapper) : string :=
  "[" +:+ String.concat ", " (map str l) +:+ "]".

Definition double_quote : string := String "034"%char EmptyString.

Definition CodeObject__repr__ (self : CodeObject) : string :=
  "<Code in:" +:+ list_str (input_vars self)
  +:+ " out:" +:+ list_str (output_vars self)
  +:+ " code:" +:+ double_quote
  +:+ translate ESCAPE_TABLE (code self) +:+ double_quote +:+ ">".

(** ** The process around execute.py *)

(** A file-like object: one the process was started with, or an
    [io.StringIO] allocated at an address of [buffers]. *)
Inductive stream := Console (fd : nat) | StringIO (addr : nat).

(** What [sys.displayhook] can hold: [None], the bound method [displayhook]
    of the [ExecutionResult] at an address of [results], or some other
    callable. *)
Inductive hook :=
| None_hook
| Foreign_hook (id : nat)
| Bound_displayhook (self : nat).

Inductive std_fd := StdOut | StdErr.

Global Instance stream_eq_dec : EqDecision stream.
Proof. solve_decision. Defined.
Global Instance hook_eq_dec : EqDecision hook.
Proof. solve_decision. Defined.

Record ExecutionResult := mkResult {
  stdout : option stream;
  stderr : option stream;
  has_output : bool;
  output : value;
  target_id : option string;
  has_exception : bool;
  exception : option (list value)
}.

(** The mutable state the executor works on.  [global_ns] is the dictionary
    [ns_manager.global_ns]. *)
Record Process := mkProcess {
  sys_stdout : stream;
  sys_stderr : stream;
  sys_displayhook : hook;
  sys_excepthook : nat;
  buffers : list string;
  results : list ExecutionResult;
  global_ns : gmap string value
}.

Definition set_sys_stdout (s : stream) (p : Process) : Process :=
  mkProcess s (sys_stderr p) (sys_displayhook p) (sys_excepthook p)
            (buffers p) (results p) (global_ns p).
Definition set_sys_stderr (s : stream) (p : Process) : Process :=
  mkProcess (sys_stdout p) s (sys_displayhook p) (sys_excepthook p)
            (buffers p) (results p) (global_ns p).
Definition set_sys_displayhook (h : hook) (p : Process) : Process :=
  mkProcess (sys_stdout p) (sys_stderr p) h (sys_excepthook p)
            (buffers p) (results p) (global_ns p).
Definition set_sys_excepthook (h : nat) (p : Process) : Process :=
  mkProcess (sys_stdout p) (sys_stderr p) (sys_displayhook p) h
            (buffers p) (results p) (global_ns p).
Definition set_buffers (b : list string) (p : Process) : Process :=
  mkProcess (sys_stdout p) (sys_stderr p) (sys_displayhook p)
            (sys_excepthook p) b (results p) (global_ns p).
Definition set_results (r : list ExecutionResult) (p : Process) : Process :=
  mkProcess (sys_stdout p) (sys_stderr p) (sys_displayhook p)
            (sys_excepthook p) (buffers p) r (global_ns p).
Definition set_global_ns (ns : gmap string value) (p : Process) : Process :=
  mkProcess (sys_stdout p) (sys_stderr p) (sys_displayhook p)
            (sys_excepthook p) (buffers p) (results p) ns.

(** Statements run in a process and return or raise. *)
Definition M (A : Type) : Type := Process → raises A * Process.

Global Instance M_ret : MRet M := fun A a p => (inr a, p).
Global Instance M_bind : MBind M := fun A B k m p =>
  match m p with
  | (inr a, p') => k a p'
  | (inl e, p') => (inl e, p')
  end.

Definition raise {A} (e : pyexc) : M A := fun p => (inl e, p).
Definition lift {A} (r : raises A) : M A := fun p => (r, p).
Definition gets {A} (f : Process → A) : M A := fun p => (inr (f p), p).
Definition modify (f : Process → Process) : M unit := fun p => (inr tt, f p).

(** [try: body / except BaseException as e: handler e] *)
Definition try_except {A} (body : M A) (handler : pyexc → M A) : M A :=
  fun p =>
    match body p with
    | (inl e, p') => handler e p'
    | (inr a, p') => (inr a, p')
    end.

(** [try: body / finally: final] *)
Definition try_finally {A} (body : M A) (final : M unit) : M A :=
  fun p =>
    let '(r, p') := body p in
    match final p' with
    | (inl e, p'') => (inl e, p'')
    | (inr _, p'') => (r, p'')
    end.

(** The context-manager protocol.  [__enter__] returns the manager as it
    has become; an [__exit__] that returns normally does not swallow the
    exception of the body (both managers below return [None]). *)
Class ContextManager (C : Type) := {
  __enter__ : C → M C;
  __exit__ : C → M unit
}.

Definition with_ {C A} `{ContextManager C} (c : C) (body : M A) : M A :=
  c' ← __enter__ c;
  try_finally body (__exit__ c').

Definition newline : string := String "010"%char EmptyString.

(** [f.write(text)]; what goes to a console leaves the process. *)
Definition write (f : stream) (text : string) : M unit :=
  modify (fun p =>
    match f with
    | StringIO a => set_buffers (alter (fun old => old +:+ text) a (buffers p)) p
    | Console _ => p
    end).

Definition std (fd : std_fd) : Process → stream :=
  match fd with StdOut => sys_stdout | StdErr => sys_stderr end.

(** [print(text, file=sys.stdout)] and [print(text, file=sys.stderr)] *)
Definition print (text : string) (fd : std_fd) : M unit :=
  f ← gets (std fd);
  write f (text +:+ newline).

(** [io.StringIO()] *)
Definition StringIO__init__ : M stream := fun p =>
  (inr (StringIO (length (buffers p))), set_buffers (buffers p ++ [""]) p).

(** The text of a buffer, [f.getvalue()]. *)
Definition getvalue (p : Process) (f : option stream) : string :=
  match f with
  | Some (StringIO a) => default "" (buffers p !! a)
  | _ => ""
  end.

(** *** ExecutionResult *)

Definition ExecutionResult__init__ : M nat := fun p =>
  (inr (length (results p)),
   set_results (results p ++ [mkResult None None false VNone None false None]) p).

Definition setattr (self : nat) (f : ExecutionResult → ExecutionResult)
  : M unit :=
  modify (fun p => set_results (alter f self (results p)) p).

Definition set_stdout (v : option stream) (r : ExecutionResult) :=
  mkResult v (stderr r) (has_output r) (output r) (target_id r)
           (has_exception r) (exception r).
Definition set_stderr (v : option stream) (r : ExecutionResult) :=
  mkResult (stdout r) v (has_output r) (output r) (target_id r)
           (has_exception r) (exception r).
Definition set_has_output (v : bool) (r : ExecutionResult) :=
  mkResult (stdout r) (stderr r) v (output r) (target_id r)
           (has_exception r) (exception r).
Definition set_output (v : value) (r : ExecutionResult) :=
  mkResult (stdout r) (stderr r) (has_output r) v (target_id r)
           (has_exception r) (exception r).
Definition set_target_id (v : option string) (r : ExecutionResult) :=
  mkResult (stdout r) (stderr r) (has_output r) (output r) v
           (has_exception r) (exception r).
Definition set_has_exception (v : bool) (r : ExecutionResult) :=
  mkResult (stdout r) (stderr r) (has_output r) (output r) (target_id r)
           v (exception r).

Definition is_complete (self : ExecutionResult) : bool :=
  let stdout_fulfilled := bool_decide (stdout self ≠ None) in
  let stderr_fulfilled := bool_decide (stderr self ≠ None) in
  let output_fulfilled :=
    if has_output self
    then bool_decide (output self ≠ VNone)
         && bool_decide (target_id self ≠ None)
    else true in
  let exception_fulfilled :=
    if has_exception self
    then match exception self with
         | Some triple => (length triple =? 3)%nat
         | None => false
         end
    else true in
  stdout_fulfilled && stderr_fulfilled && output_fulfilled
  && exception_fulfilled.

Definition capture_io (self : nat) (stdout stderr : option stream) : M unit :=
  setattr self (set_stdout stdout);;
  setattr self (set_stderr stderr).

Definition displayhook (self : nat) (result : value) : M unit :=
  setattr self (set_output result);;
  setattr self (fun r =>
    if bool_decide (output r ≠ VNone) then set_has_output true r else r).

(** *** Capture Scope: CapturedIOCtx and CapturedDisplayCtx *)

Record CapturedIOCtx := mkCapturedIOCtx {
  capture_stdout : bool;
  capture_stderr : bool;
  container_func : option stream → option stream → M unit;
  io_sys_stdout : option stream;
  io_sys_stderr : option stream
}.

Definition CapturedIOCtx__init__
    (container_func : option stream → option stream → M unit)
    (capture_stdout capture_stderr : bool) : CapturedIOCtx :=
  mkCapturedIOCtx capture_stdout capture_stderr container_func None None.

Definition CapturedIOCtx__enter__ (self : CapturedIOCtx) : M CapturedIOCtx :=
  old_stdout ← gets sys_stdout;
  old_stderr ← gets sys_stderr;
  stdout ← (if capture_stdout self
            then f ← StringIO__init__; modify (set_sys_stdout f);; mret (Some f)
            else mret None);
  stderr ← (if capture_stderr self
            then f ← StringIO__init__; modify (set_sys_stderr f);; mret (Some f)
            else mret None);
  container_func self stdout stderr;;
  mret (mkCapturedIOCtx (capture_stdout self) (capture_stderr self)
          (container_func self) (Some old_stdout) (Some old_stderr)).

Definition missing_attribute {A} (attr : string) : M A :=
  raise (PyExc AttributeError attr).

Definition CapturedIOCtx__exit__ (self : CapturedIOCtx) : M unit :=
  match io_sys_stdout self, io_sys_stderr self with
  | Some old_stdout, Some old_stderr =>
      modify (set_sys_stdout old_stdout);;
      modify (set_sys_stderr old_stderr)
  | _, _ => missing_attribute "sys_stdout"
  end.

Global Instance CapturedIOCtx_manager : ContextManager CapturedIOCtx :=
  {| __enter__ := CapturedIOCtx__enter__; __exit__ := CapturedIOCtx__exit__ |}.

Record CapturedDisplayCtx := mkCapturedDisplayCtx {
  capture_func : hook;
  dc_sys_displayhook : hook
}.

Definition CapturedDisplayCtx__init__ (capture_func : hook)
  : CapturedDisplayCtx :=
  mkCapturedDisplayCtx capture_func None_hook.

Definition CapturedDisplayCtx__enter__ (self : CapturedDisplayCtx)
  : M CapturedDisplayCtx :=
  old ← gets sys_displayhook;
  modify (set_sys_displayhook (capture_func self));;
  mret (mkCapturedDisplayCtx (capture_func self) old).

Definition CapturedDisplayCtx__exit__ (self : CapturedDisplayCtx) : M unit :=
  modify (set_sys_displayhook (dc_sys_displayhook self)).

Global Instance CapturedDisplayCtx_manager
  : ContextManager CapturedDisplayCtx :=
  {| __enter__ := CapturedDisplayCtx__enter__;
     __exit__ := CapturedDisplayCtx__exit__ |}.

(** *** User code *)

(** What running user code does to the process, in the order it does it:
    it writes to the current standard streams, hands values to the current
    display hook, and may rebind the [sys] singletons.  Code that gets hold
    of a result object (through [sys.displayhook.__self__]) and assigns its
    attributes is not described. *)
Inductive effect :=
| Write (fd : std_fd) (text : string)
| Display (v : value)
| SetStream (fd : std_fd) (f : stream)
| SetDisplayhook (h : hook)
| SetExcepthook (h : nat).

(** One run of user code from a given namespace: its effects, the namespace
    it leaves (a raising run keeps the bindings made before the raise), and
    its value or exception. *)
Record run (A : Type) := mkRun {
  effects : list effect;
  ns_after : gmap string value;
  outcome : raises A
}.
Arguments mkRun {A}.
Arguments effects {A}.
Arguments ns_after {A}.
Arguments outcome {A}.

(** An awaitable: its run, from the namespace it finds. *)
Definition coroutine : Type := gmap string value → run value.

(** [ast.Module(body)] and [ast.Interactive(body)] *)
Inductive mod_ := Module_ (body : list stmt) | Interactive (body : list stmt).

(** What execute.py takes from the interpreter.  [ast_parse code filename]
    is the body of [ast.parse(code, filename=filename, mode='exec')]; in
    mode ['single'] the compiled code hands the value of an expression
    statement to [sys.displayhook].  [exec] gives an execution as it has
    come to an end, with a value or with an exception: code that never
    hands control back (an endless loop, the end of the process) has no
    run, and nothing below speaks of it. *)
Class Interpreter := {
  code_type : Type;
  ast_parse : string → string → raises (list stmt);
  compile : mod_ → string → string → raises code_type;
  exec : code_type → gmap string value → run unit
}.

(** Calling [sys.displayhook]: a bound [displayhook] records the value in
    its result object; what any other hook does is outside the state kept
    here. *)
Definition call_displayhook (v : value) : M unit :=
  h ← gets sys_displayhook;
  match h with
  | Bound_displayhook self => displayhook self v
  | _ => mret tt
  end.

Definition perform (ev : effect) : M unit :=
  match ev with
  | Write fd text => f ← gets (std fd); write f text
  | Display v => call_displayhook v
  | SetStream StdOut f => modify (set_sys_stdout f)
  | SetStream StdErr f => modify (set_sys_stderr f)
  | SetDisplayhook h => modify (set_sys_displayhook h)
  | SetExcepthook h => modify (set_sys_excepthook h)
  end.

Fixpoint perform_all (evs : list effect) : M unit :=
  match evs with
  | [] => mret tt
  | ev :: evs' => perform ev;; perform_all evs'
  end.

(** A run takes place in the process: the effects, the namespace, then the
    value or the exception. *)
Definition play {A} (r : run A) : M A :=
  perform_all (effects r);;
  modify (set_global_ns (ns_after r));;
  lift (outcome r).

(** [await coroutine] *)
Definition await (co : coroutine) : M value :=
  ns ← gets global_ns;
  play (co ns).

(** *** Executor *)

(** The traceback renderers of [IPython.core.ultratb], each of which may
    itself raise. *)
Record TB := mkTB {
  structured_traceback : pyexc → raises (list string);
  stb2text : list string → raises string
}.

Record Executor := mkExecutor {
  loader : nat;
  excepthook : nat;
  InteractiveTB : TB;
  SyntaxTB : TB;
  ns_manager : BuiltInManager
}.

(** [Executor.__init__]; the two renderers are the [ultratb] objects it
    constructs. *)
Definition Executor__init__ (loader : nat) (ns_manager : BuiltInManager)
    (interactive_tb syntax_tb : TB) : M Executor :=
  h ← gets sys_excepthook;
  mret (mkExecutor loader h interactive_tb syntax_tb ns_manager).

(** Modelled from the spec: [BuiltInManager.update] (user_namespace.py is
    not among the sources); the namespace is "a mapping from name to value"
    that the executor "writes into (bound outputs)": every pair of the
    dictionary passed is bound in it. *)
Definition BuiltInManager_update (d : list (string * value)) : M unit :=
  modify (fun p =>
    set_global_ns (foldl (fun ns kv => <[kv.1 := kv.2]> ns) (global_ns p) d) p).

Definition update_ns (self : Executor) (d : list (string * value)) : M unit :=
  BuiltInManager_update d.

(** The handler that [run_coroutine] and [_run_code] both carry: render
    the exception, through the syntax renderer if it is a [SyntaxError],
    and print the text to [sys.stderr]; if rendering raises, print that
    exception to [sys.stdout] instead. *)
Definition showtraceback (self : Executor) (e : pyexc) : M unit :=
  try_except
    (stb ← lift (structured_traceback (InteractiveTB self) e);
     if issubclass (exc_type e) SyntaxError then
       stb ← lift (structured_traceback (SyntaxTB self) e);
       text ← lift (stb2text (InteractiveTB self) stb);
       print text StdErr
     else
       text ← lift (stb2text (InteractiveTB self) stb);
       print text StdErr)
    (fun e' => print (exc_str e') StdOut).

Section Executor.
Context `{Interpreter}.

Definition run_coroutine (self : Executor) (coroutine : coroutine)
    (variable_name : string) (nohandle_exceptions : list pyclass) : M nat :=
  exec_result ← ExecutionResult__init__;
  setattr exec_result (set_target_id (Some variable_name));;
  with_ (CapturedIOCtx__init__ (capture_io exec_result) true true)
    (with_ (CapturedDisplayCtx__init__ (Bound_displayhook exec_result))
      (setattr exec_result (set_has_exception true);;
       awaited ← try_except
         (v ← await coroutine;
          setattr exec_result (set_output v);;
          mret true)
         (fun e =>
            if isinstance e nohandle_exceptions then raise e
            else showtraceback self e;; mret false);
       if awaited : bool then
         setattr exec_result (set_has_exception false);;
         r ← gets (fun p => results p !! exec_result);
         match r with
         | Some {| target_id := Some name; output := v |} =>
             update_ns self [(name, v)]
         | _ => mret tt
         end
       else mret tt));;
  mret exec_result.

Definition _run_code (self : Executor) (code_obj : code_type) : M bool :=
  old_excepthook ← gets sys_excepthook;
  modify (set_sys_excepthook (excepthook self));;
  try_except
    (try_finally
       (ns ← gets global_ns; play (exec code_obj ns))
       (modify (set_sys_excepthook old_excepthook));;
     mret false)
    (fun e => showtraceback self e;; mret true).

(** [isinstance(node, _assign_nodes)] *)
Definition is_assign_node (node : stmt) : bool :=
  match node with
  | Assign _ _ | AugAssign _ _ _ | AnnAssign _ _ _ => true
  | _ => false
  end.

(** The target picked from a trailing assignment: the only target of an
    [Assign], the target of an [AugAssign] or [AnnAssign]. *)
Definition assign_target (asg : stmt) : option expr :=
  match asg with
  | Assign [target] _ => Some target
  | AugAssign target _ _ => Some target
  | AnnAssign target _ _ => Some target
  | _ => None
  end.

(** The loop over [to_run_interactive]; [true] when a node failed. *)
Fixpoint run_interactive (self : Executor) (name : string) (nodes : list stmt)
  : M bool :=
  match nodes with
  | [] => mret false
  | node :: nodes' =>
      code ← lift (compile (Interactive [node]) name "single");
      failed ← _run_code self code;
      if failed : bool then mret true else run_interactive self name nodes'
  end.

(** The node list as it is after the synthetic expression was appended,
    with the output name. *)
Definition extend_nodes (nodelist : list stmt) : list stmt * option string :=
  match last nodelist with
  | Some asg =>
      if is_assign_node asg then
        match assign_target asg with
        | Some (Name id _) => (nodelist ++ [Expr (Name id Load)], Some id)
        | _ => (nodelist, None)
        end
      else (nodelist, None)
  | None => (nodelist, None)
  end.

(** [to_run_exec, to_run_interactive] *)
Definition split_nodes (nodelist : list stmt) : list stmt * list stmt :=
  match last nodelist with
  | Some (Expr v) => (removelast nodelist, [Expr v])
  | _ => (nodelist, [])
  end.

Definition _run_ast_nodes (self : Executor) (nodelist : list stmt)
    (name : string) : M (bool * option string) :=
  match nodelist with
  | [] => mret (true, None)
  | _ :: _ =>
      let '(nodelist, output_name) := extend_nodes nodelist in
      let '(to_run_exec, to_run_interactive) := split_nodes nodelist in
      try_except
        (code ← lift (compile (Module_ to_run_exec) name "exec");
         failed ← _run_code self code;
         if failed : bool then mret (true, output_name)
         else
           failed ← run_interactive self name to_run_interactive;
           if failed : bool then mret (true, output_name)
           else mret (false, output_name))
        (fun _ => mret (true, output_name))
  end.

(** [run_cell]; [linecache.lazycache] registers the loader under the cell
    name and touches nothing that is kept here. *)
Definition run_cell (self : Executor) (code name : string) : M nat :=
  exec_result ← ExecutionResult__init__;
  with_ (CapturedIOCtx__init__ (capture_io exec_result) true true)
    (with_ (CapturedDisplayCtx__init__ (Bound_displayhook exec_result))
      (code_ast ← lift (ast_parse code name);
       '(run_failed, output_name) ← _run_ast_nodes self code_ast name;
       setattr exec_result (set_has_exception run_failed);;
       setattr exec_result (set_target_id output_name)));;
  mret exec_result.

End Executor.

(** ** MiniPy: the runtime interfaces on a fragment of Python 3.7

    The fragment: one simple statement a line, with [#] comments; the
    statements [NAME = ... = expression], [NAME op= expression],
    [NAME: expression] and [NAME: expression = expression], a bare
    expression, [import NAME] and [pass]; expressions over decimal
    literals, names and the operators [+ - * / //] without parentheses.
    Builtins are taken to be empty ([__builtins__] bound to an empty
    dictionary), and a true division that does not raise would produce a
    float, which the fragment leaves out.  The dictionary that a module
    with an annotation binds to [__annotations__] is an object the
    development does not look into.  Whatever falls outside the
    fragment is answered with [unsupported], which is not a verdict of
    CPython; where MiniPy parses, rejects with a [SyntaxError], or runs a
    program, it does what CPython 3.7 does. *)
Module MiniPy.

Definition unsupported : pyexc :=
  PyExc NotImplementedError "outside the MiniPy fragment".
Definition invalid_syntax : pyexc := PyExc SyntaxError "invalid syntax".
Definition cannot_assign : pyexc := PyExc SyntaxError "can't assign to expression".
Definition unexpected_indent : pyexc :=
  PyExc IndentationError "unexpected indent".
Definition illegal_target : pyexc :=
  PyExc SyntaxError "illegal target for annotation".

Inductive token :=
| TName (s : string)
| TInt (n : Z)
| TPlus | TMinus | TStar | TSlash | TDoubleSlash
| TEq
| TColon
| TAug (op : operator).

(** A name or a literal that is being read. *)
Inductive pending := PNone | PName (s : string) | PInt (digits : list ascii).

Definition code_of (c : ascii) : N := N_of_ascii c.

Definition is_digit (c : ascii) : bool :=
  (48 <=? code_of c)%N && (code_of c <=? 57)%N.

Definition is_letter (c : ascii) : bool :=
  ((65 <=? code_of c)%N && (code_of c <=? 90)%N)
  || ((97 <=? code_of c)%N && (code_of c <=? 122)%N)
  || (code_of c =? 95)%N.

(** Keywords of Python 3.7 and names it refuses to bind; only [import] and
    [pass] are in the fragment. *)
Definition reserved : list string :=
  ["False"; "None"; "True"; "and"; "as"; "assert"; "async"; "await";
   "break"; "class"; "continue"; "def"; "del"; "elif"; "else"; "except";
   "finally"; "for"; "from"; "global"; "if"; "in"; "is"; "lambda";
   "nonlocal"; "not"; "or"; "raise"; "return"; "try"; "while"; "with";
   "yield"; "__debug__"].

Definition statement_keywords : list string := ["import"; "pass"].

Fixpoint decimal (digits : list ascii) (acc : Z) : Z :=
  match digits with
  | [] => acc
  | d :: ds => decimal ds (10 * acc + Z.of_N (code_of d) - 48)%Z
  end.

Definition flush (pd : pending) : raises (list token) :=
  match pd with
  | PNone => inr []
  | PName s => if bool_decide (s ∈ reserved) then inl unsupported
               else inr [TName s]
  | PInt digits =>
      match digits with
      | "0"%char :: _ :: _ => inl unsupported
      | _ => inr [TInt (decimal digits 0)]
      end
  end.

Definition emit (pd : pending) (ts : list token) (rest : raises (list token))
  : raises (list token) :=
  bind_raises (flush pd) (fun ts0 =>
  bind_raises rest (fun ts1 => inr (ts0 ++ ts ++ ts1))).

(** The tokens of one line. *)
Fixpoint lex (cs : list ascii) (pd : pending) : raises (list token) :=
  match cs with
  | [] => flush pd
  | c :: cs' =>
      if is_digit c then
        match pd with
        | PNone => lex cs' (PInt [c])
        | PInt ds => lex cs' (PInt (ds ++ [c]))
        | PName s => lex cs' (PName (s +:+ String c EmptyString))
        end
      else if is_letter c then
        match pd with
        | PNone => lex cs' (PName (String c EmptyString))
        | PName s => lex cs' (PName (s +:+ String c EmptyString))
        | PInt _ => inl unsupported
        end
      else
        match c, cs' with
        | " "%char, _ => emit pd [] (lex cs' PNone)
        | "#"%char, _ => flush pd
        | "+"%char, "="%char :: cs'' => emit pd [TAug Add] (lex cs'' PNone)
        | "+"%char, _ => emit pd [TPlus] (lex cs' PNone)
        | "-"%char, "="%char :: cs'' => emit pd [TAug Sub] (lex cs'' PNone)
        | "-"%char, ">"%char :: _ => inl unsupported
        | "-"%char, _ => emit pd [TMinus] (lex cs' PNone)
        | "*"%char, "="%char :: cs'' => emit pd [TAug Mult] (lex cs'' PNone)
        | "*"%char, "*"%char :: _ => inl unsupported
        | "*"%char, _ => emit pd [TStar] (lex cs' PNone)
        | "/"%char, "/"%char :: "="%char :: cs'' =>
            emit pd [TAug FloorDiv] (lex cs'' PNone)
        | "/"%char, "/"%char :: cs'' => emit pd [TDoubleSlash] (lex cs'' PNone)
        | "/"%char, "="%char :: cs'' => emit pd [TAug Div] (lex cs'' PNone)
        | "/"%char, _ => emit pd [TSlash] (lex cs' PNone)
        | "="%char, "="%char :: _ => inl unsupported
        | "="%char, _ => emit pd [TEq] (lex cs' PNone)
        | ":"%char, _ => emit pd [TColon] (lex cs' PNone)
        | _, _ => inl unsupported
        end
  end.

Definition atom_name (s : string) : raises expr :=
  if bool_decide (s ∈ statement_keywords) then inl invalid_syntax
  else inr (Name s Load).

(** factor: [+ factor], [- factor], a literal or a name *)
Fixpoint parse_factor (ts : list token) : raises (expr * list token) :=
  match ts with
  | TMinus :: ts' =>
      bind_raises (parse_factor ts') (fun '(e, rest) => inr (UnaryOp USub e, rest))
  | TPlus :: ts' =>
      bind_raises (parse_factor ts') (fun '(e, rest) => inr (UnaryOp UAdd e, rest))
  | TInt n :: ts' => inr (Num n, ts')
  | TName s :: ts' => bind_raises (atom_name s) (fun e => inr (e, ts'))
  | _ => inl invalid_syntax
  end.

Definition term_op (t : token) : option operator :=
  match t with
  | TStar => Some Mult
  | TSlash => Some Div
  | TDoubleSlash => Some FloorDiv
  | _ => None
  end.

Definition arith_op (t : token) : option operator :=
  match t with
  | TPlus => Some Add
  | TMinus => Some Sub
  | _ => None
  end.

(** A left-associative chain [operand (op operand)*]; every turn consumes
    tokens, so as many turns as there are tokens is enough. *)
Fixpoint parse_chain (operand : list token → raises (expr * list token))
    (ops : token → option operator) (fuel : nat) (lhs : expr)
    (ts : list token) : raises (expr * list token) :=
  match fuel, ts with
  | S fuel', t :: ts' =>
      match ops t with
      | Some op =>
          bind_raises (operand ts') (fun '(rhs, rest) =>
          parse_chain operand ops fuel' (BinOp lhs op rhs) rest)
      | None => inr (lhs, ts)
      end
  | _, _ => inr (lhs, ts)
  end.

Definition parse_term (ts : list token) : raises (expr * list token) :=
  bind_raises (parse_factor ts) (fun '(lhs, rest) =>
  parse_chain parse_factor term_op (length rest) lhs rest).

Definition parse_expr (ts : list token) : raises (expr * list token) :=
  bind_raises (parse_term ts) (fun '(lhs, rest) =>
  parse_chain parse_term arith_op (length rest) lhs rest).

(** An assignment target of the fragment: a name, now in [Store] context. *)
Definition as_target (e : expr) : raises expr :=
  match e with
  | Name id _ => inr (Name id Store)
  | _ => inl cannot_assign
  end.

(** The target of an annotation in the fragment: a name, without
    parentheses. *)
Definition as_annotated (e : expr) : raises expr :=
  match e with
  | Name id _ => inr (Name id Store)
  | _ => inl illegal_target
  end.

(** [target = target = ... = value], after the first [=]. *)
Fixpoint parse_assign (fuel : nat) (targets : list expr) (ts : list token)
  : raises stmt :=
  bind_raises (parse_expr ts) (fun '(e, rest) =>
  match rest, fuel with
  | [], _ => inr (Assign targets e)
  | TEq :: rest', S fuel' =>
      bind_raises (as_target e) (fun t =>
      parse_assign fuel' (targets ++ [t]) rest')
  | _, _ => inl invalid_syntax
  end).

Definition parse_statement (ts : list token) : raises stmt :=
  match ts with
  | [TName "pass"] => inr Pass
  | TName "import" :: rest =>
      match rest with
      | [TName m] =>
          if bool_decide (m ∈ statement_keywords) then inl invalid_syntax
          else inr (Import [m])
      | _ => inl invalid_syntax
      end
  | _ =>
      bind_raises (parse_expr ts) (fun '(e, rest) =>
      match rest with
      | [] => inr (Expr e)
      | TEq :: rest' =>
          bind_raises (as_target e) (fun t =>
          parse_assign (length rest') [t] rest')
      | TAug op :: rest' =>
          bind_raises (as_target e) (fun t =>
          bind_raises (parse_expr rest') (fun '(v, rest'') =>
          match rest'' with
          | [] => inr (AugAssign t op v)
          | _ => inl invalid_syntax
          end))
      | TColon :: rest' =>
          bind_raises (parse_expr rest') (fun '(ann, rest'') =>
          match rest'' with
          | [] =>
              bind_raises (as_annotated e) (fun t => inr (AnnAssign t ann None))
          | TEq :: rest3 =>
              bind_raises (parse_expr rest3) (fun '(v, rest4) =>
              match rest4 with
              | [] =>
                  bind_raises (as_annotated e) (fun t =>
                  inr (AnnAssign t ann (Some v)))
              | _ => inl invalid_syntax
              end)
          | _ => inl invalid_syntax
          end)
      | _ => inl invalid_syntax
      end)
  end.

Fixpoint split_lines (cs : list ascii) (line : list ascii)
  : list (list ascii) :=
  match cs with
  | [] => [line]
  | c :: cs' =>
      if (code_of c =? 10)%N then line :: split_lines cs' []
      else split_lines cs' (line ++ [c])
  end.

Definition parse_line (line : list ascii) : raises (list stmt) :=
  bind_raises (lex line PNone) (fun ts =>
  match ts, line with
  | [], _ => inr []
  | _, " "%char :: _ => inl unexpected_indent
  | _, _ => bind_raises (parse_statement ts) (fun s => inr [s])
  end).

Fixpoint parse_lines (lines : list (list ascii)) : raises (list stmt) :=
  match lines with
  | [] => inr []
  | line :: lines' =>
      bind_raises (parse_line line) (fun s =>
      bind_raises (parse_lines lines') (fun ss => inr (s ++ ss)))
  end.

Definition parse (source : string) : raises (list stmt) :=
  parse_lines (split_lines (list_ascii_of_string source) []).

(** *** Evaluation *)

Definition name_error (id : string) : pyexc :=
  PyExc NameError ("name '" +:+ id +:+ "' is not defined").

Definition binop (op : operator) (a b : value) : raises value :=
  match a, b with
  | VInt x, VInt y =>
      match op with
      | Add => inr (VInt (x + y))
      | Sub => inr (VInt (x - y))
      | Mult => inr (VInt (x * y))
      | Div =>
          if (y =? 0)%Z then inl (PyExc ZeroDivisionError "division by zero")
          else inl unsupported
      | FloorDiv =>
          if (y =? 0)%Z
          then inl (PyExc ZeroDivisionError
                          "integer division or modulo by zero")
          else inr (VInt (x / y))
      end
  | _, _ => inl unsupported
  end.

Definition load (id : string) (ns : gmap string value) : raises value :=
  match ns !! id with
  | Some v => inr v
  | None => inl (name_error id)
  end.

Fixpoint eval (e : expr) (ns : gmap string value) : raises value :=
  match e with
  | Num n => inr (VInt n)
  | Name id _ => load id ns
  | UnaryOp op e1 =>
      bind_raises (eval e1 ns) (fun v =>
      match v, op with
      | VInt x, USub => inr (VInt (- x))
      | VInt x, UAdd => inr (VInt x)
      | _, _ => inl unsupported
      end)
  | BinOp l op r =>
      bind_raises (eval l ns) (fun a =>
      bind_raises (eval r ns) (fun b => binop op a b))
  | _ => inl unsupported
  end.

Fixpoint store (targets : list expr) (v : value) (ns : gmap string value)
  : raises (gmap string value) :=
  match targets with
  | [] => inr ns
  | Name id _ :: targets' => store targets' v (<[id := v]> ns)
  | _ => inl unsupported
  end.

(** One statement: the namespace it leaves, the value it hands to the
    display hook in mode ['single'], and the exception it raises.  An
    annotated name is bound to its value, if it has one, before the
    annotation is evaluated; without a value nothing is bound. *)
Definition exec_stmt (s : stmt) (ns : gmap string value)
  : gmap string value * option value * option pyexc :=
  match s with
  | Assign targets e =>
      match bind_raises (eval e ns) (fun v => store targets v ns) with
      | inr ns' => (ns', None, None)
      | inl err => (ns, None, Some err)
      end
  | AugAssign (Name id _) op e =>
      match bind_raises (load id ns) (fun a =>
            bind_raises (eval e ns) (fun b => binop op a b)) with
      | inr v => (<[id := v]> ns, None, None)
      | inl err => (ns, None, Some err)
      end
  | AnnAssign (Name id _) ann (Some e) =>
      match eval e ns with
      | inr v =>
          match eval ann (<[id := v]> ns) with
          | inr _ => (<[id := v]> ns, None, None)
          | inl err => (<[id := v]> ns, None, Some err)
          end
      | inl err => (ns, None, Some err)
      end
  | AnnAssign (Name id _) ann None =>
      match eval ann ns with
      | inr _ => (ns, None, None)
      | inl err => (ns, None, Some err)
      end
  | Expr e =>
      match eval e ns with
      | inr v => (ns, Some v, None)
      | inl err => (ns, None, Some err)
      end
  | Pass => (ns, None, None)
  | _ => (ns, None, Some unsupported)
  end.

Fixpoint exec_body (single : bool) (body : list stmt) (ns : gmap string value)
  : run unit :=
  match body with
  | [] => mkRun [] ns (inr tt)
  | s :: body' =>
      match exec_stmt s ns with
      | (ns', _, Some err) => mkRun [] ns' (inl err)
      | (ns', shown, None) =>
          let r := exec_body single body' ns' in
          let shown :=
            match shown with
            | Some v => if single then [Display v] else []
            | None => []
            end in
          mkRun (shown ++ effects r) (ns_after r) (outcome r)
      end
  end.

Definition in_fragment (s : stmt) : bool :=
  match s with
  | Assign _ _ | AugAssign _ _ _ | AnnAssign _ _ _ | Expr _ | Pass => true
  | _ => false
  end.

Definition is_annotation (s : stmt) : bool :=
  match s with AnnAssign _ _ _ => true | _ => false end.

(** [SETUP_ANNOTATIONS], which a module with an annotation starts with:
    [__annotations__] is bound to a new dictionary unless it is bound. *)
Definition setup_annotations (body : list stmt) (ns : gmap string value)
  : gmap string value :=
  if existsb is_annotation body then
    match ns !! "__annotations__" with
    | Some _ => ns
    | None => <["__annotations__" := VObject 0]> ns
    end
  else ns.

Definition is_return (s : stmt) : bool :=
  match s with Return _ => true | _ => false end.

Definition body_of (m : mod_) : list stmt :=
  match m with Module_ body => body | Interactive body => body end.

Definition compile_mod (m : mod_) (filename mode : string) : raises mod_ :=
  if existsb is_return (body_of m)
  then inl (PyExc SyntaxError "'return' outside function")
  else if negb (forallb in_fragment (body_of m)) then inl unsupported
  else match m with
       | Module_ _ =>
           if String.eqb mode "exec" then inr m
           else inl (PyExc TypeError "expected Interactive node, got Module")
       | Interactive _ =>
           if String.eqb mode "single" then inr m
           else inl (PyExc TypeError "expected Module node, got Interactive")
       end.

Definition exec_mod (m : mod_) (ns : gmap string value) : run unit :=
  match m with
  | Module_ body => exec_body false body (setup_annotations body ns)
  | Interactive body => exec_body true body (setup_annotations body ns)
  end.

Global Instance interpreter : Interpreter :=
  {| code_type := mod_;
     ast_parse := fun source _ => parse source;
     compile := compile_mod;
     exec := exec_mod |}.

(** *** The symbol table of a module of the fragment *)

(** The flags [symtable] collects for a name: [USE], [DEF_LOCAL],
    [DEF_IMPORT]. *)
Record flags := mkFlags { use : bool; def_local : bool; def_import : bool }.

Definition join_flags (a b : flags) : flags :=
  mkFlags (use a || use b) (def_local a || def_local b)
          (def_import a || def_import b).

Fixpoint add_def (id : string) (f : flags) (table : list (string * flags))
  : list (string * flags) :=
  match table with
  | [] => [(id, f)]
  | (id', f') :: table' =>
      if String.eqb id id' then (id', join_flags f' f) :: table'
      else (id', f') :: add_def id f table'
  end.

Fixpoint visit_expr (e : expr) (table : list (string * flags))
  : list (string * flags) :=
  match e with
  | Name id Load => add_def id (mkFlags true false false) table
  | Name id _ => add_def id (mkFlags false true false) table
  | UnaryOp _ e1 => visit_expr e1 table
  | BinOp l _ r => visit_expr r (visit_expr l table)
  | _ => table
  end.

Definition visit_stmt (table : list (string * flags)) (s : stmt)
  : list (string * flags) :=
  match s with
  | Assign targets e =>
      visit_expr e (fold_left (fun t x => visit_expr x t) targets table)
  | AugAssign target _ e => visit_expr e (visit_expr target table)
  | AnnAssign target ann v =>
      let table :=
        match target with
        | Name id _ => add_def id (mkFlags false true false) table
        | _ => visit_expr target table
        end in
      let table := visit_expr ann table in
      match v with
      | Some e => visit_expr e table
      | None => table
      end
  | Expr e => visit_expr e table
  | Import names =>
      fold_left (fun t m => add_def m (mkFlags false false true) t) names table
  | _ => table
  end.

(** At module scope a bound name is local, any other one an implicit
    global. *)
Definition symbol_of (entry : string * flags) : Symbol :=
  let '(id, f) := entry in
  let bound := def_local f || def_import f in
  mkSymbol id (use f) (def_import f) (negb bound) bound (def_local f) false.

Definition symtable_of (body : list stmt) : SymbolTable :=
  Table "top" (map symbol_of (fold_left visit_stmt body [])) [].

Global Instance analysis : Analysis :=
  {| symtable := fun source =>
       bind_raises (parse source) (fun body => inr (symtable_of body));
     frozenset := distinct [];
     frozenset_members := fun l => Permutation_refl _ |}.

(** *** A renderer and a process to run in *)

Definition plain_tb : TB :=
  {| structured_traceback := fun e => inr ["Traceback"; exc_str e];
     stb2text := fun stb => inr (String.concat newline stb) |}.

Definition registry : BuiltInManager := {| contains := fun _ => false |}.

Definition executor : Executor := mkExecutor 0 0 plain_tb plain_tb registry.

Definition fresh (ns : gmap string value) : Process :=
  mkProcess (Console 1) (Console 2) (Foreign_hook 0) 0 [] [] ns.

End MiniPy.

(** ** Vocabulary of the statements *)

(** What [showtraceback] prints for an exception: the rendered text when
    the renderers return, otherwise what they raised. *)
Definition render (self : Executor) (e : pyexc) : raises string :=
  bind_raises (structured_traceback (InteractiveTB self) e) (fun stb =>
  if issubclass (exc_type e) SyntaxError then
    bind_raises (structured_traceback (SyntaxTB self) e) (fun stb =>
    stb2text (InteractiveTB self) stb)
  else stb2text (InteractiveTB self) stb).

(** User code that leaves the [sys] singletons alone. *)
Definition quiet (effs : list effect) : bool :=
  forallb (fun ev => match ev with
                     | Write _ _ | Display _ => true
                     | _ => false
                     end) effs.

(** The text a run writes to one of the standard streams. *)
Fixpoint written (fd : std_fd) (effs : list effect) : string :=
  match effs with
  | [] => ""
  | Write fd' text :: effs' =>
      match fd, fd' with
      | StdOut, StdOut | StdErr, StdErr => text +:+ written fd effs'
      | _, _ => written fd effs'
      end
  | _ :: effs' => written fd effs'
  end.

(** What a call of its [displayhook] leaves in a result object. *)
Definition record_display (v : value) (r : ExecutionResult) : ExecutionResult :=
  let r := set_output v r in
  if bool_decide (output r ≠ VNone) then set_has_output true r else r.

Fixpoint shown (effs : list effect) (r : ExecutionResult) : ExecutionResult :=
  match effs with
  | [] => r
  | Display v :: effs' => shown effs' (record_display v r)
  | _ :: effs' => shown effs' r
  end.

(** Two result objects that differ at most in what a display hook writes. *)
Definition same_but_output (a b : ExecutionResult) : Prop :=
  stdout a = stdout b ∧ stderr a = stderr b ∧ target_id a = target_id b
  ∧ has_exception a = has_exception b ∧ exception a = exception b.

Definition results_frame (p p' : Process) : Prop :=
  Forall2 same_but_output (results p) (results p').

(** The process as the body of a Capture Scope finds it: a fresh result
    object, two fresh buffers installed as the standard streams and
    recorded in the result, and the bound display hook. *)
Definition captured (target : option string) (p : Process) : Process :=
  let n := length (buffers p) in
  mkProcess (StringIO n) (StringIO (S n))
            (Bound_displayhook (length (results p))) (sys_excepthook p)
            (buffers p ++ [""; ""])
            (results p ++ [mkResult (Some (StringIO n)) (Some (StringIO (S n)))
                                    false VNone target false None])
            (global_ns p).

(** The process [p] with the streams and the display hook of [p0]. *)
Definition released (p0 p : Process) : Process :=
  mkProcess (sys_stdout p0) (sys_stderr p0) (sys_displayhook p0)
            (sys_excepthook p) (buffers p) (results p) (global_ns p).

(** The symbols of a scope tree in the order the traversal meets them: a
    scope's own symbols, then its children, depth first. *)
Fixpoint all_symbols (st : SymbolTable) : list Symbol :=
  match st with
  | Table _ syms children => syms ++ flat_map all_symbols children
  end.

Definition imported_names (syms : list Symbol) : list string :=
  map get_name (List.filter is_imported syms).

(** The input rule in the words of the specification: [sym], met after the
    symbols [seen], is an input when it is a global reference, is not in the
    registry, and is not among the names imported so far, itself included. *)
Definition is_input (ns_manager : BuiltInManager) (seen : list Symbol)
    (sym : Symbol) : bool :=
  is_global sym && negb (contains ns_manager (get_name sym))
  && negb (bool_decide (get_name sym ∈ imported_names (seen ++ [sym]))).

Fixpoint inputs_in_order (ns_manager : BuiltInManager) (seen todo : list Symbol)
  : list SymbolWrapper :=
  match todo with
  | [] => []
  | sym :: todo' =>
      (if is_input ns_manager seen sym then [Wrap sym] else [])
      ++ inputs_in_order ns_manager (seen ++ [sym]) todo'
  end.

(** The scope tree of the two-line snippet [def f(): return x] / [x]: the
    module binds [f] and reads the global [x]; the scope of [f] reads the
    global [x] again. *)
Definition nested_reference : SymbolTable :=
  Table "top"
    [mkSymbol "f" false false false true true true;
     mkSymbol "x" true false true false false false]
    [Table "f" [mkSymbol "x" true false true false false false] []].

(** Awaitables that touch nothing: one resolving to [v], one raising [e]. *)
Definition resolvesTo (v : value) : coroutine :=
  fun ns => mkRun [] ns (inr v).
Definition raising (e : pyexc) : coroutine :=
  fun ns => mkRun [] ns (inl e).

(** The result object a Capture Scope starts from. *)
Definition fresh_result (target : option string) (p : Process)
  : ExecutionResult :=
  mkResult (Some (StringIO (length (buffers p))))
           (Some (StringIO (S (length (buffers p)))))
           false VNone target false None.

(** The process a quiet run leaves behind when the standard streams are
    the buffers at [a] and [b] and the display hook is bound to the result
    at [r]: the texts are appended, the displayed values recorded. *)
Definition after_quiet (effs : list effect) (a b r : nat) (q : Process)
  : Process :=
  set_results (alter (shown effs) r (results q))
    (set_buffers
       (alter (fun old => old +:+ written StdOut effs) a
          (alter (fun old => old +:+ written StdErr effs) b (buffers q))) q).

(** [run_coroutine] at the point where it awaits, and once the awaited
    computation has run. *)
Definition awaiting (name : string) (p : Process) : Process :=
  set_results
    (alter (set_has_exception true) (length (results p))
       (results (captured (Some name) p)))
    (captured (Some name) p).

Definition awaited (co : coroutine) (name : string) (p : Process) : Process :=
  set_global_ns (ns_after (co (global_ns p)))
    (perform_all (effects (co (global_ns p))) (awaiting name p)).2.

(** The process after [_run_code] has executed [code_obj], before any
    failure is rendered: its effects have been performed with the
    executor's exception hook installed, the namespace is the one it left,
    and the previous exception hook is back. *)
Definition ran `{Interpreter} (self : Executor) (code_obj : code_type)
    (q : Process) : Process :=
  set_sys_excepthook (sys_excepthook q)
    (set_global_ns (ns_after (exec code_obj (global_ns q)))
       (perform_all (effects (exec code_obj (global_ns q)))
          (set_sys_excepthook (excepthook self) q)).2).

(** The set the traversal carries holds the names imported so far. *)
Definition tracks (imports : gset string) (seen : list Symbol) : Prop :=
  ∀ n, n ∈ imports ↔ n ∈ imported_names seen.

(** The top-level symbols that are assigned or imported, and how many of a
    list of symbols are imports. *)
Definition collected (st : SymbolTable) : list Symbol :=
  List.filter (fun sym => is_assigned sym || is_imported sym) (get_symbols st).

Definition imported_count (syms : list Symbol) : nat :=
  length (List.filter is_imported syms).

Definition input_names (co : CodeObject) : list string :=
  map wrapper_name (input_vars co).

Definition output_names (co : CodeObject) : list string :=
  map wrapper_name (output_vars co).

(** Two sequences of names with the same members. *)
Definition same_names (l1 l2 : list string) : Prop := ∀ n, n ∈ l1 ↔ n ∈ l2.

(** Two processes with the same [sys.excepthook]. *)
Definition same_excepthook (p p' : Process) : Prop :=
  sys_excepthook p' = sys_excepthook p.

(** A coroutine that rebinds [sys.excepthook] and resolves. *)
Definition rebinding_excepthook (h : nat) (v : value) : coroutine :=
  fun ns => mkRun [SetExcepthook h] ns (inr v).

(** A renderer that cannot render, and an executor that has it. *)
Definition failing_tb : TB :=
  {| structured_traceback := fun _ => inl (PyExc ValueError "no frames");
     stb2text := fun stb => inr (String.concat newline stb) |}.

Definition failing_executor : Executor :=
  mkExecutor 0 0 failing_tb failing_tb MiniPy.registry.

(** The first [n] result objects are as they were, up to what a display
    hook writes, and no result object was added or dropped. *)
Definition prefix_frame (n : nat) (p p' : Process) : Prop :=
  length (results p') = length (results p)
  ∧ Forall2 same_but_output (take n (results p)) (take n (results p')).

(** The output symbols that are not imports. *)
Definition definitions (outs : list SymbolWrapper) : list SymbolWrapper :=
  List.filter (fun w => negb (is_imported (_symbol w))) outs.

(** A registry that holds one name. *)
Definition registry_of (name : string) : BuiltInManager :=
  {| contains := String.eqb name |}.

(** The digits [hexdigest] writes. *)
Definition is_hex_digit (c : ascii) : bool :=
  bool_decide (c ∈ list_ascii_of_string "0123456789abcdef").

(** A name without a closing bracket, as every identifier is. *)
Definition bracket_free (name : string) : Prop :=
  "]"%char ∉ list_ascii_of_string name.

(** The seven control characters of the table. *)
Definition control_characters : list ascii :=
  ["007"; "008"; "009"; "010"; "011"; "012"; "013"]%char.

Definition is_control (c : ascii) : bool :=
  bool_decide (c ∈ control_characters).


(** In the words of the specification: a single-target assignment, plain,
    augmented or annotated, whose target is the bare identifier [N]. *)
Inductive single_target_assignment : stmt → string → Prop :=
| plain_assignment (N : string) (ctx : expr_context) (v : expr) :
    single_target_assignment (Assign [Name N ctx] v) N
| augmented_assignment (N : string) (ctx : expr_context) (op : operator)
    (v : expr) :
    single_target_assignment (AugAssign (Name N ctx) op v) N
| annotated_assignment (N : string) (ctx : expr_context) (ann : expr)
    (v : option expr) :
    single_target_assignment (AnnAssign (Name N ctx) ann v) N.


(** An interpreter that evaluates a bound name as CPython does: the
    expression statement [N], compiled in mode ['single'] and executed in a
    namespace that binds [N], hands the bound value to [sys.displayhook] and
    does nothing else. *)
Definition displays_bound_names `{Interpreter} : Prop :=
  ∀ (N name : string) (shown_code : code_type) (ns : gmap string value)
    (v : value),
    compile (Interactive [Expr (Name N Load)]) name "single" = inr shown_code →
    ns !! N = Some v →
    exec shown_code ns = mkRun [Display v] ns (inr tt).


(** A computation keeps a relation between the process it starts in and
    the one it leaves, whether it returns or raises. *)
Definition keeps (R : Process → Process → Prop) {A} (m : M A) : Prop :=
  ∀ p, R p (m p).2.

(** * Properties *)

(** ** The monad of statements *)

Lemma bind_run {A B} (m : M A) (k : A → M B) p :
  (m ≫= k) p = match m p with
               | (inr a, p') => k a p'
               | (inl e, p') => (inl e, p')
               end.
Proof. reflexivity. Qed.

Section Frames.
Context (R : Process → Process → Prop) `{!Reflexive R, !Transitive R}.

Lemma keeps_ret {A} (a : A) : keeps R (mret a).
Proof. intros p. simpl. reflexivity. Qed.

Lemma keeps_raise {A} (e : pyexc) : keeps R (@raise A e).
Proof. intros p. simpl. reflexivity. Qed.

Lemma keeps_lift {A} (r : raises A) : keeps R (lift r).
Proof. intros p. simpl. reflexivity. Qed.

Lemma keeps_gets {A} (f : Process → A) : keeps R (gets f).
Proof. intros p. simpl. reflexivity. Qed.

Lemma keeps_modify (f : Process → Process) :
  (∀ p, R p (f p)) → keeps R (modify f).
Proof. intros Hf p. apply Hf. Qed.

Lemma keeps_bind {A B} (m : M A) (k : A → M B) :
  keeps R m → (∀ a, keeps R (k a)) → keeps R (m ≫= k).
Proof.
  intros Hm Hk p. rewrite bind_run. specialize (Hm p).
  destruct (m p) as [[e|a] p1]; simpl in *; [exact Hm|].
  etransitivity; [exact Hm|apply Hk].
Qed.

Lemma keeps_try_except {A} (body : M A) (handler : pyexc → M A) :
  keeps R body → (∀ e, keeps R (handler e)) → keeps R (try_except body handler).
Proof.
  intros Hb Hh p. unfold try_except. specialize (Hb p).
  destruct (body p) as [[e|a] p1]; simpl in *; [|exact Hb].
  etransitivity; [exact Hb|apply Hh].
Qed.

Lemma keeps_try_finally {A} (body : M A) (final : M unit) :
  keeps R body → keeps R final → keeps R (try_finally body final).
Proof.
  intros Hb Hf p. unfold try_finally. specialize (Hb p).
  destruct (body p) as [r p1]; simpl in *. specialize (Hf p1).
  destruct (final p1) as [[e|[]] p2]; simpl in *; etransitivity; eauto.
Qed.

End Frames.

(** ** Result objects under user code *)

Global Instance same_but_output_refl : Reflexive same_but_output.
Proof. intros r. repeat split. Qed.

Global Instance same_but_output_trans : Transitive same_but_output.
Proof.
  intros a b c (?&?&?&?&?) (?&?&?&?&?). repeat split; congruence.
Qed.

Global Instance results_frame_refl : Reflexive results_frame.
Proof. intros p. unfold results_frame. reflexivity. Qed.

Global Instance results_frame_trans : Transitive results_frame.
Proof.
  intros p q s Hpq Hqs. unfold results_frame in *.
  eapply Forall2_trans; [|exact Hpq|exact Hqs].
  intros a b c. apply same_but_output_trans.
Qed.

Lemma alter_frame (f : ExecutionResult → ExecutionResult) (i : nat)
    (l : list ExecutionResult) :
  (∀ x, same_but_output x (f x)) → Forall2 same_but_output l (alter f i l).
Proof.
  intros Hf. revert i. induction l as [|x l IH]; intros i; [constructor|].
  destruct i as [|i]; simpl; constructor;
    first [apply Hf | apply IH | reflexivity].
Qed.

Lemma displayhook_frame (self : nat) (v : value) :
  keeps results_frame (displayhook self v).
Proof.
  intros p. unfold displayhook, setattr, results_frame. simpl.
  etransitivity; apply alter_frame; intros x.
  - repeat split.
  - case_bool_decide; repeat split.
Qed.

Lemma write_frame (f : stream) (text : string) : keeps results_frame (write f text).
Proof.
  intros p. unfold write, results_frame. destruct f; simpl; reflexivity.
Qed.

Lemma print_frame (text : string) (fd : std_fd) :
  keeps results_frame (print text fd).
Proof.
  apply keeps_bind; [apply _|apply keeps_gets; apply _|intros a; apply write_frame].
Qed.

Lemma perform_frame (ev : effect) : keeps results_frame (perform ev).
Proof.
  destruct ev as [fd text|v|[] f|h|h]; simpl.
  - apply keeps_bind; [apply _|apply keeps_gets; apply _|intros; apply write_frame].
  - intros p. unfold call_displayhook. rewrite bind_run. simpl.
    destruct (sys_displayhook p); try reflexivity. apply displayhook_frame.
  - intros p; unfold results_frame; reflexivity.
  - intros p; unfold results_frame; reflexivity.
  - intros p; unfold results_frame; reflexivity.
  - intros p; unfold results_frame; reflexivity.
Qed.

Lemma perform_all_frame (evs : list effect) :
  keeps results_frame (perform_all evs).
Proof.
  induction evs as [|ev evs IH]; simpl.
  - apply keeps_ret; apply _.
  - apply keeps_bind; [apply _|apply perform_frame|intros; exact IH].
Qed.

Lemma perform_all_returns (evs : list effect) (p : Process) :
  (perform_all evs p).1 = inr tt.
Proof.
  revert p. induction evs as [|ev evs IH]; intros p; simpl; [reflexivity|].
  rewrite bind_run.
  assert (Hev : ∃ p1, perform ev p = (inr tt, p1)).
  { destruct ev as [fd text|v|[] f|h|h]; simpl; try (eexists; reflexivity).
    unfold call_displayhook. rewrite bind_run. simpl.
    destruct (sys_displayhook p); eexists; reflexivity. }
  destruct Hev as [p1 ->]. apply IH.
Qed.

(** ** Rendering a failure *)

Lemma print_run (text : string) (fd : std_fd) (p : Process) :
  print text fd p = (inr tt, (write (std fd p) (text +:+ newline) p).2).
Proof. reflexivity. Qed.

Lemma showtraceback_render (self : Executor) (e : pyexc) (p : Process) :
  showtraceback self e p =
  match render self e with
  | inr text => print text StdErr p
  | inl e' => print (exc_str e') StdOut p
  end.
Proof.
  unfold showtraceback, render, try_except.
  rewrite bind_run. unfold lift at 1.
  destruct (structured_traceback (InteractiveTB self) e) as [e1|stb]; simpl;
    [reflexivity|].
  destruct (issubclass (exc_type e) SyntaxError).
  - rewrite bind_run. unfold lift at 1.
    destruct (structured_traceback (SyntaxTB self) e) as [e2|stb2]; simpl;
      [reflexivity|].
    rewrite bind_run. unfold lift at 1.
    destruct (stb2text (InteractiveTB self) stb2); reflexivity.
  - rewrite bind_run. unfold lift at 1.
    destruct (stb2text (InteractiveTB self) stb); reflexivity.
Qed.

Lemma showtraceback_returns (self : Executor) (e : pyexc) (p : Process) :
  (showtraceback self e p).1 = inr tt.
Proof. rewrite showtraceback_render. destruct (render self e); reflexivity. Qed.

Lemma showtraceback_frame (self : Executor) (e : pyexc) :
  keeps results_frame (showtraceback self e).
Proof.
  intros p. rewrite showtraceback_render.
  destruct (render self e); apply print_frame.
Qed.

Lemma showtraceback_ns (self : Executor) (e : pyexc) (p : Process) :
  global_ns (showtraceback self e p).2 = global_ns p.
Proof.
  rewrite showtraceback_render.
  destruct (render self e); rewrite print_run; simpl;
    unfold write; simpl; match goal with |- context [match ?s with _ => _ end] => destruct s end; reflexivity.
Qed.

(** ** Running user code *)

Lemma play_run {A} (r : run A) (p : Process) :
  play r p = (outcome r, set_global_ns (ns_after r) (perform_all (effects r) p).2).
Proof.
  unfold play. rewrite bind_run.
  pose proof (perform_all_returns (effects r) p) as Hr.
  destruct (perform_all (effects r) p) as [o p1]. simpl in Hr. subst o.
  reflexivity.
Qed.

Lemma play_frame {A} (r : run A) : keeps results_frame (play r).
Proof.
  intros p. rewrite play_run. simpl.
  pose proof (perform_all_frame (effects r) p) as Hf.
  unfold results_frame in *. exact Hf.
Qed.

Section RunCode.
Context `{Interpreter}.

Lemma _run_code_run (self : Executor) (code_obj : code_type) (p : Process) :
  _run_code self code_obj p =
  let r := exec code_obj (global_ns p) in
  let p1 := set_sys_excepthook (sys_excepthook p)
              (set_global_ns (ns_after r)
                 (perform_all (effects r)
                    (set_sys_excepthook (excepthook self) p)).2) in
  match outcome r with
  | inr _ => (inr false, p1)
  | inl e => (inr true, (showtraceback self e p1).2)
  end.
Proof.
  unfold _run_code, try_except, try_finally.
  rewrite bind_run. cbn [gets]. rewrite bind_run. cbn [modify].
  rewrite !bind_run. cbn [gets]. rewrite play_run.
  cbn [modify global_ns set_sys_excepthook sys_excepthook].
  destruct (outcome (exec code_obj (global_ns p))) as [e|[]]; [|reflexivity].
  rewrite bind_run.
  match goal with |- context [showtraceback self e ?q] =>
    pose proof (showtraceback_returns self e q) as Hr;
    destruct (showtraceback self e q) as [o p2] end.
  simpl in Hr. subst o. reflexivity.
Qed.

Lemma _run_code_returns (self : Executor) (code_obj : code_type) (p : Process) :
  ∃ failed, (_run_code self code_obj p).1 = inr failed.
Proof.
  rewrite _run_code_run. simpl.
  destruct (outcome (exec code_obj (global_ns p))); eexists; reflexivity.
Qed.

Lemma _run_code_frame (self : Executor) (code_obj : code_type) :
  keeps results_frame (_run_code self code_obj).
Proof.
  intros p. rewrite _run_code_run. simpl.
  assert (Hp : results_frame p
            (set_sys_excepthook (sys_excepthook p)
              (set_global_ns (ns_after (exec code_obj (global_ns p)))
                 (perform_all (effects (exec code_obj (global_ns p)))
                    (set_sys_excepthook (excepthook self) p)).2))).
  { pose proof (perform_all_frame (effects (exec code_obj (global_ns p)))
                  (set_sys_excepthook (excepthook self) p)) as Hf.
    unfold results_frame in *. exact Hf. }
  destruct (outcome (exec code_obj (global_ns p))); simpl; [|exact Hp].
  etransitivity; [exact Hp|apply showtraceback_frame].
Qed.

Lemma run_interactive_frame (self : Executor) (name : string)
    (nodes : list stmt) :
  keeps results_frame (run_interactive self name nodes).
Proof.
  induction nodes as [|node nodes IH]; simpl.
  - apply keeps_ret; apply _.
  - apply keeps_bind; [apply _|apply keeps_lift; apply _|intros code].
    apply keeps_bind; [apply _|apply _run_code_frame|intros [|]].
    + apply keeps_ret; apply _.
    + exact IH.
Qed.

Lemma _run_ast_nodes_frame (self : Executor) (nodelist : list stmt)
    (name : string) :
  keeps results_frame (_run_ast_nodes self nodelist name).
Proof.
  unfold _run_ast_nodes. destruct nodelist as [|node nodelist].
  - apply keeps_ret; apply _.
  - destruct (extend_nodes (node :: nodelist)) as [nodes output_name].
    destruct (split_nodes nodes) as [to_run_exec to_run_interactive].
    apply keeps_try_except; [apply _| |intros; apply keeps_ret; apply _].
    apply keeps_bind; [apply _|apply keeps_lift; apply _|intros code].
    apply keeps_bind; [apply _|apply _run_code_frame|intros [|]].
    + apply keeps_ret; apply _.
    + apply keeps_bind; [apply _|apply run_interactive_frame|intros [|]];
        apply keeps_ret; apply _.
Qed.

(** Whatever the statements do, [_run_ast_nodes] returns: with the output
    name [extend_nodes] finds, and for an empty list with the failure flag. *)
Lemma _run_ast_nodes_returns (self : Executor) (nodelist : list stmt)
    (name : string) (p : Process) :
  ∃ failed, (_run_ast_nodes self nodelist name p).1
            = inr (failed, (extend_nodes nodelist).2).
Proof.
  unfold _run_ast_nodes. destruct nodelist as [|node nodelist].
  - exists true. reflexivity.
  - destruct (extend_nodes (node :: nodelist)) as [nodes output_name].
    destruct (split_nodes nodes) as [to_run_exec to_run_interactive].
    unfold try_except. simpl.
    match goal with |- context [match ?m p with _ => _ end] =>
      destruct (m p) as [[e|[failed out]] p1] eqn:Hm end; simpl.
    + exists true. reflexivity.
    + exists failed. f_equal. f_equal.
      revert Hm. rewrite bind_run. unfold lift at 1.
      destruct (compile _ _ _) as [e|code]; [discriminate|].
      rewrite bind_run.
      destruct (_run_code self code p) as [[e|[|]] p2]; try discriminate.
      * intros Hm. inversion Hm. reflexivity.
      * rewrite bind_run.
        destruct (run_interactive self name to_run_interactive p2)
          as [[e|[|]] p3]; intros Hm; inversion Hm; reflexivity.
Qed.

End RunCode.

(** ** Capture Scope *)

Lemma alter_last {A} (f : A → A) (l : list A) (x : A) :
  alter f (length l) (l ++ [x]) = l ++ [f x].
Proof.
  induction l as [|y l IH]; simpl; [reflexivity|].
  f_equal. exact IH.
Qed.

(** Entering both managers around [body] runs it in [captured]; leaving
    them, however [body] ended, puts the streams and the display hook of
    the process back. *)
Lemma capture_scope {A} (target : option string) (body : M A) (p : Process) :
  let r := length (results p) in
  with_ (CapturedIOCtx__init__ (capture_io r) true true)
    (with_ (CapturedDisplayCtx__init__ (Bound_displayhook r)) body)
    (set_results
       (results p ++ [mkResult None None false VNone target false None]) p)
  = ((body (captured target p)).1, released p (body (captured target p)).2).
Proof.
  intros r. unfold with_.
  cbv [__enter__ __exit__ CapturedIOCtx_manager CapturedDisplayCtx_manager
       CapturedIOCtx__enter__ CapturedIOCtx__init__
       CapturedDisplayCtx__enter__ CapturedDisplayCtx__exit__
       CapturedIOCtx__exit__ CapturedDisplayCtx__init__
       mbind M_bind mret M_ret gets modify try_finally StringIO__init__
       capture_io setattr capture_stdout capture_stderr container_func
       io_sys_stdout io_sys_stderr capture_func dc_sys_displayhook].
  simpl. subst r. rewrite !alter_last. simpl.
  rewrite length_app. simpl. rewrite Nat.add_1_r. rewrite <- app_assoc. simpl.
  match goal with |- context [body ?q] =>
    replace q with (captured target p) by reflexivity end.
  destruct (body (captured target p)) as [o p2]. reflexivity.
Qed.

Section Calls.
Context `{Interpreter}.

(** [run_cell], with the Capture Scope resolved. *)
Lemma run_cell_run (self : Executor) (code name : string) (p : Process) :
  let r := length (results p) in
  let body :=
    code_ast ← lift (ast_parse code name);
    '(run_failed, output_name) ← _run_ast_nodes self code_ast name;
    setattr r (set_has_exception run_failed);;
    setattr r (set_target_id output_name) in
  run_cell self code name p =
  (match (body (captured None p)).1 with
   | inl e => inl e
   | inr _ => inr r
   end, released p (body (captured None p)).2).
Proof.
  intros r body. unfold run_cell. rewrite bind_run.
  cbn [ExecutionResult__init__]. rewrite bind_run.
  rewrite (capture_scope None). fold r. fold body.
  destruct (body (captured None p)) as [[e|[]] p2]; reflexivity.
Qed.

Lemma run_cell_parse_error (self : Executor) (code name : string)
    (p : Process) (e : pyexc) :
  ast_parse code name = inl e →
  run_cell self code name p = (inl e, released p (captured None p)).
Proof.
  intros Hparse. rewrite run_cell_run. cbv zeta.
  rewrite bind_run. unfold lift. cbv beta. rewrite Hparse. reflexivity.
Qed.

Lemma frame_lookup (p p' : Process) (i : nat) (a : ExecutionResult) :
  results_frame p p' → results p !! i = Some a →
  ∃ b, results p' !! i = Some b ∧ same_but_output a b.
Proof. intros Hf Ha. exact (Forall2_lookup_l _ _ _ _ _ Hf Ha). Qed.

Lemma captured_result (target : option string) (p : Process) :
  results (captured target p) !! length (results p)
  = Some (fresh_result target p).
Proof.
  unfold captured. cbn [results].
  rewrite lookup_app_r by reflexivity. rewrite Nat.sub_diag. reflexivity.
Qed.

(** A parsed cell: [run_cell] returns the result object, with the flag and
    the name [_run_ast_nodes] gave; the other fields are those of the fresh
    object, up to what display hooks wrote. *)
Lemma run_cell_parsed (self : Executor) (code name : string) (p : Process)
    (nodes : list stmt) :
  ast_parse code name = inr nodes →
  let r := length (results p) in
  let q := (_run_ast_nodes self nodes name (captured None p)).2 in
  ∃ failed x,
    (_run_ast_nodes self nodes name (captured None p)).1
      = inr (failed, (extend_nodes nodes).2)
    ∧ results q !! r = Some x
    ∧ same_but_output (fresh_result None p) x
    ∧ run_cell self code name p
      = (inr r,
         released p
           (set_results
              (alter (set_target_id (extend_nodes nodes).2) r
                 (alter (set_has_exception failed) r (results q))) q)).
Proof.
  intros Hparse r q.
  destruct (_run_ast_nodes_returns self nodes name (captured None p))
    as [failed Hret].
  destruct (frame_lookup _ _ _ _
              (_run_ast_nodes_frame self nodes name (captured None p))
              (captured_result None p)) as (x & Hx & Hsame).
  exists failed, x.
  split; [exact Hret|]. split; [exact Hx|]. split; [exact Hsame|].
  rewrite run_cell_run. cbv zeta.
  rewrite bind_run. unfold lift. cbv beta. rewrite Hparse.
  rewrite bind_run. fold r. subst q.
  destruct (_run_ast_nodes self nodes name (captured None p)) as [o q].
  simpl in Hret. subst o. reflexivity.
Qed.

Lemma lookup_alter_alter (f g : ExecutionResult → ExecutionResult)
    (l : list ExecutionResult) (i : nat) (x : ExecutionResult) :
  l !! i = Some x → alter f i (alter g i l) !! i = Some (f (g x)).
Proof.
  intros Hx. rewrite !list_lookup_alter_eq, Hx. reflexivity.
Qed.

(** [run_coroutine], by what the awaited computation does. *)
Section Coroutine.
Context (self : Executor) (co : coroutine) (name : string)
        (nohandle : list pyclass) (p : Process).

Let r := length (results p).
Let q1 := awaiting name p.
Let q := awaited co name p.

Lemma run_coroutine_run :
  let body :=
    setattr r (set_has_exception true);;
    awaited ← try_except
      (v ← await co; setattr r (set_output v);; mret true)
      (fun e => if isinstance e nohandle then raise e
                else showtraceback self e;; mret false);
    if awaited : bool then
      setattr r (set_has_exception false);;
      x ← gets (fun p => results p !! r);
      match x with
      | Some {| target_id := Some name; output := v |} =>
          update_ns self [(name, v)]
      | _ => mret tt
      end
    else mret tt in
  run_coroutine self co name nohandle p =
  (match (body (captured (Some name) p)).1 with
   | inl e => inl e
   | inr _ => inr r
   end, released p (body (captured (Some name) p)).2).
Proof.
  intros body. unfold run_coroutine. rewrite bind_run.
  cbn [ExecutionResult__init__]. rewrite bind_run.
  unfold setattr at 1. cbn [modify results set_results]. rewrite alter_last.
  cbn [set_target_id stdout stderr has_output output has_exception exception].
  rewrite bind_run.
  match goal with |- context [with_ _ _ ?s] =>
    replace s with (set_results (results p ++
      [mkResult None None false VNone (Some name) false None]) p)
      by reflexivity end.
  rewrite (capture_scope (Some name)). fold r. fold body.
  destruct (body (captured (Some name) p)) as [[e|[]] p2]; reflexivity.
Qed.

Lemma q_result :
  ∃ x, results q !! r = Some x ∧ target_id x = Some name
       ∧ has_exception x = true ∧ exception x = None
       ∧ stdout x = Some (StringIO (length (buffers p)))
       ∧ stderr x = Some (StringIO (S (length (buffers p)))).
Proof.
  assert (H1 : results q1 !! r
               = Some (set_has_exception true (fresh_result (Some name) p))).
  { subst q1 r. unfold awaiting. cbn [results set_results].
    rewrite list_lookup_alter_eq.
    rewrite (captured_result (Some name) p). reflexivity. }
  destruct (frame_lookup q1 q r _
              (perform_all_frame (effects (co (global_ns p))) q1) H1)
    as (x & Hx & Hs1 & Hs2 & Ht & Hh & He).
  exists x. simpl in *. repeat split; congruence.
Qed.

Lemma await_run :
  await co q1 = (outcome (co (global_ns p)), q).
Proof.
  unfold await. rewrite bind_run. cbn [gets]. rewrite play_run. reflexivity.
Qed.

Lemma run_coroutine_resolved (v : value) :
  outcome (co (global_ns p)) = inr v →
  run_coroutine self co name nohandle p =
  (inr r,
   released p
     (set_global_ns (<[name := v]> (ns_after (co (global_ns p))))
        (set_results (alter (set_has_exception false) r
                        (alter (set_output v) r (results q))) q))).
Proof.
  intros Hv. rewrite run_coroutine_run. cbv zeta.
  rewrite bind_run. unfold setattr at 1 4. cbn [modify].
  change (set_results
            (alter (set_has_exception true) r
               (results (captured (Some name) p)))
            (captured (Some name) p)) with q1.
  rewrite bind_run. unfold try_except. rewrite bind_run.
  rewrite await_run, Hv. rewrite bind_run.
  unfold setattr at 1 3. cbn [modify]. cbn [mret M_ret].
  rewrite bind_run. unfold setattr at 1 2. cbn [modify].
  rewrite bind_run. cbn [gets results set_results].
  destruct q_result as (x & Hx & Ht & _).
  rewrite (lookup_alter_alter _ _ _ _ _ Hx).
  destruct x as [so se ho ov ti he ex]. simpl in Ht. subst ti.
  reflexivity.
Qed.

Lemma run_coroutine_propagated (e : pyexc) :
  outcome (co (global_ns p)) = inl e → isinstance e nohandle = true →
  run_coroutine self co name nohandle p = (inl e, released p q).
Proof.
  intros He Hin. rewrite run_coroutine_run. cbv zeta.
  rewrite bind_run. unfold setattr at 1 4. cbn [modify].
  change (set_results
            (alter (set_has_exception true) r
               (results (captured (Some name) p)))
            (captured (Some name) p)) with q1.
  rewrite bind_run. unfold try_except. rewrite bind_run.
  rewrite await_run, He, Hin. reflexivity.
Qed.

Lemma run_coroutine_failed (e : pyexc) :
  outcome (co (global_ns p)) = inl e → isinstance e nohandle = false →
  run_coroutine self co name nohandle p
  = (inr r, released p (showtraceback self e q).2).
Proof.
  intros He Hin. rewrite run_coroutine_run. cbv zeta.
  rewrite bind_run. unfold setattr at 1 4. cbn [modify].
  change (set_results
            (alter (set_has_exception true) r
               (results (captured (Some name) p)))
            (captured (Some name) p)) with q1.
  rewrite bind_run. unfold try_except. rewrite bind_run.
  rewrite await_run, He, Hin. rewrite bind_run.
  pose proof (showtraceback_returns self e q) as Hr.
  destruct (showtraceback self e q) as [o q2]. simpl in Hr. subst o.
  reflexivity.
Qed.

End Coroutine.
End Calls.

(** ** Quiet user code *)

Lemma append_assoc (s1 s2 s3 : string) :
  (s1 +:+ s2) +:+ s3 = s1 +:+ (s2 +:+ s3).
Proof.
  induction s1 as [|c s1 IH]; [reflexivity|].
  change (String c ((s1 +:+ s2) +:+ s3) = String c (s1 +:+ (s2 +:+ s3))).
  f_equal. exact IH.
Qed.

Lemma append_empty_r (s : string) : s +:+ "" = s.
Proof.
  induction s as [|c s IH]; [reflexivity|].
  change (String c (s +:+ "") = String c s). f_equal. exact IH.
Qed.

Lemma after_quiet_nil (a b r : nat) (q : Process) : after_quiet [] a b r q = q.
Proof.
  unfold after_quiet. simpl.
  rewrite !list_alter_id by (intros; auto using append_empty_r).
  destruct q; reflexivity.
Qed.

Lemma perform_all_quiet (effs : list effect) (a b r : nat) (q : Process) :
  quiet effs = true →
  sys_stdout q = StringIO a → sys_stderr q = StringIO b → a ≠ b →
  sys_displayhook q = Bound_displayhook r →
  perform_all effs q = (inr tt, after_quiet effs a b r q).
Proof.
  revert q. induction effs as [|ev effs IH]; intros q Hq Ha Hb Hab Hr.
  - rewrite after_quiet_nil. reflexivity.
  - simpl in Hq. apply andb_prop in Hq as [Hev Hq].
    cbn [perform_all]. rewrite bind_run.
    destruct ev as [fd text|v|fd f|h|h]; try discriminate; cbn [perform].
    + rewrite bind_run. cbn [gets]. unfold write, modify.
      destruct fd; cbn [std]; rewrite ?Ha, ?Hb.
      * rewrite IH by assumption. f_equal.
        unfold after_quiet.
        cbn [buffers results set_buffers set_results written].
        rewrite (list_alter_alter_ne _ _ _ b a) by congruence.
        rewrite list_alter_alter_eq.
        erewrite (list_alter_ext _ (fun old => old +:+ text +:+ written StdOut effs));
          [reflexivity| |reflexivity].
        intros x _. apply append_assoc.
      * rewrite IH by assumption. f_equal.
        unfold after_quiet.
        cbn [buffers results set_buffers set_results written].
        rewrite list_alter_alter_eq.
        erewrite (list_alter_ext
                    ((fun old => old +:+ written StdErr effs)
                     ∘ (fun old => old +:+ text))
                    (fun old => old +:+ text +:+ written StdErr effs));
          [reflexivity| |reflexivity].
        intros x _. apply append_assoc.
    + unfold call_displayhook. rewrite bind_run. cbn [gets]. rewrite Hr.
      unfold displayhook. rewrite bind_run. unfold setattr, modify.
      rewrite IH by assumption. f_equal.
      unfold after_quiet.
      cbn [buffers results set_buffers set_results written shown].
      rewrite !list_alter_alter_eq.
      erewrite (list_alter_ext _ (fun x => shown effs (record_display v x)));
        [reflexivity| |reflexivity].
      intros x _. reflexivity.
Qed.

(** ** What the calls leave behind *)

Lemma released_streams (p q : Process) :
  sys_stdout (released p q) = sys_stdout p
  ∧ sys_stderr (released p q) = sys_stderr p
  ∧ sys_displayhook (released p q) = sys_displayhook p.
Proof. repeat split. Qed.

Lemma captured_buffers (target : option string) (p : Process) :
  buffers (captured target p) !! length (buffers p) = Some ""
  ∧ buffers (captured target p) !! S (length (buffers p)) = Some "".
Proof.
  unfold captured. cbn [buffers]. split.
  - rewrite lookup_app_r by reflexivity. rewrite Nat.sub_diag. reflexivity.
  - rewrite lookup_app_r by lia.
    replace (S (length (buffers p)) - length (buffers p)) with 1 by lia.
    reflexivity.
Qed.

Section Claims.
Context `{Interpreter}.

(** C10. A source that parses to no statement at all: [run_cell] returns a
    result whose failure flag is set although nothing was executed (the
    namespace is as before and nothing was captured); no exception triple
    and no bound name are recorded. *)
Theorem run_cell_empty_source (self : Executor) (code name : string)
    (p : Process) :
  ast_parse code name = inr [] →
  ∃ p' res,
    run_cell self code name p = (inr (length (results p)), p')
    ∧ results p' !! length (results p) = Some res
    ∧ has_exception res = true
    ∧ exception res = None
    ∧ target_id res = None
    ∧ global_ns p' = global_ns p
    ∧ getvalue p' (stdout res) = ""
    ∧ getvalue p' (stderr res) = "".
Proof.
  intros Hparse.
  destruct (run_cell_parsed self code name p [] Hparse)
    as (failed & x & Hret & Hx & Hsame & Hrun).
  unfold _run_ast_nodes in Hret, Hx, Hrun.
  cbn [mret M_ret fst snd extend_nodes last] in Hret, Hx, Hrun.
  injection Hret as <-.
  rewrite (captured_result None p) in Hx. injection Hx as <-.
  eexists _, _. split; [exact Hrun|].
  cbn [results released set_results].
  split; [apply lookup_alter_alter, (captured_result None p)|].
  destruct (captured_buffers None p) as [Ho He].
  cbn [set_target_id set_has_exception fresh_result stdout stderr has_output
       output target_id has_exception exception getvalue released buffers
       global_ns set_results].
  rewrite Ho, He. repeat split.
Qed.


(** What a returned result object of [run_cell] holds: the flag and the name
    from [_run_ast_nodes], on top of the fresh object and of what display
    hooks wrote. *)
Lemma run_cell_result (self : Executor) (code name : string) (p p' : Process)
    (r : nat) (res : ExecutionResult) :
  run_cell self code name p = (inr r, p') → results p' !! r = Some res →
  r = length (results p)
  ∧ ∃ nodes failed x,
      ast_parse code name = inr nodes
      ∧ same_but_output (fresh_result None p) x
      ∧ res = set_target_id (extend_nodes nodes).2 (set_has_exception failed x).
Proof.
  intros Hrun Hres.
  destruct (ast_parse code name) as [e|nodes] eqn:Hparse.
  - rewrite (run_cell_parse_error self code name p e Hparse) in Hrun.
    discriminate.
  - destruct (run_cell_parsed self code name p nodes Hparse)
      as (failed & x & _ & Hx & Hsame & Hrun').
    rewrite Hrun' in Hrun. injection Hrun as <- <-. split; [reflexivity|].
    exists nodes, failed, x. repeat split; try apply Hsame.
    cbn [results released set_results] in Hres.
    rewrite (lookup_alter_alter _ _ _ _ _ Hx) in Hres. congruence.
Qed.

(** What a returned result object of [run_coroutine] holds. *)
Lemma run_coroutine_result (self : Executor) (co : coroutine) (name : string)
    (nohandle : list pyclass) (p p' : Process) (r : nat)
    (res : ExecutionResult) :
  run_coroutine self co name nohandle p = (inr r, p') →
  results p' !! r = Some res →
  r = length (results p) ∧ target_id res = Some name ∧ exception res = None
  ∧ stdout res = Some (StringIO (length (buffers p)))
  ∧ stderr res = Some (StringIO (S (length (buffers p))))
  ∧ match outcome (co (global_ns p)) with
    | inr v => has_exception res = false ∧ output res = v
    | inl e => has_exception res = true
    end.
Proof.
  intros Hrun Hres.
  destruct (q_result co name p) as (x & Hx & Ht & Hh & He & Hso & Hse).
  destruct (outcome (co (global_ns p))) as [e|v] eqn:Hout.
  - destruct (isinstance e nohandle) eqn:Hin.
    + rewrite (run_coroutine_propagated self co name nohandle p e Hout Hin)
        in Hrun. discriminate.
    + rewrite (run_coroutine_failed self co name nohandle p e Hout Hin)
        in Hrun. injection Hrun as <- <-. split; [reflexivity|].
      cbn [results released] in Hres.
      destruct (frame_lookup _ _ _ _
                  (showtraceback_frame self e (awaited co name p)) Hx)
        as (y & Hy & Hs1 & Hs2 & Ht' & Hh' & He').
      assert (y = res) by congruence. subst y.
      repeat split; congruence.
  - rewrite (run_coroutine_resolved self co name nohandle p v Hout) in Hrun.
    injection Hrun as <- <-. split; [reflexivity|].
    cbn [results released set_results set_global_ns] in Hres.
    rewrite (lookup_alter_alter _ _ _ _ _ Hx) in Hres.
    injection Hres as <-. destruct x; simpl in *. repeat split; congruence.
Qed.

(** C2 (the code falls short of the claim).  No path of the executor ever
    assigns [exception]: every result that [run_cell] or [run_coroutine]
    returns with the failure flag set carries no exception triple, and
    [is_complete] answers [False] for it. *)
Theorem failed_result_is_incomplete (self : Executor) (code name : string)
    (co : coroutine) (nohandle : list pyclass) (p p' : Process) (r : nat)
    (res : ExecutionResult) :
  run_cell self code name p = (inr r, p')
  ∨ run_coroutine self co name nohandle p = (inr r, p') →
  results p' !! r = Some res →
  has_exception res = true →
  exception res = None ∧ is_complete res = false.
Proof.
  intros Hrun Hres Hfailed.
  assert (He : exception res = None).
  { destruct Hrun as [Hrun|Hrun].
    - destruct (run_cell_result self code name p p' r res Hrun Hres)
        as (_ & nodes & failed & x & _ & (_ & _ & _ & _ & Hx) & ->).
      simpl. rewrite <- Hx. reflexivity.
    - apply (run_coroutine_result self co name nohandle p p' r res Hrun Hres). }
  split; [exact He|].
  unfold is_complete. rewrite Hfailed, He. rewrite andb_false_r. reflexivity.
Qed.

(** Leaving the two managers puts the standard streams and the display
    hook back, whatever process they were entered in and however the body
    ended. *)
Lemma with_capture_restores {A} (r : nat) (body : M A) (p : Process) :
  let out := with_ (CapturedIOCtx__init__ (capture_io r) true true)
               (with_ (CapturedDisplayCtx__init__ (Bound_displayhook r)) body)
               p in
  sys_stdout out.2 = sys_stdout p ∧ sys_stderr out.2 = sys_stderr p
  ∧ sys_displayhook out.2 = sys_displayhook p.
Proof.
  unfold with_.
  cbv [__enter__ __exit__ CapturedIOCtx_manager CapturedDisplayCtx_manager
       CapturedIOCtx__enter__ CapturedIOCtx__init__
       CapturedDisplayCtx__enter__ CapturedDisplayCtx__exit__
       CapturedIOCtx__exit__ CapturedDisplayCtx__init__
       mbind M_bind mret M_ret gets modify try_finally StringIO__init__
       capture_io setattr capture_stdout capture_stderr container_func
       io_sys_stdout io_sys_stderr capture_func dc_sys_displayhook].
  simpl.
  match goal with |- context [body ?q] => destruct (body q) as [o p2] end.
  repeat split.
Qed.

(** C9. On every way out of a Capture Scope the previous standard output,
    standard error and display hook are installed again: for the two
    managers around any body, for [run_cell], and for [run_coroutine]
    whether the awaited computation resolves, fails or raises a class of
    the propagate set; in that last case the call raises the same
    exception and the namespace is as the computation left it, so that a
    computation that raises [CancelledError] and binds nothing leaves the
    whole namespace, the bind name included, as it was. *)
Theorem capture_scope_always_restores (self : Executor) (p : Process) :
  (∀ (A : Type) (r : nat) (body : M A),
     let out := with_ (CapturedIOCtx__init__ (capture_io r) true true)
                  (with_ (CapturedDisplayCtx__init__ (Bound_displayhook r))
                         body) p in
     sys_stdout out.2 = sys_stdout p ∧ sys_stderr out.2 = sys_stderr p
     ∧ sys_displayhook out.2 = sys_displayhook p)
  ∧ (∀ code name : string,
       let out := run_cell self code name p in
       sys_stdout out.2 = sys_stdout p ∧ sys_stderr out.2 = sys_stderr p
       ∧ sys_displayhook out.2 = sys_displayhook p)
  ∧ (∀ (co : coroutine) (name : string) (nohandle : list pyclass),
       let out := run_coroutine self co name nohandle p in
       sys_stdout out.2 = sys_stdout p ∧ sys_stderr out.2 = sys_stderr p
       ∧ sys_displayhook out.2 = sys_displayhook p
       ∧ match outcome (co (global_ns p)) with
         | inr v => out.1 = inr (length (results p))
         | inl e =>
             if isinstance e nohandle
             then out.1 = inl e
                  ∧ global_ns out.2 = ns_after (co (global_ns p))
             else out.1 = inr (length (results p))
         end)
  ∧ (∀ (msg name : string),
       let cancelled := PyExc CancelledError msg in
       let out := run_coroutine self (raising cancelled) name
                    [CancelledError] p in
       out.1 = inl cancelled ∧ global_ns out.2 = global_ns p
       ∧ sys_stdout out.2 = sys_stdout p ∧ sys_stderr out.2 = sys_stderr p
       ∧ sys_displayhook out.2 = sys_displayhook p).
Proof.
  split; [intros A r body; apply with_capture_restores|].
  split.
  { intros code name out. subst out. rewrite run_cell_run. repeat split. }
  split.
  { intros co name nohandle out. subst out.
    destruct (outcome (co (global_ns p))) as [e|v] eqn:Hout.
    - destruct (isinstance e nohandle) eqn:Hin.
      + rewrite (run_coroutine_propagated self co name nohandle p e Hout Hin).
        repeat split.
      + rewrite (run_coroutine_failed self co name nohandle p e Hout Hin).
        repeat split.
    - rewrite (run_coroutine_resolved self co name nohandle p v Hout).
      repeat split. }
  intros msg name cancelled out. subst out.
  rewrite (run_coroutine_propagated self (raising cancelled) name
             [CancelledError] p cancelled eq_refl eq_refl).
  repeat split.
Qed.

End Claims.

(** The witness of C10: a source that is only a comment. *)
Lemma run_cell_empty_source_witness :
  ast_parse "# nothing to run" "cell0" = inr []
  ∧ ∃ p' res,
      run_cell MiniPy.executor "# nothing to run" "cell0" (MiniPy.fresh ∅)
      = (inr 0, p')
      ∧ results p' !! 0 = Some res
      ∧ has_exception res = true
      ∧ exception res = None
      ∧ target_id res = None
      ∧ global_ns p' = ∅
      ∧ getvalue p' (stdout res) = ""
      ∧ getvalue p' (stderr res) = "".
Proof.
  split; [reflexivity|].
  apply (run_cell_empty_source MiniPy.executor "# nothing to run" "cell0"
           (MiniPy.fresh ∅)).
  reflexivity.
Defined.

(** The counterexample to C1 as stated: an incomplete expression does not
    parse, and [run_cell] returns no result for it. *)
Lemma run_cell_syntax_error_escapes :
  ast_parse "1 +" "cell" = inl MiniPy.invalid_syntax
  ∧ ¬ ∃ r p',
        run_cell MiniPy.executor "1 +" "cell" (MiniPy.fresh ∅) = (inr r, p').
Proof.
  assert (Hparse : ast_parse "1 +" "cell" = inl MiniPy.invalid_syntax)
    by reflexivity.
  split; [exact Hparse|]. intros (r & p' & Hrun).
  rewrite (run_cell_parse_error MiniPy.executor "1 +" "cell" (MiniPy.fresh ∅)
             MiniPy.invalid_syntax Hparse) in Hrun.
  discriminate.
Qed.

(** The witness of C2: the result of the cell [1/0]. *)
Lemma failed_result_is_incomplete_witness :
  ∃ p' res,
    run_cell MiniPy.executor "1/0" "cell2" (MiniPy.fresh ∅) = (inr 0, p')
    ∧ results p' !! 0 = Some res
    ∧ has_exception res = true
    ∧ exception res = None ∧ is_complete res = false.
Proof.
  eexists _, _.
  split; [vm_compute; reflexivity|].
  split; [vm_compute; reflexivity|].
  split; [reflexivity|].
  eapply (failed_result_is_incomplete MiniPy.executor "1/0" "cell2"
            (resolvesTo VNone) [] (MiniPy.fresh ∅)).
  - left. vm_compute. reflexivity.
  - vm_compute. reflexivity.
  - reflexivity.
Defined.

(** ** What was captured *)

(** The two buffers of a Capture Scope after a quiet run and a text printed
    to the standard error. *)
Lemma captured_texts (l : list string) (out err text : string) :
  let n := length l in
  let bs := alter (fun old => old +:+ text) (S n)
              (alter (fun old => old +:+ out) n
                 (alter (fun old => old +:+ err) (S n) (l ++ [""; ""]))) in
  bs !! n = Some out ∧ bs !! S n = Some (err +:+ text).
Proof.
  intros n bs. subst bs.
  assert (Hn : (l ++ [""; ""]) !! n = Some "").
  { subst n. rewrite lookup_app_r by reflexivity.
    rewrite Nat.sub_diag. reflexivity. }
  assert (HS : (l ++ [""; ""]) !! S n = Some "").
  { subst n. rewrite lookup_app_r by lia.
    replace (S (length l) - length l) with 1 by lia. reflexivity. }
  split.
  - rewrite list_lookup_alter_ne by lia. rewrite list_lookup_alter_eq.
    rewrite list_lookup_alter_ne by lia. rewrite Hn. reflexivity.
  - rewrite list_lookup_alter_eq. rewrite list_lookup_alter_ne by lia.
    rewrite list_lookup_alter_eq. rewrite HS. reflexivity.
Qed.

Lemma print_stderr_run (text : string) (q : Process) (b : nat) :
  sys_stderr q = StringIO b →
  (print text StdErr q).2
  = set_buffers (alter (fun old => old +:+ (text +:+ newline)) b (buffers q)) q.
Proof. intros Hb. rewrite print_run. unfold write. cbn [std]. rewrite Hb. reflexivity. Qed.

Section Display.
Context `{Interpreter}.

Lemma _run_code_ran (self : Executor) (code_obj : code_type) (q : Process) :
  _run_code self code_obj q =
  match outcome (exec code_obj (global_ns q)) with
  | inr _ => (inr false, ran self code_obj q)
  | inl e => (inr true, (showtraceback self e (ran self code_obj q)).2)
  end.
Proof. apply _run_code_run. Qed.

(** A quiet run inside a Capture Scope. *)
Lemma ran_quiet (self : Executor) (code_obj : code_type) (q : Process)
    (a b r : nat) :
  quiet (effects (exec code_obj (global_ns q))) = true →
  sys_stdout q = StringIO a → sys_stderr q = StringIO b → a ≠ b →
  sys_displayhook q = Bound_displayhook r →
  ran self code_obj q
  = set_global_ns (ns_after (exec code_obj (global_ns q)))
      (after_quiet (effects (exec code_obj (global_ns q))) a b r q).
Proof.
  intros Hq Ha Hb Hab Hr. unfold ran.
  rewrite (perform_all_quiet _ a b r) by assumption.
  destruct q; reflexivity.
Qed.

(** The batch raises: the display portion is not run. *)
Lemma _run_ast_nodes_batch_raises (self : Executor) (nodes : list stmt)
    (name : string) (q : Process) (batch : code_type) (e : pyexc) :
  nodes ≠ [] →
  compile (Module_ (split_nodes (extend_nodes nodes).1).1) name "exec"
    = inr batch →
  outcome (exec batch (global_ns q)) = inl e →
  _run_ast_nodes self nodes name q
  = (inr (true, (extend_nodes nodes).2),
     (showtraceback self e (ran self batch q)).2).
Proof.
  intros Hne Hc He. unfold _run_ast_nodes.
  destruct nodes as [|node nodes]; [congruence|].
  destruct (extend_nodes (node :: nodes)) as [all output_name].
  cbn [fst snd] in *.
  destruct (split_nodes all) as [to_run_exec to_run_interactive].
  cbn [fst] in Hc. unfold try_except.
  rewrite bind_run. unfold lift. rewrite Hc.
  rewrite bind_run, _run_code_ran, He. reflexivity.
Qed.

(** The batch returns and the one display node returns. *)
Lemma _run_ast_nodes_displayed (self : Executor) (nodes : list stmt)
    (name : string) (q : Process) (batch shown_code : code_type)
    (node : stmt) :
  nodes ≠ [] →
  compile (Module_ (split_nodes (extend_nodes nodes).1).1) name "exec"
    = inr batch →
  (split_nodes (extend_nodes nodes).1).2 = [node] →
  compile (Interactive [node]) name "single" = inr shown_code →
  outcome (exec batch (global_ns q)) = inr tt →
  outcome (exec shown_code (global_ns (ran self batch q))) = inr tt →
  _run_ast_nodes self nodes name q
  = (inr (false, (extend_nodes nodes).2),
     ran self shown_code (ran self batch q)).
Proof.
  intros Hne Hc Hd Hc2 Ho Ho2. unfold _run_ast_nodes.
  destruct nodes as [|n0 nodes]; [congruence|].
  destruct (extend_nodes (n0 :: nodes)) as [all output_name].
  cbn [fst snd] in *.
  destruct (split_nodes all) as [to_run_exec to_run_interactive].
  cbn [fst snd] in Hc, Hd. subst to_run_interactive. unfold try_except.
  rewrite bind_run. unfold lift at 1. rewrite Hc.
  rewrite bind_run, _run_code_ran, Ho.
  rewrite bind_run. cbn [run_interactive].
  rewrite bind_run. unfold lift at 1. rewrite Hc2.
  rewrite bind_run, _run_code_ran, Ho2. reflexivity.
Qed.

(** A trailing single-target assignment to a name: the synthetic expression
    is appended and becomes the display portion. *)
Lemma extend_nodes_assignment (nodes : list stmt) (asg : stmt) (N : string)
    (ctx : expr_context) :
  last nodes = Some asg → assign_target asg = Some (Name N ctx) →
  extend_nodes nodes = (nodes ++ [Expr (Name N Load)], Some N)
  ∧ split_nodes (nodes ++ [Expr (Name N Load)])
    = (nodes, [Expr (Name N Load)]).
Proof.
  intros Hlast Htarget. split.
  - unfold extend_nodes. rewrite Hlast.
    assert (Ha : is_assign_node asg = true).
    { destruct asg; try discriminate; reflexivity. }
    rewrite Ha, Htarget. reflexivity.
  - unfold split_nodes. rewrite last_snoc. rewrite removelast_last.
    reflexivity.
Qed.


End Display.

(** ** Code units: the inputs *)

Lemma SymbolTable_nested_ind (P : SymbolTable → Prop) :
  (∀ name syms children, Forall P children → P (Table name syms children)) →
  ∀ st, P st.
Proof.
  intros Hstep. fix IH 1. intros [name syms children]. apply Hstep.
  induction children as [|c cs IHcs]; constructor; [apply IH|exact IHcs].
Qed.

Lemma imported_names_app (l1 l2 : list Symbol) :
  imported_names (l1 ++ l2) = imported_names l1 ++ imported_names l2.
Proof. unfold imported_names. rewrite List.filter_app, map_app. reflexivity. Qed.

Lemma inputs_in_order_app (ns_manager : BuiltInManager)
    (seen l1 l2 : list Symbol) :
  inputs_in_order ns_manager seen (l1 ++ l2)
  = inputs_in_order ns_manager seen l1
    ++ inputs_in_order ns_manager (seen ++ l1) l2.
Proof.
  revert seen. induction l1 as [|sym l1 IH]; intros seen; simpl.
  - rewrite app_nil_r. reflexivity.
  - rewrite IH, <- !app_assoc. reflexivity.
Qed.

Lemma visit_symbol_tracks (ns_manager : BuiltInManager) (sym : Symbol)
    (imports : gset string) (seen : list Symbol) :
  tracks imports seen →
  (visit_symbol ns_manager sym imports).1
  = (if is_input ns_manager seen sym then [Wrap sym] else [])
  ∧ tracks (visit_symbol ns_manager sym imports).2 (seen ++ [sym]).
Proof.
  intros Htr. unfold visit_symbol, is_input.
  set (imports' := if is_imported sym then {[get_name sym]} ∪ imports
                   else imports).
  assert (Htr' : tracks imports' (seen ++ [sym])).
  { intros n. subst imports'. rewrite imported_names_app.
    rewrite elem_of_app. unfold imported_names at 2. simpl.
    destruct (is_imported sym); simpl.
    - rewrite elem_of_union, elem_of_singleton, (Htr n).
      rewrite list_elem_of_singleton. tauto.
    - rewrite (Htr n). rewrite elem_of_nil. tauto. }
  assert (Hdec : bool_decide (get_name sym ∈ imports')
                 = bool_decide (get_name sym ∈ imported_names (seen ++ [sym])))
    by (apply bool_decide_ext, Htr').
  rewrite Hdec.
  destruct (is_global sym && negb (contains ns_manager (get_name sym))
            && negb (bool_decide
                       (get_name sym ∈ imported_names (seen ++ [sym]))));
    split; try reflexivity; exact Htr'.
Qed.

Lemma visit_symbols_tracks (ns_manager : BuiltInManager) (syms : list Symbol)
    (imports : gset string) (seen : list Symbol) :
  tracks imports seen →
  (visit_symbols ns_manager syms imports).1
  = inputs_in_order ns_manager seen syms
  ∧ tracks (visit_symbols ns_manager syms imports).2 (seen ++ syms).
Proof.
  revert imports seen. induction syms as [|sym syms IH];
    intros imports seen Htr; simpl.
  - rewrite app_nil_r. split; [reflexivity|exact Htr].
  - destruct (visit_symbol_tracks ns_manager sym imports seen Htr)
      as [Hout Htr1].
    destruct (visit_symbol ns_manager sym imports) as [out1 imports1].
    simpl in Hout, Htr1.
    destruct (IH imports1 (seen ++ [sym]) Htr1) as [Hout2 Htr2].
    destruct (visit_symbols ns_manager syms imports1) as [out2 imports2].
    simpl in *. subst out1 out2. rewrite <- app_assoc in Htr2.
    split; [reflexivity|exact Htr2].
Qed.

(** The generator, with its shared mutable set, yields what the rule of
    the specification selects from the symbols in traversal order. *)
Lemma _find_symbol_tables_tracks (ns_manager : BuiltInManager)
    (st : SymbolTable) :
  ∀ (imports : gset string) (seen : list Symbol),
    tracks imports seen →
    (_find_symbol_tables st imports ns_manager).1
    = inputs_in_order ns_manager seen (all_symbols st)
    ∧ tracks (_find_symbol_tables st imports ns_manager).2
             (seen ++ all_symbols st).
Proof.
  induction st as [name syms children IHc] using SymbolTable_nested_ind.
  intros imports seen Htr. cbn [_find_symbol_tables all_symbols].
  destruct (visit_symbols_tracks ns_manager syms imports seen Htr)
    as [Hout1 Htr1].
  destruct (visit_symbols ns_manager syms imports) as [out1 imports1].
  simpl in Hout1, Htr1. subst out1.
  rewrite inputs_in_order_app.
  set (visit_children := fix visit_children (cs : list SymbolTable)
                             (imports : gset string) :=
         match cs with
         | [] => ([], imports)
         | a :: cs' =>
             let '(o1, imports) := _find_symbol_tables a imports ns_manager in
             let '(o2, imports) := visit_children cs' imports in
             (o1 ++ o2, imports)
         end).
  assert (Hchildren : ∀ imports seen, tracks imports seen →
            (visit_children children imports).1
            = inputs_in_order ns_manager seen (flat_map all_symbols children)
            ∧ tracks (visit_children children imports).2
                     (seen ++ flat_map all_symbols children)).
  { clear Htr Htr1 imports imports1 seen.
    induction IHc as [|c cs Hc _ IHcs]; intros imports seen Htr; simpl.
    - rewrite app_nil_r. split; [reflexivity|exact Htr].
    - destruct (Hc imports seen Htr) as [Ho1 Ht1].
      destruct (_find_symbol_tables c imports ns_manager) as [o1 imports1].
      simpl in Ho1, Ht1.
      destruct (IHcs imports1 (seen ++ all_symbols c) Ht1) as [Ho2 Ht2].
      destruct (visit_children cs imports1) as [o2 imports2].
      simpl in *. subst o1 o2. rewrite inputs_in_order_app.
      rewrite <- app_assoc in Ht2. split; [reflexivity|exact Ht2]. }
  destruct (Hchildren imports1 (seen ++ syms) Htr1) as [Hout2 Htr2].
  destruct (visit_children children imports1) as [out2 imports2].
  simpl in *. subst out2. rewrite <- app_assoc in Htr2.
  split; [reflexivity|exact Htr2].
Qed.

Lemma elem_of_inputs_in_order (ns_manager : BuiltInManager)
    (seen todo : list Symbol) (w : SymbolWrapper) :
  w ∈ inputs_in_order ns_manager seen todo ↔
  ∃ before sym after,
    todo = before ++ sym :: after ∧ w = Wrap sym
    ∧ is_input ns_manager (seen ++ before) sym = true.
Proof.
  revert seen. induction todo as [|s todo IH]; intros seen; simpl.
  - rewrite elem_of_nil. split; [tauto|].
    intros (before & sym & after & Heq & _). destruct before; discriminate.
  - rewrite elem_of_app, IH. split.
    + intros [Hin|(before & sym & after & -> & -> & Hq)].
      * destruct (is_input ns_manager seen s) eqn:Hs;
          [|apply elem_of_nil in Hin; tauto].
        apply list_elem_of_singleton in Hin as ->.
        exists [], s, todo. rewrite app_nil_r. auto.
      * exists (s :: before), sym, after.
        rewrite <- app_assoc in Hq. auto.
    + intros (before & sym & after & Heq & -> & Hq).
      destruct before as [|s' before]; simpl in Heq;
        injection Heq as -> ->.
      * left. rewrite app_nil_r in Hq. rewrite Hq.
        apply list_elem_of_singleton. reflexivity.
      * right. exists before, sym, after.
        rewrite <- app_assoc. auto.
Qed.

Lemma inputs_in_order_sublist (ns_manager : BuiltInManager)
    (seen todo : list Symbol) :
  sublist (inputs_in_order ns_manager seen todo) (map Wrap todo).
Proof.
  revert seen. induction todo as [|s todo IH]; intros seen; simpl.
  - constructor.
  - destruct (is_input ns_manager seen s); simpl.
    + apply sublist_skip, IH.
    + apply sublist_cons, IH.
Qed.

(** ** Code units: the outputs and the identity *)

Lemma num_imports_count (syms : list Symbol) :
  list_sum (map (fun w => if is_imported (_symbol w) then 1 else 0)%nat
                (map Wrap syms))
  = imported_count syms.
Proof.
  unfold imported_count. induction syms as [|s syms IH]; simpl;
    [reflexivity|].
  destruct (is_imported s); simpl; lia.
Qed.

Lemma distinct_names (seen : list string) (l : list SymbolWrapper)
    (n : string) :
  n ∈ map wrapper_name (distinct seen l)
  ↔ n ∈ map wrapper_name l ∧ n ∉ seen.
Proof.
  revert seen. induction l as [|w l IH]; intros seen; simpl.
  - rewrite elem_of_nil. tauto.
  - case_bool_decide as Hw; simpl.
    + rewrite IH, elem_of_cons. split; [tauto|].
      intros [[->|Hin] Hn]; tauto.
    + rewrite !elem_of_cons, IH, elem_of_cons.
      destruct (decide (n = wrapper_name w)) as [->|Hne]; tauto.
Qed.

Lemma distinct_NoDup (seen : list string) (l : list SymbolWrapper) :
  NoDup (map wrapper_name (distinct seen l)).
Proof.
  revert seen. induction l as [|w l IH]; intros seen; simpl.
  - constructor.
  - case_bool_decide as Hw; simpl; [apply IH|].
    constructor; [|apply IH].
    rewrite distinct_names, elem_of_cons. tauto.
Qed.

(** A sequence of names without repetition that has the members of a
    one-element sequence is that sequence. *)
Lemma NoDup_singleton_names (n : string) (l : list string) :
  NoDup l → (∀ m, m ∈ [n] ↔ m ∈ l) → l = [n].
Proof.
  intros Hnd Hsame. destruct l as [|a l].
  - specialize (Hsame n). rewrite elem_of_nil in Hsame.
    exfalso. apply Hsame, list_elem_of_singleton. reflexivity.
  - assert (Ha : a = n).
    { apply list_elem_of_singleton, Hsame. left. }
    subst a. destruct l as [|b l]; [reflexivity|].
    assert (Hb : b = n).
    { apply list_elem_of_singleton, Hsame. right. left. }
    subst b. apply NoDup_cons in Hnd as [Hnotin _].
    exfalso. apply Hnotin. left.
Qed.

Section CodeUnits.
Context `{Analysis}.

Lemma _find_output_variables_run (st : SymbolTable) :
  _find_output_variables st
  = if (1 <? Z.of_nat (length (collected st))
             - Z.of_nat (imported_count (collected st)))%Z
    then inl (PyExc MultipleDefinitionsError "")
    else inr (frozenset (map Wrap (collected st))).
Proof.
  unfold _find_output_variables, collected.
  rewrite num_imports_count, List.length_map. reflexivity.
Qed.

(** What a finished [__init__] has done. *)
Lemma CodeObject__init__returns (code : string) (key : list Z)
    (ns_manager : BuiltInManager) (co : CodeObject) :
  CodeObject__init__ code key ns_manager = inr co →
  ∃ st,
    symtable code = inr st
    ∧ _find_output_variables st = inr (output_vars co)
    ∧ (length key ≤ 64)%nat
    ∧ input_vars co = _find_input_variables st ns_manager
    ∧ display_id co
      = if (0 <? length (output_vars co))%nat
        then String.concat "+" (map str (output_vars co)) +:+ "-"
             +:+ Blake2b.hex
                   (Blake2b.digest 10 key
                      (Blake2b.encode
                         (String.concat "+" (map str (output_vars co)))))
        else Blake2b.hex (Blake2b.digest 10 key (Blake2b.encode code)).
Proof.
  unfold CodeObject__init__. intros Hco.
  destruct (symtable code) as [e|st]; [discriminate|].
  cbn [bind_raises] in Hco.
  destruct (_find_output_variables st) as [e|outs] eqn:Houts; [discriminate|].
  cbn [bind_raises] in Hco. unfold Blake2b.blake2b in Hco.
  destruct (64 <? length key)%nat eqn:Hlen; [discriminate|].
  apply Nat.ltb_ge in Hlen. cbn [bind_raises] in Hco.
  exists st. split; [reflexivity|].
  destruct (0 <? length outs)%nat eqn:Hne; injection Hco as <-;
    cbn [output_vars input_vars display_id]; rewrite Hne;
    (split; [exact Houts|]); (split; [exact Hlen|]);
    split; reflexivity.
Qed.

Lemma outputs_of_frozenset (st : SymbolTable) (outs : list SymbolWrapper) :
  _find_output_variables st = inr outs →
  outs ≡ₚ distinct [] (map Wrap (collected st))
  ∧ NoDup (map wrapper_name outs)
  ∧ ∀ n, n ∈ map wrapper_name outs ↔
         ∃ sym, sym ∈ get_symbols st ∧ get_name sym = n
                ∧ (is_assigned sym || is_imported sym) = true.
Proof.
  rewrite _find_output_variables_run.
  destruct (1 <? _)%Z; [discriminate|]. intros [= <-].
  pose proof (frozenset_members (map Wrap (collected st))) as Hperm.
  split; [exact Hperm|]. split.
  - rewrite Hperm. apply distinct_NoDup.
  - intros n. rewrite Hperm, distinct_names, elem_of_nil.
    unfold collected. rewrite List.map_map. cbn [wrapper_name _symbol].
    rewrite list_elem_of_In, in_map_iff. split.
    + intros [(sym & Hn & Hin) _]. apply filter_In in Hin as [Hin Hq].
      exists sym. rewrite list_elem_of_In. auto.
    + intros (sym & Hin & Hn & Hq). split; [|tauto].
      exists sym. split; [exact Hn|].
      apply filter_In. rewrite <- list_elem_of_In. auto.
Qed.

(** C5 (as amended).  The input list is what the rule selects from the
    symbols met in depth-first order: a symbol is yielded exactly when it
    is a global reference, its name is not in the registry and is not among
    the names imported up to and including it; the list keeps the order of
    the traversal and is not deduplicated, a name appearing once for every
    scope in which it qualifies.  In particular the snippet [y = x + 1],
    with a registry that holds no name, has the inputs [x] and the outputs
    [y]. *)
Theorem inputs_follow_traversal (ns_manager : BuiltInManager) :
  (∀ st : SymbolTable,
     let inputs := _find_input_variables st ns_manager in
     inputs = inputs_in_order ns_manager [] (all_symbols st)
     ∧ (∀ w, w ∈ inputs ↔
          ∃ before sym after,
            all_symbols st = before ++ sym :: after ∧ w = Wrap sym
            ∧ is_input ns_manager before sym = true)
     ∧ sublist inputs (map Wrap (all_symbols st)))
  ∧ (∀ key : list Z, (length key ≤ 64)%nat →
       ∃ co,
         @CodeObject__init__ MiniPy.analysis "y = x + 1" key MiniPy.registry
         = inr co
         ∧ input_names co = ["x"] ∧ output_names co = ["y"]).
Proof.
  split.
  - intros st inputs.
    assert (Heq : inputs = inputs_in_order ns_manager [] (all_symbols st)).
    { subst inputs. unfold _find_input_variables.
      apply (_find_symbol_tables_tracks ns_manager st ∅ []).
      intros n. unfold imported_names. simpl.
      rewrite elem_of_empty, elem_of_nil. tauto. }
    split; [exact Heq|]. rewrite Heq. split.
    + intros w. apply (elem_of_inputs_in_order ns_manager [] (all_symbols st)).
    + apply inputs_in_order_sublist.
  - intros key Hkey. unfold CodeObject__init__.
    change (symtable "y = x + 1") with
      (inr (A := pyexc) (MiniPy.symtable_of
         [Assign [Name "y" Store] (BinOp (Name "x" Load) Add (Num 1))])).
    cbn [bind_raises]. unfold Blake2b.blake2b.
    destruct (64 <? length key)%nat eqn:Hlen;
      [apply Nat.ltb_lt in Hlen; lia|].
    cbn [bind_raises]. eexists. split; [reflexivity|].
    split; reflexivity.
Qed.

(** C4.  Construction collects the symbols of the module scope that are
    assigned or imported.  It raises [MultipleDefinitionsError] exactly when
    the number of collected symbols less the number of imported ones is
    greater than 1, and this before any digest is set up; otherwise, given a
    key the digest accepts, it returns, and the output set of a returned
    code object holds the collected symbols, one of every name.  In
    particular the two-line snippet [a = 1], [b = 2] fails, and the snippet
    [import os], [import sys] succeeds with an output set of size 2. *)
Theorem outputs_are_the_collected_names :
  (∀ (code : string) (st : SymbolTable) (key : list Z)
     (ns_manager : BuiltInManager),
     symtable code = inr st →
     let total := Z.of_nat (length (collected st)) in
     let imports := Z.of_nat (imported_count (collected st)) in
     (CodeObject__init__ code key ns_manager
      = inl (PyExc MultipleDefinitionsError "")
      ↔ (total - imports > 1)%Z)
     ∧ ((total - imports ≤ 1)%Z → (length key ≤ 64)%nat →
        ∃ co, CodeObject__init__ code key ns_manager = inr co)
     ∧ (∀ co, CodeObject__init__ code key ns_manager = inr co →
          output_vars co ≡ₚ distinct [] (map Wrap (collected st))
          ∧ ∀ n, n ∈ output_names co ↔
                 ∃ sym, sym ∈ get_symbols st ∧ get_name sym = n
                        ∧ (is_assigned sym || is_imported sym) = true))
  ∧ (∀ (key : list Z) (ns_manager : BuiltInManager),
       @CodeObject__init__ MiniPy.analysis
         ("a = 1" +:+ newline +:+ "b = 2") key ns_manager
       = inl (PyExc MultipleDefinitionsError ""))
  ∧ (∀ (key : list Z) (ns_manager : BuiltInManager),
       (length key ≤ 64)%nat →
       ∃ co,
         @CodeObject__init__ MiniPy.analysis
           ("import os" +:+ newline +:+ "import sys") key ns_manager
         = inr co
         ∧ output_names co = ["os"; "sys"]
         ∧ length (output_vars co) = 2%nat).
Proof.
  split; [|split].
  - intros code st key ns_manager Hst total imports.
    unfold CodeObject__init__. rewrite Hst. cbn [bind_raises].
    rewrite _find_output_variables_run. fold total imports.
    destruct (1 <? total - imports)%Z eqn:Hex.
    + apply Z.ltb_lt in Hex. cbn [bind_raises].
      split; [split; [lia|reflexivity]|]. split; [lia|].
      intros co Hco. discriminate.
    + apply Z.ltb_ge in Hex. cbn [bind_raises]. unfold Blake2b.blake2b.
      split; [|split].
      * split; [|lia]. intros Hfail. exfalso.
        destruct (64 <? length key)%nat; cbn [bind_raises] in Hfail;
          [discriminate|].
        destruct (0 <? length (frozenset (map Wrap (collected st))))%nat;
          discriminate.
      * intros _ Hkey.
        destruct (64 <? length key)%nat eqn:Hlen;
          [apply Nat.ltb_lt in Hlen; lia|].
        cbn [bind_raises].
        destruct (0 <? length (frozenset (map Wrap (collected st))))%nat;
          eexists; reflexivity.
      * intros co Hco.
        assert (Hinit : CodeObject__init__ code key ns_manager = inr co).
        { unfold CodeObject__init__. rewrite Hst. cbn [bind_raises].
          rewrite _find_output_variables_run. fold total imports.
          rewrite (proj2 (Z.ltb_ge _ _) Hex). exact Hco. }
        destruct (CodeObject__init__returns _ _ _ _ Hinit)
          as (st' & Hst' & Houts & _).
        rewrite Hst in Hst'. injection Hst' as <-.
        destruct (outputs_of_frozenset _ _ Houts) as (Hperm & _ & Hnames).
        split; [exact Hperm|exact Hnames].
  - intros key ns_manager. unfold CodeObject__init__.
    change (symtable ("a = 1" +:+ newline +:+ "b = 2")) with
      (inr (A := pyexc) (MiniPy.symtable_of
         [Assign [Name "a" Store] (Num 1); Assign [Name "b" Store] (Num 2)])).
    cbn [bind_raises]. reflexivity.
  - intros key ns_manager Hkey. unfold CodeObject__init__.
    change (symtable ("import os" +:+ newline +:+ "import sys")) with
      (inr (A := pyexc) (MiniPy.symtable_of [Import ["os"]; Import ["sys"]])).
    cbn [bind_raises]. unfold Blake2b.blake2b.
    destruct (64 <? length key)%nat eqn:Hlen;
      [apply Nat.ltb_lt in Hlen; lia|].
    cbn [bind_raises]. eexists. split; [reflexivity|].
    split; reflexivity.
Qed.

(** C3 (as amended).  The identity of a code object whose output set is not
    empty is the output names, each between brackets, in the order the set
    is iterated and joined by [+], then [-] and the hexadecimal form of the
    keyed 10-byte digest of that joined string; the source text does not
    enter it.  The identity of a code object whose output set is empty is
    the hexadecimal digest of the source text.  So two code objects built
    under one key have the same identity when their output sets are not
    empty and are iterated as the same sequence of names, which is the case
    whenever they have the same members and one of them has a single
    member. *)
Theorem display_id_of_outputs (code1 code2 : string) (key : list Z)
    (ns1 ns2 : BuiltInManager) (co1 co2 : CodeObject) :
  CodeObject__init__ code1 key ns1 = inr co1 →
  CodeObject__init__ code2 key ns2 = inr co2 →
  let joined := String.concat "+" (map str (output_vars co1)) in
  (output_vars co1 ≠ [] →
     display_id co1
     = joined +:+ "-"
       +:+ Blake2b.hex (Blake2b.digest 10 key (Blake2b.encode joined)))
  ∧ (output_vars co1 = [] →
     display_id co1
     = Blake2b.hex (Blake2b.digest 10 key (Blake2b.encode code1)))
  ∧ (output_vars co1 ≠ [] → output_names co1 = output_names co2 →
     display_id co1 = display_id co2)
  ∧ (length (output_vars co1) = 1%nat →
     same_names (output_names co1) (output_names co2) →
     display_id co1 = display_id co2).
Proof.
  intros H1 H2 joined.
  destruct (CodeObject__init__returns _ _ _ _ H1)
    as (st1 & _ & Houts1 & _ & _ & Hid1).
  destruct (CodeObject__init__returns _ _ _ _ H2)
    as (st2 & _ & Houts2 & _ & _ & Hid2).
  assert (Hordered : output_vars co1 ≠ [] →
            output_names co1 = output_names co2 →
            display_id co1 = display_id co2).
  { intros Hne Hnames.
    assert (Hstr : map str (output_vars co1) = map str (output_vars co2)).
    { change str with (fun w => "[" +:+ wrapper_name w +:+ "]").
      rewrite <- (List.map_map wrapper_name (fun n => "[" +:+ n +:+ "]")
                    (output_vars co1)).
      rewrite <- (List.map_map wrapper_name (fun n => "[" +:+ n +:+ "]")
                    (output_vars co2)).
      unfold output_names in Hnames. rewrite Hnames. reflexivity. }
    assert (Hlen : length (output_vars co1) = length (output_vars co2)).
    { rewrite <- (List.length_map wrapper_name (output_vars co1)).
      rewrite <- (List.length_map wrapper_name (output_vars co2)).
      unfold output_names in Hnames. rewrite Hnames. reflexivity. }
    assert (Hpos : (0 <? length (output_vars co1))%nat = true)
      by (destruct (output_vars co1); [congruence|reflexivity]).
    rewrite Hid1, Hid2, <- Hlen, Hpos, Hstr. reflexivity. }
  split; [|split; [|split]].
  - intros Hne. rewrite Hid1.
    destruct (output_vars co1); [congruence|reflexivity].
  - intros Hempty. rewrite Hid1, Hempty. reflexivity.
  - exact Hordered.
  - intros Hone Hsame. apply Hordered.
    + destruct (output_vars co1); [discriminate|congruence].
    + destruct (outputs_of_frozenset _ _ Houts2) as (_ & Hnd2 & _).
      unfold output_names in *.
      destruct (output_vars co1) as [|w [|w' l]]; try discriminate.
      cbn [map] in *. symmetry.
      apply NoDup_singleton_names; [exact Hnd2|exact Hsame].
Qed.

End CodeUnits.

(** The counterexample to C5 as stated: [x] is a global reference both at
    module level and inside [f], and is listed twice. *)
Lemma inputs_repeat_a_name :
  map wrapper_name (_find_input_variables nested_reference MiniPy.registry)
  = ["x"; "x"]
  ∧ ¬ NoDup (map wrapper_name
               (_find_input_variables nested_reference MiniPy.registry)).
Proof.
  assert (Hnames : map wrapper_name
            (_find_input_variables nested_reference MiniPy.registry)
          = ["x"; "x"]) by (vm_compute; reflexivity).
  split; [exact Hnames|]. rewrite Hnames. intros Hnodup.
  apply NoDup_cons in Hnodup as [Hnotin _]. apply Hnotin.
  apply list_elem_of_singleton. reflexivity.
Qed.

(** The witness of C5: the snippet [y = x + 1] under the empty key. *)
Lemma inputs_follow_traversal_witness :
  (length ([] : list Z) ≤ 64)%nat
  ∧ ∃ co,
      @CodeObject__init__ MiniPy.analysis "y = x + 1" [] MiniPy.registry
      = inr co
      ∧ input_names co = ["x"] ∧ output_names co = ["y"].
Proof.
  assert (Hkey : (length ([] : list Z) ≤ 64)%nat) by (simpl; lia).
  split; [exact Hkey|].
  destruct (inputs_follow_traversal MiniPy.registry) as [_ Hsnippet].
  exact (Hsnippet [] Hkey).
Defined.

(** The witness of C4: the snippet [x = 1], which binds one name. *)
Lemma outputs_are_the_collected_names_witness :
  let st := MiniPy.symtable_of [Assign [Name "x" Store] (Num 1)] in
  @symtable MiniPy.analysis "x = 1" = inr st
  ∧ (Z.of_nat (length (collected st))
     - Z.of_nat (imported_count (collected st)) ≤ 1)%Z
  ∧ (length ([] : list Z) ≤ 64)%nat
  ∧ ∃ co,
      @CodeObject__init__ MiniPy.analysis "x = 1" [] MiniPy.registry = inr co.
Proof.
  intros st.
  assert (Hst : @symtable MiniPy.analysis "x = 1" = inr st) by reflexivity.
  assert (Hfew : (Z.of_nat (length (collected st))
                  - Z.of_nat (imported_count (collected st)) ≤ 1)%Z)
    by (vm_compute; discriminate).
  assert (Hkey : (length ([] : list Z) ≤ 64)%nat) by (simpl; lia).
  repeat (split; [assumption|]).
  destruct (@outputs_are_the_collected_names MiniPy.analysis) as [Hgen _].
  destruct (Hgen "x = 1" st [] MiniPy.registry Hst) as (_ & Hreturns & _).
  exact (Hreturns Hfew Hkey).
Defined.

(** The witness of C3: [x = 1] and [x = 2 + 3] under the empty key. *)
Lemma display_id_of_outputs_witness :
  ∃ co1 co2,
    @CodeObject__init__ MiniPy.analysis "x = 1" [] MiniPy.registry = inr co1
    ∧ @CodeObject__init__ MiniPy.analysis "x = 2 + 3" [] MiniPy.registry
      = inr co2
    ∧ length (output_vars co1) = 1%nat
    ∧ same_names (output_names co1) (output_names co2)
    ∧ display_id co1 = display_id co2.
Proof.
  destruct (@CodeObject__init__ MiniPy.analysis "x = 1" [] MiniPy.registry)
    as [e|co1] eqn:H1; [vm_compute in H1; discriminate|].
  destruct (@CodeObject__init__ MiniPy.analysis "x = 2 + 3" []
              MiniPy.registry)
    as [e|co2] eqn:H2; [vm_compute in H2; discriminate|].
  exists co1, co2.
  assert (Hone : length (output_vars co1) = 1%nat).
  { vm_compute in H1. injection H1 as <-. reflexivity. }
  assert (Hsame : same_names (output_names co1) (output_names co2)).
  { vm_compute in H1. injection H1 as <-.
    vm_compute in H2. injection H2 as <-. intros n. reflexivity. }
  split; [reflexivity|]. split; [reflexivity|].
  split; [exact Hone|]. split; [exact Hsame|].
  destruct (@display_id_of_outputs MiniPy.analysis "x = 1" "x = 2 + 3" []
              MiniPy.registry MiniPy.registry co1 co2 H1 H2)
    as (_ & _ & _ & Hsingle).
  exact (Hsingle Hone Hsame).
Defined.

(** The counterexample to C3 as stated: [1 + 1] and [2 + 2] bind no name,
    so both have the empty output set, and their identities are the digests
    of their texts, which differ. *)
Lemma empty_outputs_are_content_addressed :
  ∃ co1 co2,
    @CodeObject__init__ MiniPy.analysis "1 + 1" [] MiniPy.registry = inr co1
    ∧ @CodeObject__init__ MiniPy.analysis "2 + 2" [] MiniPy.registry
      = inr co2
    ∧ output_names co1 = [] ∧ output_names co2 = []
    ∧ display_id co1 = "89a8914d01394fab4811"
    ∧ display_id co2 = "0f71ba861202dab8f9c0"
    ∧ display_id co1 ≠ display_id co2.
Proof.
  eexists _, _.
  split; [vm_compute; reflexivity|]. split; [vm_compute; reflexivity|].
  split; [reflexivity|]. split; [reflexivity|].
  split; [reflexivity|]. split; [reflexivity|].
  cbn [display_id]. discriminate.
Qed.

(** * Further properties of execute.py *)

(** ** The statements of a cell *)

Lemma removelast_then_last {A} (l : list A) (x : A) :
  last l = Some x → removelast l ++ [x] = l.
Proof.
  intros Hlast. destruct (last_Some l x) as [Hsplit _].
  destruct (Hsplit Hlast) as [l' ->].
  rewrite List.removelast_last. reflexivity.
Qed.

Lemma extend_nodes_name (nodes : list stmt) (N : string) :
  (extend_nodes nodes).2 = Some N
  ↔ ∃ asg ctx, last nodes = Some asg ∧ assign_target asg = Some (Name N ctx).
Proof.
  unfold extend_nodes. destruct (last nodes) as [asg|]; cbn [snd].
  - split.
    + intros Hname. exists asg.
      destruct asg as [targets v|target op v|target ann v|v|names| |v];
        cbn [is_assign_node] in Hname; try discriminate;
        destruct (assign_target _) as [[]|] eqn:Ht; try discriminate;
        injection Hname as ->; eexists; split; reflexivity.
    + intros (asg' & ctx & [= <-] & Ht).
      destruct asg as [targets v|target op v|target ann v|v|names| |v];
        cbn [is_assign_node]; try discriminate; rewrite Ht; reflexivity.
  - split; [discriminate|]. intros (asg & ctx & Hl & _). discriminate.
Qed.

(** ** The display hook of a result *)

Lemma displayhook_run (self : nat) (v : value) (p : Process) :
  displayhook self v p
  = (inr tt, set_results (alter (record_display v) self (results p)) p).
Proof.
  unfold displayhook. rewrite bind_run. unfold setattr, modify.
  cbn [results set_results]. f_equal.
  destruct p as [so se dh eh bs rs ns]. unfold set_results.
  cbn [sys_stdout sys_stderr sys_displayhook sys_excepthook buffers results
       global_ns].
  f_equal. rewrite list_alter_alter_eq. apply list_alter_ext; [|reflexivity].
  intros x _. reflexivity.
Qed.

(** [ExecutionResult.displayhook] never clears [has_output].  After any
    sequence of values handed to the bound display hook, [output] is the
    value handed last and [has_output] is set when it was set before or one
    of the values was not [None]; nothing else of the result, of any other
    result, of the buffers or of the namespace changes.  So a value
    followed by [None] leaves [has_output] set with [output] being
    [None]. *)
Theorem displayhook_keeps_has_output (self : nat) (vs : list value)
    (p : Process) (x : ExecutionResult) :
  sys_displayhook p = Bound_displayhook self →
  results p !! self = Some x →
  ∃ p' x',
    perform_all (map Display vs) p = (inr tt, p')
    ∧ results p' !! self = Some x'
    ∧ output x' = default (output x) (last vs)
    ∧ has_output x'
      = has_output x || existsb (fun v => bool_decide (v ≠ VNone)) vs
    ∧ same_but_output x x'
    ∧ (∀ i, i ≠ self → results p' !! i = results p !! i)
    ∧ buffers p' = buffers p ∧ global_ns p' = global_ns p
    ∧ sys_displayhook p' = Bound_displayhook self.
Proof.
  revert p x. induction vs as [|v vs IH]; intros p x Hhook Hx.
  - exists p, x. cbn [map perform_all last existsb default].
    rewrite orb_false_r. repeat split; try assumption; reflexivity.
  - cbn [map perform_all]. rewrite bind_run. cbn [perform].
    unfold call_displayhook. rewrite bind_run. cbn [gets]. rewrite Hhook.
    rewrite displayhook_run.
    set (p1 := set_results (alter (record_display v) self (results p)) p).
    assert (Hx1 : results p1 !! self = Some (record_display v x)).
    { subst p1. cbn [results set_results].
      rewrite list_lookup_alter_eq, Hx. reflexivity. }
    destruct (IH p1 (record_display v x) Hhook Hx1)
      as (p' & x' & Hrun & Hx' & Hout & Hhas & Hsame & Hother & Hbuf & Hns
          & Hhook').
    exists p', x'. split; [exact Hrun|]. split; [exact Hx'|].
    assert (Hrec : output (record_display v x) = v
                   ∧ has_output (record_display v x)
                     = has_output x || bool_decide (v ≠ VNone)
                   ∧ same_but_output x (record_display v x)).
    { unfold record_display. cbn [output set_output].
      case_bool_decide; cbn [output has_output set_has_output set_output];
        rewrite ?orb_true_r, ?orb_false_r; repeat split. }
    destruct Hrec as (Ho & Hh & Hs).
    split.
    { rewrite Hout, Ho. destruct vs as [|v' vs]; [reflexivity|].
      cbn [last]. destruct (last (v' :: vs)) eqn:Hl; [reflexivity|].
      apply last_None in Hl. discriminate. }
    split; [rewrite Hhas, Hh; cbn [existsb]; symmetry; apply orb_assoc|].
    split; [etransitivity; eassumption|].
    split.
    { intros i Hi. rewrite (Hother i Hi). subst p1.
      cbn [results set_results]. apply list_lookup_alter_ne. congruence. }
    split; [rewrite Hbuf; reflexivity|].
    split; [rewrite Hns; reflexivity|exact Hhook'].
Qed.

(** The witness: 1, then [None], handed to the hook of a fresh result. *)
Lemma displayhook_keeps_has_output_witness :
  let p := captured None (MiniPy.fresh ∅) in
  sys_displayhook p = Bound_displayhook 0
  ∧ results p !! 0 = Some (fresh_result None (MiniPy.fresh ∅))
  ∧ ∃ p' x',
      perform_all (map Display [VInt 1; VNone]) p = (inr tt, p')
      ∧ results p' !! 0 = Some x'
      ∧ output x' = VNone ∧ has_output x' = true
      ∧ is_complete x' = false.
Proof.
  intros p.
  assert (Hhook : sys_displayhook p = Bound_displayhook 0) by reflexivity.
  assert (Hx : results p !! 0 = Some (fresh_result None (MiniPy.fresh ∅)))
    by reflexivity.
  split; [exact Hhook|]. split; [exact Hx|].
  destruct (displayhook_keeps_has_output 0 [VInt 1; VNone] p _ Hhook Hx)
    as (p' & x' & Hrun & Hx' & Hout & Hhas & _).
  exists p', x'. split; [exact Hrun|]. split; [exact Hx'|].
  split; [exact Hout|]. split; [exact Hhas|].
  unfold is_complete. rewrite Hhas, Hout. cbn.
  rewrite andb_false_r. reflexivity.
Defined.

(** ** What [_run_ast_nodes] keeps when [_run_code] keeps it *)

Section Kept.
Context `{Interpreter}.
Context (R : Process → Process → Prop) `{!Reflexive R, !Transitive R}.
Hypothesis _run_code_keeps :
  ∀ self code_obj, keeps R (_run_code self code_obj).

Lemma run_interactive_keeps (self : Executor) (name : string)
    (nodes : list stmt) :
  keeps R (run_interactive self name nodes).
Proof.
  induction nodes as [|node nodes IH]; simpl.
  - apply keeps_ret; apply _.
  - apply keeps_bind; [apply _|apply keeps_lift; apply _|intros code].
    apply keeps_bind; [apply _|apply _run_code_keeps|intros [|]].
    + apply keeps_ret; apply _.
    + exact IH.
Qed.

Lemma _run_ast_nodes_keeps (self : Executor) (nodelist : list stmt)
    (name : string) :
  keeps R (_run_ast_nodes self nodelist name).
Proof.
  unfold _run_ast_nodes. destruct nodelist as [|node nodelist].
  - apply keeps_ret; apply _.
  - destruct (extend_nodes (node :: nodelist)) as [nodes output_name].
    destruct (split_nodes nodes) as [to_run_exec to_run_interactive].
    apply keeps_try_except; [apply _| |intros; apply keeps_ret; apply _].
    apply keeps_bind; [apply _|apply keeps_lift; apply _|intros code].
    apply keeps_bind; [apply _|apply _run_code_keeps|intros [|]].
    + apply keeps_ret; apply _.
    + apply keeps_bind; [apply _|apply run_interactive_keeps|intros [|]];
        apply keeps_ret; apply _.
Qed.

End Kept.

(** ** The exception hook *)

Global Instance same_excepthook_refl : Reflexive same_excepthook.
Proof. intros p. reflexivity. Qed.

Global Instance same_excepthook_trans : Transitive same_excepthook.
Proof. intros p q r Hpq Hqr. unfold same_excepthook in *. congruence. Qed.

Lemma showtraceback_excepthook (self : Executor) (e : pyexc) :
  keeps same_excepthook (showtraceback self e).
Proof.
  intros p. rewrite showtraceback_render.
  destruct (render self e); rewrite print_run; unfold write, modify;
    cbn [snd]; unfold same_excepthook;
    match goal with |- context [match ?f with _ => _ end] =>
      destruct f end; reflexivity.
Qed.

Section Hooks.
Context `{Interpreter}.

Lemma _run_code_excepthook (self : Executor) (code_obj : code_type) :
  keeps same_excepthook (_run_code self code_obj).
Proof.
  intros p. rewrite _run_code_run. cbv zeta.
  destruct (outcome (exec code_obj (global_ns p))); cbn [snd].
  - etransitivity; [|apply showtraceback_excepthook]. reflexivity.
  - reflexivity.
Qed.

(** [_run_code] puts [sys.excepthook] back.  Whatever the executed code
    does, also when it rebinds [sys.excepthook] itself or raises, the hook
    is after [_run_code], and so after [run_cell], the one that was
    installed before the call.  [run_coroutine] has no such guard: a hook
    installed by the awaited computation stays. *)
Theorem run_cell_restores_excepthook (self : Executor) :
  (∀ (code_obj : code_type) (p : Process),
     sys_excepthook (_run_code self code_obj p).2 = sys_excepthook p)
  ∧ (∀ (code name : string) (p : Process),
       sys_excepthook (run_cell self code name p).2 = sys_excepthook p)
  ∧ (∀ (h : nat) (v : value) (name : string) (nohandle : list pyclass)
       (p : Process),
       sys_excepthook
         (run_coroutine self (rebinding_excepthook h v) name nohandle p).2
       = h).
Proof.
  split; [|split].
  - intros code_obj p. apply _run_code_excepthook.
  - intros code name p. rewrite run_cell_run. cbv zeta. cbn [snd].
    cbn [released sys_excepthook].
    match goal with |- sys_excepthook (?body ?q).2 = _ =>
      assert (Hbody : keeps same_excepthook body) end.
    { apply keeps_bind; [apply _|apply keeps_lift; apply _|intros nodes].
      apply keeps_bind; [apply _| |intros [failed output_name]].
      - apply _run_ast_nodes_keeps; [apply _|apply _|].
        apply _run_code_excepthook.
      - apply keeps_bind; [apply _| |intros _];
          apply keeps_modify; intros q; reflexivity. }
    rewrite (Hbody (captured None p)). reflexivity.
  - intros h v name nohandle p.
    rewrite (run_coroutine_resolved self (rebinding_excepthook h v) name
               nohandle p v eq_refl).
    reflexivity.
Qed.

End Hooks.

(** ** Failures that leave no trace *)

Section Silent.
Context `{Interpreter}.

(** A batch that does not compile.  When [compile] refuses the batch
    portion of a cell, [_run_ast_nodes] reports failure with the output
    name it found, and that is all: nothing was executed, nothing is
    rendered or printed to either stream, and the process is exactly as it
    was. *)
Theorem compile_failure_is_silent (self : Executor) (nodes : list stmt)
    (name : string) (q : Process) (e : pyexc) :
  nodes ≠ [] →
  compile (Module_ (split_nodes (extend_nodes nodes).1).1) name "exec"
  = inl e →
  _run_ast_nodes self nodes name q
  = (inr (true, (extend_nodes nodes).2), q).
Proof.
  intros Hne Hcompile. unfold _run_ast_nodes.
  destruct nodes as [|node nodes]; [congruence|].
  destruct (extend_nodes (node :: nodes)) as [ext output_name].
  cbn [fst snd] in *.
  destruct (split_nodes ext) as [to_run_exec to_run_interactive].
  cbn [fst] in Hcompile.
  unfold try_except. rewrite bind_run. unfold lift. rewrite Hcompile.
  reflexivity.
Qed.

End Silent.

(** The witness: a [return] at module level parses and does not compile. *)
Lemma compile_failure_is_silent_witness :
  let nodes := [Return None] in
  let e := PyExc SyntaxError "'return' outside function" in
  nodes ≠ []
  ∧ compile (Module_ (split_nodes (extend_nodes nodes).1).1) "cell" "exec"
    = inl e
  ∧ _run_ast_nodes MiniPy.executor nodes "cell" (MiniPy.fresh ∅)
    = (inr (true, None), MiniPy.fresh ∅).
Proof.
  intros nodes e.
  assert (Hne : nodes ≠ []) by discriminate.
  assert (Hc : compile (Module_ (split_nodes (extend_nodes nodes).1).1)
                 "cell" "exec" = inl e) by reflexivity.
  split; [exact Hne|]. split; [exact Hc|].
  exact (compile_failure_is_silent MiniPy.executor nodes "cell"
           (MiniPy.fresh ∅) e Hne Hc).
Defined.

(** ** Text printed to the standard output *)



(** ** Result objects of earlier calls *)

Global Instance prefix_frame_refl (n : nat) : Reflexive (prefix_frame n).
Proof. intros p. split; reflexivity. Qed.

Global Instance prefix_frame_trans (n : nat) : Transitive (prefix_frame n).
Proof.
  intros p q r [Hl1 Hf1] [Hl2 Hf2]. split; [congruence|].
  etransitivity; eassumption.
Qed.

Lemma results_frame_prefix (n : nat) (p p' : Process) :
  results_frame p p' → prefix_frame n p p'.
Proof.
  unfold results_frame. intros Hf. split.
  - symmetry. eapply Forall2_length, Hf.
  - apply Forall2_take, Hf.
Qed.

Lemma keeps_results_frame_prefix {A} (n : nat) (m : M A) :
  keeps results_frame m → keeps (prefix_frame n) m.
Proof. intros Hm p. apply results_frame_prefix, Hm. Qed.

Lemma setattr_prefix (n : nat) (f : ExecutionResult → ExecutionResult) :
  keeps (prefix_frame n) (setattr n f).
Proof.
  intros p. unfold setattr, modify, prefix_frame. simpl. split.
  - apply length_alter.
  - rewrite take_alter_ge by lia. reflexivity.
Qed.

Lemma captured_prefix (target : option string) (p q : Process) :
  prefix_frame (length (results p)) (captured target p) q →
  length (results (released p q)) = S (length (results p))
  ∧ ∀ i x, results p !! i = Some x →
           ∃ x', results (released p q) !! i = Some x'
                 ∧ same_but_output x x'.
Proof.
  intros [Hlen Hf]. cbn [results released captured] in *.
  rewrite length_app in Hlen. cbn [length] in Hlen.
  split; [lia|]. intros i x Hx.
  rewrite take_app_length in Hf.
  destruct (Forall2_lookup_l _ _ _ _ _ Hf Hx) as (x' & Hx' & Hsame).
  exists x'. split; [|exact Hsame].
  apply lookup_take_Some in Hx'. tauto.
Qed.

Section Appends.
Context `{Interpreter}.

(** Every call adds one result object and writes to it alone.  After
    [run_cell] or [run_coroutine], whether it returns or raises, there is
    exactly one result object more.  User code is taken to reach result
    objects through display hooks only: it prints, displays values and
    rebinds the [sys] singletons, and assigns no attribute of a result
    object.  Then each earlier result object still has its captured
    streams, its target, its failure flag and its exception field, also
    when the code installs the display hook of an earlier call again; at
    most its output and its output flag differ. *)
Theorem earlier_results_are_kept (self : Executor) (p : Process) :
  (∀ code name : string,
     let p' := (run_cell self code name p).2 in
     length (results p') = S (length (results p))
     ∧ ∀ i x, results p !! i = Some x →
              ∃ x', results p' !! i = Some x' ∧ same_but_output x x')
  ∧ (∀ (co : coroutine) (name : string) (nohandle : list pyclass),
       let p' := (run_coroutine self co name nohandle p).2 in
       length (results p') = S (length (results p))
       ∧ ∀ i x, results p !! i = Some x →
                ∃ x', results p' !! i = Some x' ∧ same_but_output x x').
Proof.
  set (n := length (results p)).
  assert (Hset : ∀ f, keeps (prefix_frame n) (setattr n f))
    by (intros f; apply setattr_prefix).
  split.
  - intros code name. cbv zeta. rewrite run_cell_run. cbv zeta. cbn [snd].
    apply (captured_prefix None). fold n.
    match goal with |- prefix_frame n ?q (?body ?q).2 =>
      assert (Hbody : keeps (prefix_frame n) body) end; [|apply Hbody].
    apply keeps_bind; [apply _|apply keeps_lift; apply _|intros nodes].
    apply keeps_bind; [apply _| |intros [failed output_name]].
    + apply keeps_results_frame_prefix, _run_ast_nodes_frame.
    + apply keeps_bind; [apply _|apply Hset|intros _; apply Hset].
  - intros co name nohandle. cbv zeta. rewrite run_coroutine_run.
    cbv zeta. cbn [snd]. apply (captured_prefix (Some name)). fold n.
    match goal with |- prefix_frame n ?q (?body ?q).2 =>
      assert (Hbody : keeps (prefix_frame n) body) end; [|apply Hbody].
    apply keeps_bind; [apply _|apply Hset|intros _].
    apply keeps_bind; [apply _| |intros [|]].
    + apply keeps_try_except; [apply _| |intros e].
      * apply keeps_bind; [apply _| |intros v].
        { apply keeps_results_frame_prefix. unfold await.
          apply keeps_bind; [apply _|apply keeps_gets; apply _|intros ns].
          apply play_frame. }
        apply keeps_bind; [apply _|apply Hset|intros _].
        apply keeps_ret; apply _.
      * destruct (isinstance e nohandle); [apply keeps_raise; apply _|].
        apply keeps_bind; [apply _| |intros _; apply keeps_ret; apply _].
        apply keeps_results_frame_prefix, showtraceback_frame.
    + apply keeps_bind; [apply _|apply Hset|intros _].
      apply keeps_bind; [apply _|apply keeps_gets; apply _|intros x].
      destruct x as [[so se ho o [t|] he ex]|];
        try (apply keeps_ret; apply _).
      unfold update_ns, BuiltInManager_update.
      apply keeps_modify. intros q. split; reflexivity.
    + apply keeps_ret; apply _.
Qed.

End Appends.

(** ** Capturing one stream only *)

(** [CapturedIOCtx] with its flags.  A stream whose flag is set is a fresh
    empty buffer while the body runs, and the buffer is recorded in the
    result; a stream whose flag is off stays what it was, and [None] is
    recorded for it, so that the result cannot pass [is_complete].  After
    the block both streams are what they were before it, whatever the
    flags and whatever the body did. *)
Theorem capture_flags {A} (so se : bool) (r : nat) (body : M A)
    (p : Process) :
  let n := length (buffers p) in
  let out := if so then Some (StringIO n) else None in
  let err := if se then Some (StringIO (if so then S n else n)) else None in
  ∃ q,
    with_ (CapturedIOCtx__init__ (capture_io r) so se) body p
    = ((body q).1,
       set_sys_stderr (sys_stderr p) (set_sys_stdout (sys_stdout p) (body q).2))
    ∧ sys_stdout q = default (sys_stdout p) out
    ∧ sys_stderr q = default (sys_stderr p) err
    ∧ buffers q
      = buffers p ++ (if so then [""] else []) ++ (if se then [""] else [])
    ∧ results q
      = alter (set_stderr err) r (alter (set_stdout out) r (results p))
    ∧ sys_displayhook q = sys_displayhook p
    ∧ global_ns q = global_ns p
    ∧ (∀ x, results q !! r = Some x →
            stdout x = out ∧ stderr x = err
            ∧ (so && se = false → is_complete x = false)).
Proof.
  intros n out err.
  assert (Hfields : ∀ x,
            alter (set_stderr err) r (alter (set_stdout out) r (results p))
              !! r = Some x →
            stdout x = out ∧ stderr x = err
            ∧ (so && se = false → is_complete x = false)).
  { intros x. rewrite !list_lookup_alter_eq.
    destruct (results p !! r) as [x0|]; [|discriminate].
    cbn [fmap option_fmap option_map]. intros [= <-].
    split; [reflexivity|]. split; [reflexivity|].
    unfold is_complete. cbn [stdout stderr set_stdout set_stderr].
    subst out err. destruct so, se; try discriminate; intros _;
      rewrite ?(bool_decide_eq_false_2 (None ≠ None)) by congruence;
      rewrite ?andb_false_r; reflexivity. }
  destruct p as [o e dh eh bs rs ns].
  subst n out err. cbn [buffers sys_stdout sys_stderr results] in *.
  destruct so, se; eexists;
    (split;
     [unfold with_;
      cbv [__enter__ __exit__ CapturedIOCtx_manager CapturedIOCtx__enter__
           CapturedIOCtx__init__ CapturedIOCtx__exit__ mbind M_bind mret
           M_ret gets modify try_finally StringIO__init__ capture_io setattr
           capture_stdout capture_stderr container_func io_sys_stdout
           io_sys_stderr];
      simpl;
      match goal with
      | |- (let '(_, _) := body ?q' in _) = ((body ?e).1, _) =>
          unify e q'; destruct (body q') as [o1 p2]
      end; reflexivity|]);
    cbn [sys_stdout sys_stderr buffers results sys_displayhook global_ns
         default set_buffers set_sys_stdout set_sys_stderr set_results];
    rewrite ?length_app, <- ?app_assoc, ?app_nil_r; cbn [length app];
    rewrite ?Nat.add_1_r;
    (split; [reflexivity|]); (split; [reflexivity|]);
    (split; [reflexivity|]); (split; [reflexivity|]);
    (split; [reflexivity|]); (split; [reflexivity|]); exact Hfields.
Qed.

(** * Further properties of code_object.py *)

(** ** The output set *)

Lemma definitions_distinct (seen : list string) (l : list SymbolWrapper) :
  (length (definitions (distinct seen l)) ≤ length (definitions l))%nat.
Proof.
  revert seen. induction l as [|w l IH]; intros seen; simpl; [lia|].
  case_bool_decide; simpl.
  - specialize (IH seen). destruct (negb (is_imported (_symbol w))); simpl; lia.
  - specialize (IH (wrapper_name w :: seen)).
    unfold definitions in *. simpl.
    destruct (negb (is_imported (_symbol w))); simpl; lia.
Qed.

Lemma definitions_count (syms : list Symbol) :
  (length (definitions (map Wrap syms)) + imported_count syms
   = length syms)%nat.
Proof.
  unfold definitions, imported_count.
  induction syms as [|s syms IH]; simpl; [reflexivity|].
  destruct (is_imported s); simpl; lia.
Qed.

Lemma definitions_perm (l1 l2 : list SymbolWrapper) :
  l1 ≡ₚ l2 → length (definitions l1) = length (definitions l2).
Proof.
  intros Hperm. unfold definitions.
  induction Hperm as [|x l1 l2 _ IH|x y l|l1 l2 l3 _ IH1 _ IH2]; simpl.
  - reflexivity.
  - destruct (negb (is_imported (_symbol x))); simpl; lia.
  - destruct (negb (is_imported (_symbol x))),
             (negb (is_imported (_symbol y))); reflexivity.
  - lia.
Qed.

Section Outputs.
Context `{Analysis}.

(** The output set of a code object.  A code object that was constructed
    has at most one output symbol that is not an import, and no two of its
    output symbols have the same name. *)
Theorem outputs_hold_one_definition (code : string) (key : list Z)
    (ns_manager : BuiltInManager) (co : CodeObject) :
  CodeObject__init__ code key ns_manager = inr co →
  (length (definitions (output_vars co)) ≤ 1)%nat
  ∧ NoDup (output_names co).
Proof.
  intros Hco.
  destruct (CodeObject__init__returns _ _ _ _ Hco)
    as (st & _ & Houts & _).
  destruct (outputs_of_frozenset _ _ Houts) as (Hperm & Hnd & _).
  split; [|exact Hnd].
  rewrite _find_output_variables_run in Houts.
  destruct (1 <? _)%Z eqn:Hex; [discriminate|].
  apply Z.ltb_ge in Hex.
  rewrite (definitions_perm _ _ Hperm).
  pose proof (definitions_distinct [] (map Wrap (collected st))) as Hle.
  pose proof (definitions_count (collected st)) as Hcount.
  lia.
Qed.

(** The order in which construction fails.  A source that [symtable]
    refuses raises what [symtable] raised; otherwise a source with more
    than one definition raises [MultipleDefinitionsError], also when the
    key is too long; otherwise a key of more than 64 bytes raises
    [ValueError]; and in every other case a code object is returned, with
    the scope tree, the source text and the inputs found. *)
Theorem construction_fails_in_order (source : string) (key : list Z)
    (ns_manager : BuiltInManager) :
  match symtable source with
  | inl e => CodeObject__init__ source key ns_manager = inl e
  | inr st =>
      if (1 <? Z.of_nat (length (collected st))
               - Z.of_nat (imported_count (collected st)))%Z
      then CodeObject__init__ source key ns_manager
           = inl (PyExc MultipleDefinitionsError "")
      else if (64 <? length key)%nat
      then CodeObject__init__ source key ns_manager
           = inl (PyExc ValueError "maximum key length is 64 bytes")
      else ∃ co,
             CodeObject__init__ source key ns_manager = inr co
             ∧ symbol_table co = st ∧ code co = source
             ∧ input_vars co = _find_input_variables st ns_manager
             ∧ output_vars co = frozenset (map Wrap (collected st))
  end.
Proof.
  unfold CodeObject__init__.
  destruct (symtable source) as [e|st]; [reflexivity|].
  cbn [bind_raises]. rewrite _find_output_variables_run.
  destruct (1 <? _)%Z; [reflexivity|].
  cbn [bind_raises]. unfold Blake2b.blake2b.
  destruct (64 <? length key)%nat; [reflexivity|].
  cbn [bind_raises].
  destruct (0 <? length (frozenset (map Wrap (collected st))))%nat;
    eexists; repeat split.
Qed.

End Outputs.

(** The witness: the snippet [import os], [x = 1]. *)
Lemma outputs_hold_one_definition_witness :
  ∃ co,
    @CodeObject__init__ MiniPy.analysis ("import os" +:+ newline +:+ "x = 1")
      [] MiniPy.registry = inr co
    ∧ output_names co = ["os"; "x"]
    ∧ (length (definitions (output_vars co)) ≤ 1)%nat
    ∧ NoDup (output_names co).
Proof.
  eexists.
  split; [vm_compute; reflexivity|].
  split; [reflexivity|].
  eapply (@outputs_hold_one_definition MiniPy.analysis
            ("import os" +:+ newline +:+ "x = 1") [] MiniPy.registry).
  vm_compute. reflexivity.
Defined.

(** ** The registry *)

Lemma is_input_registry (ns1 ns2 : BuiltInManager) (seen : list Symbol)
    (sym : Symbol) :
  (∀ n, contains ns1 n = true → contains ns2 n = true) →
  is_input ns2 seen sym
  = is_input ns1 seen sym && negb (contains ns2 (get_name sym)).
Proof.
  intros Hsub. unfold is_input.
  destruct (contains ns1 (get_name sym)) eqn:H1.
  - rewrite (Hsub _ H1). rewrite !andb_false_r. reflexivity.
  - destruct (is_global sym), (contains ns2 (get_name sym)),
      (bool_decide _); reflexivity.
Qed.

Lemma inputs_in_order_registry (ns1 ns2 : BuiltInManager)
    (seen todo : list Symbol) :
  (∀ n, contains ns1 n = true → contains ns2 n = true) →
  inputs_in_order ns2 seen todo
  = List.filter (fun w => negb (contains ns2 (wrapper_name w)))
      (inputs_in_order ns1 seen todo).
Proof.
  intros Hsub. revert seen. induction todo as [|sym todo IH]; intros seen.
  - reflexivity.
  - cbn [inputs_in_order]. rewrite List.filter_app, <- IH.
    rewrite (is_input_registry ns1 ns2 seen sym Hsub). f_equal.
    destruct (is_input ns1 seen sym); [|reflexivity].
    cbn [andb List.filter]. unfold wrapper_name. cbn [_symbol].
    destruct (contains ns2 (get_name sym)); reflexivity.
Qed.

(** The registry only filters.  With a registry that holds every name of
    another one, the input list is the input list under the other with the
    names of the registry struck out: which names are in the registry has
    no bearing on whether any other symbol is an input, nor on the order
    of the inputs. *)
Theorem registry_only_filters (st : SymbolTable) (ns1 ns2 : BuiltInManager) :
  (∀ n, contains ns1 n = true → contains ns2 n = true) →
  _find_input_variables st ns2
  = List.filter (fun w => negb (contains ns2 (wrapper_name w)))
      (_find_input_variables st ns1).
Proof.
  intros Hsub.
  assert (Hempty : tracks ∅ []).
  { intros n. unfold imported_names. simpl.
    rewrite elem_of_empty, elem_of_nil. tauto. }
  unfold _find_input_variables.
  rewrite (proj1 (_find_symbol_tables_tracks ns2 st ∅ [] Hempty)).
  rewrite (proj1 (_find_symbol_tables_tracks ns1 st ∅ [] Hempty)).
  apply inputs_in_order_registry, Hsub.
Qed.

(** The witness: the scope tree of [def f(): return x] / [x], with no
    name and with [x] in the registry. *)
Lemma registry_only_filters_witness :
  (∀ n, contains MiniPy.registry n = true → contains (registry_of "x") n = true)
  ∧ map wrapper_name (_find_input_variables nested_reference MiniPy.registry)
    = ["x"; "x"]
  ∧ _find_input_variables nested_reference (registry_of "x") = [].
Proof.
  assert (Hsub : ∀ n, contains MiniPy.registry n = true
                      → contains (registry_of "x") n = true)
    by (intros n Hn; discriminate Hn).
  split; [exact Hsub|]. split; [reflexivity|].
  rewrite (registry_only_filters nested_reference MiniPy.registry
             (registry_of "x") Hsub).
  reflexivity.
Defined.

(** ** The identity of a code object *)

Lemma chars_append (s1 s2 : string) :
  list_ascii_of_string (s1 +:+ s2)
  = list_ascii_of_string s1 ++ list_ascii_of_string s2.
Proof.
  induction s1 as [|c s1 IH]; [reflexivity|].
  change (c :: list_ascii_of_string (s1 +:+ s2)
          = c :: (list_ascii_of_string s1 ++ list_ascii_of_string s2)).
  rewrite IH. reflexivity.
Qed.

Lemma chars_length (s : string) :
  length (list_ascii_of_string s) = String.length s.
Proof. induction s as [|c s IH]; simpl; [reflexivity|]. rewrite IH. reflexivity. Qed.

Lemma chars_inj (s1 s2 : string) :
  list_ascii_of_string s1 = list_ascii_of_string s2 → s1 = s2.
Proof.
  intros Heq. rewrite <- (string_of_list_ascii_of_string s1).
  rewrite <- (string_of_list_ascii_of_string s2). rewrite Heq. reflexivity.
Qed.

Lemma compress_length (h block : list Z) (t : Z) (final : bool) :
  length (Blake2b.compress h block t final) = 8%nat.
Proof. unfold Blake2b.compress. rewrite List.length_map. reflexivity. Qed.

Lemma absorb_length (fuel : nat) (h : list Z) (t : Z) (data : list Z) :
  length h = 8%nat → length (Blake2b.absorb fuel h t data) = 8%nat.
Proof.
  revert h t data. induction fuel as [|fuel IH]; intros h t data Hh;
    cbn [Blake2b.absorb]; [exact Hh|].
  destruct (length data <=? 128)%nat.
  - apply compress_length.
  - apply IH, compress_length.
Qed.

Lemma le_bytes_length (n : nat) (x : Z) : length (Blake2b.le_bytes n x) = n.
Proof.
  revert x. induction n as [|n IH]; intros x; simpl; [reflexivity|].
  rewrite IH. reflexivity.
Qed.

Lemma words_bytes_length (h : list Z) :
  length (concat (map (Blake2b.le_bytes 8) h)) = (8 * length h)%nat.
Proof.
  induction h as [|x h IH]; [reflexivity|].
  cbn [map concat]. rewrite length_app, le_bytes_length, IH. simpl. lia.
Qed.

Lemma digest_length (digest_size : nat) (key data : list Z) :
  (digest_size ≤ 64)%nat →
  length (Blake2b.digest digest_size key data) = digest_size.
Proof.
  intros Hsize. unfold Blake2b.digest. cbv zeta.
  rewrite length_take, words_bytes_length, absorb_length; [lia|].
  rewrite length_insert. reflexivity.
Qed.

Lemma hex_digit_is_hex (n : Z) : is_hex_digit (Blake2b.hex_digit n) = true.
Proof.
  unfold Blake2b.hex_digit, is_hex_digit. apply bool_decide_eq_true.
  destruct (Z.to_nat n) as [|[|[|[|[|[|[|[|[|[|[|[|[|[|[|[|k]]]]]]]]]]]]]]]];
    cbn [nth list_ascii_of_string];
    try (destruct k; cbn [nth]);
    repeat first [apply list_elem_of_here | apply list_elem_of_further].
Qed.

Lemma hex_chars (bs : list Z) :
  length (list_ascii_of_string (Blake2b.hex bs)) = (2 * length bs)%nat
  ∧ Forall (fun c => is_hex_digit c = true)
           (list_ascii_of_string (Blake2b.hex bs)).
Proof.
  induction bs as [|b bs [IHl IHf]]; cbn [Blake2b.hex list_ascii_of_string].
  - split; [reflexivity|constructor].
  - split; [cbn [length]; rewrite IHl; simpl; lia|].
    repeat constructor; try apply hex_digit_is_hex. exact IHf.
Qed.

Lemma joined_chars (w : SymbolWrapper) (l : list SymbolWrapper) :
  list_ascii_of_string (String.concat "+" (map str (w :: l)))
  = "["%char :: list_ascii_of_string (wrapper_name w)
    ++ "]"%char :: match l with
                   | [] => []
                   | _ :: _ =>
                       "+"%char
                       :: list_ascii_of_string (String.concat "+" (map str l))
                   end.
Proof.
  destruct l as [|w' l]; cbn [map String.concat]; unfold str at 1;
    rewrite !chars_append; cbn [list_ascii_of_string app];
    rewrite <- ?app_assoc; reflexivity.
Qed.

Lemma bracket_split (n1 n2 r1 r2 : list ascii) :
  "]"%char ∉ n1 → "]"%char ∉ n2 →
  n1 ++ "]"%char :: r1 = n2 ++ "]"%char :: r2 → n1 = n2 ∧ r1 = r2.
Proof.
  revert n2. induction n1 as [|c n1 IH]; intros [|c2 n2] H1 H2 Heq;
    cbn [app] in Heq.
  - injection Heq as ->. split; reflexivity.
  - injection Heq as <- _. exfalso. apply H2. left.
  - injection Heq as -> _. exfalso. apply H1. left.
  - injection Heq as -> Heq.
    destruct (IH n2) as [-> ->]; try assumption.
    + intros Hin. apply H1. right. exact Hin.
    + intros Hin. apply H2. right. exact Hin.
    + split; reflexivity.
Qed.

Lemma joined_inj (l1 l2 : list SymbolWrapper) :
  (∀ w, w ∈ l1 → bracket_free (wrapper_name w)) →
  (∀ w, w ∈ l2 → bracket_free (wrapper_name w)) →
  list_ascii_of_string (String.concat "+" (map str l1))
  = list_ascii_of_string (String.concat "+" (map str l2)) →
  map wrapper_name l1 = map wrapper_name l2.
Proof.
  revert l2. induction l1 as [|w1 l1 IH]; intros [|w2 l2] H1 H2 Heq.
  - reflexivity.
  - rewrite joined_chars in Heq. discriminate.
  - rewrite joined_chars in Heq. discriminate.
  - rewrite !joined_chars in Heq. injection Heq as Heq.
    apply bracket_split in Heq as [Hname Hrest];
      [|apply H1; left|apply H2; left].
    apply chars_inj in Hname. cbn [map]. rewrite Hname. f_equal.
    destruct l1 as [|w1' l1], l2 as [|w2' l2]; try discriminate;
      [reflexivity|].
    injection Hrest as Hrest. apply IH; [| |exact Hrest].
    + intros w Hw. apply H1. right. exact Hw.
    + intros w Hw. apply H2. right. exact Hw.
Qed.

Lemma hexdigest_shape (key data : list Z) :
  String.length (Blake2b.hex (Blake2b.digest 10 key data)) = 20%nat
  ∧ Forall (fun c => is_hex_digit c = true)
      (list_ascii_of_string (Blake2b.hex (Blake2b.digest 10 key data))).
Proof.
  destruct (hex_chars (Blake2b.digest 10 key data)) as [Hl Hf].
  rewrite digest_length in Hl by lia.
  split; [rewrite <- chars_length; exact Hl|exact Hf].
Qed.

Section Identity.
Context `{Analysis}.

Lemma display_id_data (source : string) (key : list Z)
    (ns_manager : BuiltInManager) (co : CodeObject) :
  CodeObject__init__ source key ns_manager = inr co →
  ∃ data,
    display_id co
    = match output_vars co with
      | [] => Blake2b.hex (Blake2b.digest 10 key data)
      | _ :: _ =>
          String.concat "+" (map str (output_vars co)) +:+ "-"
          +:+ Blake2b.hex (Blake2b.digest 10 key data)
      end.
Proof.
  intros Hco.
  destruct (CodeObject__init__returns _ _ _ _ Hco)
    as (st & _ & _ & _ & _ & Hid).
  rewrite Hid. destruct (output_vars co) as [|w l]; cbn [length Nat.ltb Nat.leb];
    eexists; reflexivity.
Qed.

(** The shape of an identity.  The identity of a constructed code object
    ends in exactly 20 lowercase hexadecimal digits; it is those digits
    alone when the output set is empty, and otherwise they follow the
    joined bracketed output names and a [-]. *)
Theorem display_id_ends_in_digest (source : string) (key : list Z)
    (ns_manager : BuiltInManager) (co : CodeObject) :
  CodeObject__init__ source key ns_manager = inr co →
  ∃ d,
    String.length d = 20%nat
    ∧ Forall (fun c => is_hex_digit c = true) (list_ascii_of_string d)
    ∧ display_id co
      = match output_vars co with
        | [] => d
        | _ :: _ => String.concat "+" (map str (output_vars co)) +:+ "-" +:+ d
        end.
Proof.
  intros Hco.
  destruct (display_id_data source key ns_manager co Hco) as [data Hid].
  destruct (hexdigest_shape key data) as [Hl Hf].
  exists (Blake2b.hex (Blake2b.digest 10 key data)).
  split; [exact Hl|]. split; [exact Hf|exact Hid].
Qed.

(** Equal code objects have the same outputs.  When [__eq__] holds of two
    constructed code objects, under whatever keys and registries, either
    both output sets are empty or neither is; and when no output name
    holds a closing bracket, the two output sets are iterated as the same
    sequence of names. *)
Theorem equal_code_objects_share_outputs (source1 source2 : string)
    (key1 key2 : list Z) (ns1 ns2 : BuiltInManager) (co1 co2 : CodeObject) :
  CodeObject__init__ source1 key1 ns1 = inr co1 →
  CodeObject__init__ source2 key2 ns2 = inr co2 →
  CodeObject__eq__ co1 co2 = true →
  (output_vars co1 = [] ↔ output_vars co2 = [])
  ∧ ((∀ n, n ∈ output_names co1 ++ output_names co2 → bracket_free n) →
     output_names co1 = output_names co2).
Proof.
  intros H1 H2 Heq. unfold CodeObject__eq__ in Heq.
  apply String.eqb_eq in Heq.
  destruct (display_id_data source1 key1 ns1 co1 H1) as [data1 Hid1].
  destruct (display_id_data source2 key2 ns2 co2 H2) as [data2 Hid2].
  destruct (hexdigest_shape key1 data1) as [Hl1 Hf1].
  destruct (hexdigest_shape key2 data2) as [Hl2 Hf2].
  set (d1 := Blake2b.hex (Blake2b.digest 10 key1 data1)) in *.
  set (d2 := Blake2b.hex (Blake2b.digest 10 key2 data2)) in *.
  clearbody d1 d2.
  rewrite Hid1, Hid2 in Heq. apply (f_equal list_ascii_of_string) in Heq.
  rewrite <- chars_length in Hl1, Hl2.
  assert (Hhead : ∀ d w l,
            length (list_ascii_of_string d) = 20%nat →
            Forall (fun c => is_hex_digit c = true) (list_ascii_of_string d) →
            list_ascii_of_string d
            ≠ list_ascii_of_string
                (String.concat "+" (map str (w :: l)) +:+ "-" +:+ d2)
            ∧ list_ascii_of_string d
              ≠ list_ascii_of_string
                  (String.concat "+" (map str (w :: l)) +:+ "-" +:+ d1)).
  { intros d w l Hl Hf.
    rewrite !chars_append, !joined_chars.
    destruct (list_ascii_of_string d) as [|c cs]; [discriminate|].
    apply Forall_cons in Hf as [Hc _].
    split; intros [= -> _]; discriminate Hc. }
  destruct (output_vars co1) as [|w1 l1] eqn:Ho1,
           (output_vars co2) as [|w2 l2] eqn:Ho2.
  - split; [tauto|]. intros _. unfold output_names. rewrite Ho1, Ho2.
    reflexivity.
  - exfalso. apply (proj1 (Hhead d1 w2 l2 Hl1 Hf1)). exact Heq.
  - exfalso. apply (proj2 (Hhead d2 w1 l1 Hl2 Hf2)). symmetry. exact Heq.
  - split; [split; discriminate|]. intros Hfree.
    unfold output_names in *. rewrite Ho1, Ho2 in *.
    rewrite !chars_append in Heq.
    apply app_inj_2 in Heq as [Hjoined _];
      [|cbn [list_ascii_of_string app length]; congruence].
    apply joined_inj; [| |exact Hjoined].
    + intros w Hw. apply Hfree, elem_of_app. left.
      apply list_elem_of_In, in_map, list_elem_of_In. exact Hw.
    + intros w Hw. apply Hfree, elem_of_app. right.
      apply list_elem_of_In, in_map, list_elem_of_In. exact Hw.
Qed.

End Identity.

(** The witness: the identity of [x = 1] under the empty key. *)
Lemma display_id_ends_in_digest_witness :
  ∃ co d,
    @CodeObject__init__ MiniPy.analysis "x = 1" [] MiniPy.registry = inr co
    ∧ String.length d = 20%nat
    ∧ display_id co = "[x]-" +:+ d.
Proof.
  destruct (@CodeObject__init__ MiniPy.analysis "x = 1" [] MiniPy.registry)
    as [e|co] eqn:Hco; [vm_compute in Hco; discriminate|].
  destruct (@display_id_ends_in_digest MiniPy.analysis "x = 1" []
              MiniPy.registry co Hco) as (d & Hl & _ & Hid).
  exists co, d. split; [reflexivity|]. split; [exact Hl|].
  rewrite Hid. vm_compute in Hco. injection Hco as <-. reflexivity.
Defined.

(** The witness: [x = 1] and [x = 2 + 3] are equal code objects. *)
Lemma equal_code_objects_share_outputs_witness :
  ∃ co1 co2,
    @CodeObject__init__ MiniPy.analysis "x = 1" [] MiniPy.registry = inr co1
    ∧ @CodeObject__init__ MiniPy.analysis "x = 2 + 3" [] MiniPy.registry
      = inr co2
    ∧ CodeObject__eq__ co1 co2 = true
    ∧ (output_vars co1 = [] ↔ output_vars co2 = []).
Proof.
  destruct (@CodeObject__init__ MiniPy.analysis "x = 1" [] MiniPy.registry)
    as [e|co1] eqn:H1; [vm_compute in H1; discriminate|].
  destruct (@CodeObject__init__ MiniPy.analysis "x = 2 + 3" []
              MiniPy.registry)
    as [e|co2] eqn:H2; [vm_compute in H2; discriminate|].
  assert (Heq : CodeObject__eq__ co1 co2 = true).
  { vm_compute in H1. injection H1 as <-.
    vm_compute in H2. injection H2 as <-. vm_compute. reflexivity. }
  exists co1, co2. split; [reflexivity|]. split; [reflexivity|].
  split; [exact Heq|].
  exact (proj1 (@equal_code_objects_share_outputs MiniPy.analysis
                  "x = 1" "x = 2 + 3" [] [] MiniPy.registry MiniPy.registry
                  co1 co2 H1 H2 Heq)).
Defined.

(** ** The text of a code object in its [repr] *)

Lemma translate_app (table : list (ascii * string)) (s1 s2 : string) :
  translate table (s1 +:+ s2) = translate table s1 +:+ translate table s2.
Proof.
  induction s1 as [|c s1 IH]; [reflexivity|].
  change (translate_char table c +:+ translate table (s1 +:+ s2)
          = (translate_char table c +:+ translate table s1)
            +:+ translate table s2).
  rewrite IH, append_assoc. reflexivity.
Qed.

Lemma translate_char_no_control (c : ascii) :
  forallb (fun x => negb (is_control x))
          (list_ascii_of_string (translate_char ESCAPE_TABLE c)) = true.
Proof. destruct c as [[] [] [] [] [] [] [] []]; vm_compute; reflexivity. Qed.

Lemma translate_no_control (s : string) :
  forallb (fun x => negb (is_control x))
          (list_ascii_of_string (translate ESCAPE_TABLE s)) = true.
Proof.
  induction s as [|c s IH]; [reflexivity|].
  cbn [translate]. rewrite chars_append, forallb_app, IH.
  rewrite translate_char_no_control. reflexivity.
Qed.

(** Escaping in [__repr__].  The text of the code, as [__repr__] shows
    it, holds none of the seven control characters of [ESCAPE_TABLE];
    a text without any character of the table is shown as it is; and the
    backslash not being in the table, a control character and its escape
    sequence written out are shown alike, so that two code objects whose
    texts differ in just that way have the same [repr]. *)
Theorem repr_escapes_control_characters :
  (∀ (co : CodeObject) (c : ascii),
     c ∈ control_characters →
     c ∉ list_ascii_of_string (translate ESCAPE_TABLE (code co)))
  ∧ (∀ s : string,
       (∀ c, c ∈ list_ascii_of_string s → c ∉ map fst ESCAPE_TABLE) →
       translate ESCAPE_TABLE s = s)
  ∧ (∀ (s1 s2 : string) (c : ascii) (r : string),
       (c, r) ∈ ESCAPE_TABLE → c ∈ control_characters →
       translate ESCAPE_TABLE (s1 +:+ String c EmptyString +:+ s2)
       = translate ESCAPE_TABLE (s1 +:+ r +:+ s2))
  ∧ (∀ (co1 co2 : CodeObject) (s1 s2 : string) (c : ascii) (r : string),
       (c, r) ∈ ESCAPE_TABLE → c ∈ control_characters →
       input_vars co1 = input_vars co2 →
       output_vars co1 = output_vars co2 →
       code co1 = s1 +:+ String c EmptyString +:+ s2 →
       code co2 = s1 +:+ r +:+ s2 →
       CodeObject__repr__ co1 = CodeObject__repr__ co2).
Proof.
  assert (Hlossy : ∀ (s1 s2 : string) (c : ascii) (r : string),
            (c, r) ∈ ESCAPE_TABLE → c ∈ control_characters →
            translate ESCAPE_TABLE (s1 +:+ String c EmptyString +:+ s2)
            = translate ESCAPE_TABLE (s1 +:+ r +:+ s2)).
  { intros s1 s2 c r Hin Hc. rewrite !translate_app. f_equal. f_equal.
    pose proof (bool_decide_eq_true_2 _ Hc) as Hd.
    unfold ESCAPE_TABLE in Hin.
    repeat (apply elem_of_cons in Hin as [[= -> ->]|Hin];
            [first [reflexivity|vm_compute in Hd; discriminate Hd]|]).
    apply elem_of_nil in Hin. contradiction. }
  split; [|split; [|split]].
  - intros co c Hc Hin.
    pose proof (translate_no_control (code co)) as Hall.
    rewrite forallb_forall in Hall.
    apply list_elem_of_In, Hall in Hin. unfold is_control in Hin.
    rewrite bool_decide_eq_true_2 in Hin by exact Hc. discriminate.
  - intros s. induction s as [|c s IH]; intros Hfree; [reflexivity|].
    cbn [translate]. rewrite IH.
    + assert (Hc : c ∉ map fst ESCAPE_TABLE) by (apply Hfree; left).
      assert (Hchar : translate_char ESCAPE_TABLE c = String c EmptyString).
      { unfold ESCAPE_TABLE in *. cbn [translate_char map fst] in *.
        repeat match goal with
               | |- context [Ascii.eqb c ?k] =>
                   destruct (Ascii.eqb_spec c k) as [->|_];
                   [exfalso; apply Hc;
                    repeat first [apply list_elem_of_here
                                 |apply list_elem_of_further]|]
               end.
        reflexivity. }
      rewrite Hchar. reflexivity.
    + intros c' Hc'. apply Hfree. right. exact Hc'.
  - exact Hlossy.
  - intros co1 co2 s1 s2 c r Hin Hc Hins Houts Hc1 Hc2.
    unfold CodeObject__repr__.
    rewrite Hins, Houts, Hc1, Hc2, (Hlossy s1 s2 c r Hin Hc). reflexivity.
Qed.

(** ** What a successful call captured *)



Section Captured.
Context `{Interpreter}.


(** When the result of a coroutine is complete.  The result that
    [run_coroutine] returns passes [is_complete] exactly when the awaited
    computation resolved and, in case it displayed a value on the way, did
    not resolve to [None]. *)
Theorem run_coroutine_result_is_complete_iff (self : Executor)
    (co : coroutine) (name : string) (nohandle : list pyclass)
    (p p' : Process) (r : nat) (res : ExecutionResult) :
  run_coroutine self co name nohandle p = (inr r, p') →
  results p' !! r = Some res →
  is_complete res = true
  ↔ ∃ v, outcome (co (global_ns p)) = inr v
         ∧ (has_output res = true → v ≠ VNone).
Proof.
  intros Hrun Hres.
  destruct (run_coroutine_result self co name nohandle p p' r res Hrun Hres)
    as (_ & Ht & He & Hso & Hse & Hm).
  unfold is_complete. rewrite Hso, Hse, Ht, He.
  rewrite !bool_decide_eq_true_2 by discriminate. cbn [andb].
  rewrite andb_true_r.
  destruct (outcome (co (global_ns p))) as [e|v].
  - rewrite Hm, andb_false_r. split; [discriminate|].
    intros (v & Hv & _). discriminate.
  - destruct Hm as [-> ->]. rewrite andb_true_r.
    destruct (has_output res).
    + rewrite bool_decide_eq_true. split.
      * intros Hv. exists v. split; [reflexivity|]. intros _. exact Hv.
      * intros (v' & [= <-] & Hv). apply Hv. reflexivity.
    + split; [|reflexivity]. intros _. exists v.
      split; [reflexivity|discriminate].
Qed.

End Captured.


(** The witness: a coroutine that resolves to 5. *)
Lemma run_coroutine_result_is_complete_iff_witness :
  ∃ p' res,
    run_coroutine MiniPy.executor (resolvesTo (VInt 5)) "z" [] (MiniPy.fresh ∅)
    = (inr 0, p')
    ∧ results p' !! 0 = Some res
    ∧ is_complete res = true.
Proof.
  eexists _, _.
  split; [vm_compute; reflexivity|].
  split; [vm_compute; reflexivity|].
  eapply (run_coroutine_result_is_complete_iff MiniPy.executor
            (resolvesTo (VInt 5)) "z" [] (MiniPy.fresh ∅)).
  - vm_compute. reflexivity.
  - vm_compute. reflexivity.
  - exists (VInt 5). split; [reflexivity|discriminate].
Defined.

(** ** A display portion that fails *)

Section Partial.
Context `{Interpreter}.

Lemma ran_ns (self : Executor) (code_obj : code_type) (q : Process) :
  global_ns (ran self code_obj q) = ns_after (exec code_obj (global_ns q)).
Proof. reflexivity. Qed.

Lemma _run_ast_nodes_display_raises (self : Executor) (nodes : list stmt)
    (name : string) (q : Process) (batch shown_code : code_type)
    (node : stmt) (e : pyexc) :
  nodes ≠ [] →
  compile (Module_ (split_nodes (extend_nodes nodes).1).1) name "exec"
    = inr batch →
  (split_nodes (extend_nodes nodes).1).2 = [node] →
  compile (Interactive [node]) name "single" = inr shown_code →
  outcome (exec batch (global_ns q)) = inr tt →
  outcome (exec shown_code (global_ns (ran self batch q))) = inl e →
  _run_ast_nodes self nodes name q
  = (inr (true, (extend_nodes nodes).2),
     (showtraceback self e (ran self shown_code (ran self batch q))).2).
Proof.
  intros Hne Hc Hd Hc2 Ho Ho2. unfold _run_ast_nodes.
  destruct nodes as [|n0 nodes]; [congruence|].
  destruct (extend_nodes (n0 :: nodes)) as [all output_name].
  cbn [fst snd] in *.
  destruct (split_nodes all) as [to_run_exec to_run_interactive].
  cbn [fst snd] in Hc, Hd. subst to_run_interactive. unfold try_except.
  rewrite bind_run. unfold lift at 1. rewrite Hc.
  rewrite bind_run, _run_code_ran, Ho.
  rewrite bind_run. cbn [run_interactive].
  rewrite bind_run. unfold lift at 1. rewrite Hc2.
  rewrite bind_run, _run_code_ran, Ho2. reflexivity.
Qed.

(** A cell is not undone.  When the batch portion of a cell runs and the
    display portion then raises, [run_cell] returns a result with the
    failure flag set and the output name the cell has, and the namespace
    is the one the failing expression left, which it had received from
    the batch: nothing the batch did is taken back. *)
Theorem display_failure_keeps_the_batch (self : Executor)
    (code name : string) (p : Process) (nodes : list stmt)
    (batch shown_code : code_type) (node : stmt) (e : pyexc) :
  ast_parse code name = inr nodes → nodes ≠ [] →
  compile (Module_ (split_nodes (extend_nodes nodes).1).1) name "exec"
  = inr batch →
  (split_nodes (extend_nodes nodes).1).2 = [node] →
  compile (Interactive [node]) name "single" = inr shown_code →
  outcome (exec batch (global_ns p)) = inr tt →
  outcome (exec shown_code (ns_after (exec batch (global_ns p)))) = inl e →
  ∃ p' res,
    run_cell self code name p = (inr (length (results p)), p')
    ∧ results p' !! length (results p) = Some res
    ∧ has_exception res = true
    ∧ target_id res = (extend_nodes nodes).2
    ∧ global_ns p'
      = ns_after (exec shown_code (ns_after (exec batch (global_ns p)))).
Proof.
  intros Hparse Hne Hc Hsplit Hc2 Ho1 Ho2.
  destruct (run_cell_parsed self code name p nodes Hparse)
    as (failed & x & Hret & Hx & Hsame & Hrun).
  rewrite (_run_ast_nodes_display_raises self nodes name (captured None p)
             batch shown_code node e Hne Hc Hsplit Hc2 Ho1)
    in Hret, Hx, Hrun by (rewrite ran_ns; exact Ho2).
  cbn [fst snd] in Hret, Hx, Hrun. injection Hret as <-.
  eexists _, _. split; [exact Hrun|].
  split; [cbn [results released set_results];
          apply (lookup_alter_alter _ _ _ _ _ Hx)|].
  split; [reflexivity|]. split; [reflexivity|].
  cbn [global_ns released set_results].
  rewrite showtraceback_ns, !ran_ns. reflexivity.
Qed.

End Partial.

(** The witness: the cell [x = 1], [x // 0] binds [x] and fails. *)
Lemma display_failure_keeps_the_batch_witness :
  ∃ p' res,
    run_cell MiniPy.executor ("x = 1" +:+ newline +:+ "x // 0") "cell4"
      (MiniPy.fresh ∅) = (inr 0, p')
    ∧ results p' !! 0 = Some res
    ∧ has_exception res = true
    ∧ global_ns p' !! "x" = Some (VInt 1).
Proof.
  assert (Hparse : ast_parse ("x = 1" +:+ newline +:+ "x // 0") "cell4"
            = inr [Assign [Name "x" Store] (Num 1);
                   Expr (BinOp (Name "x" Load) FloorDiv (Num 0))])
    by reflexivity.
  edestruct (@display_failure_keeps_the_batch MiniPy.interpreter
               MiniPy.executor ("x = 1" +:+ newline +:+ "x // 0") "cell4"
               (MiniPy.fresh ∅) _
               (Module_ [Assign [Name "x" Store] (Num 1)])
               (Interactive [Expr (BinOp (Name "x" Load) FloorDiv (Num 0))])
               (Expr (BinOp (Name "x" Load) FloorDiv (Num 0)))
               (PyExc ZeroDivisionError "integer division or modulo by zero")
               Hparse)
    as (p' & res & Hrun & Hres & Hfailed & _ & Hns);
    [discriminate|reflexivity|reflexivity|reflexivity
    |vm_compute; reflexivity|vm_compute; reflexivity|].
  exists p', res. split; [exact Hrun|]. split; [exact Hres|].
  split; [exact Hfailed|]. rewrite Hns. vm_compute. reflexivity.
Defined.

(** * The calls, by what the code does *)

(** ** The words of the specification and the tests of the code *)

Lemma assign_target_single (asg : stmt) (N : string) :
  (∃ ctx, assign_target asg = Some (Name N ctx))
  ↔ single_target_assignment asg N.
Proof.
  split.
  - intros [ctx Ht].
    destruct asg as [[|t [|t' targets]] v|target op v|target ann v|v|names| |v];
      try discriminate; injection Ht as ->; constructor.
  - intros Hs. destruct Hs; eexists; reflexivity.
Qed.

Lemma extend_nodes_single_target (nodes : list stmt) (asg : stmt)
    (N : string) :
  last nodes = Some asg → single_target_assignment asg N →
  extend_nodes nodes = (nodes ++ [Expr (Name N Load)], Some N)
  ∧ split_nodes (nodes ++ [Expr (Name N Load)])
    = (nodes, [Expr (Name N Load)]).
Proof.
  intros Hlast Hs. apply assign_target_single in Hs as [ctx Ht].
  exact (extend_nodes_assignment nodes asg N ctx Hlast Ht).
Qed.

Lemma extend_nodes_names (nodes : list stmt) (N : string) :
  (extend_nodes nodes).2 = Some N
  ↔ ∃ asg, last nodes = Some asg ∧ single_target_assignment asg N.
Proof.
  rewrite extend_nodes_name. split.
  - intros (asg & ctx & Hl & Ht). exists asg. split; [exact Hl|].
    apply assign_target_single. eauto.
  - intros (asg & Hl & Hs). apply assign_target_single in Hs as [ctx Ht].
    eauto.
Qed.



(** MiniPy evaluates a bound name by looking it up in the namespace. *)
Lemma MiniPy_displays_bound_names : @displays_bound_names MiniPy.interpreter.
Proof.
  intros N name shown_code ns v Hc Hv.
  cbn [compile MiniPy.interpreter] in Hc. unfold MiniPy.compile_mod in Hc.
  cbn in Hc. injection Hc as <-.
  cbn [exec MiniPy.interpreter MiniPy.exec_mod].
  unfold MiniPy.setup_annotations.
  cbn [existsb MiniPy.is_annotation orb MiniPy.exec_body MiniPy.exec_stmt
       MiniPy.eval].
  unfold MiniPy.load. rewrite Hv. reflexivity.
Qed.

Section Outcomes.
Context `{Interpreter}.

(** C1 (as amended).  [ast.parse] is called inside the Capture Scope with
    no handler around it.  When the source does not parse, [run_cell]
    raises the parse error to its caller, having put back the streams and
    the display hook and touched no binding.  When the source parses, no
    exception leaves [run_cell]: whether compiling a portion raises, a
    portion raises while it is executed, or everything runs to its end,
    the call returns the result object, whose failure flag is the one
    [_run_ast_nodes] returned.  An execution is given by [exec] as it has
    ended, with a value or with an exception; code that never hands control
    back (an endless loop, the end of the process) has no such run and is
    not spoken of. *)
Theorem run_cell_raises_parse_errors_only (self : Executor)
    (code name : string) (p : Process) :
  match ast_parse code name with
  | inl e =>
      ∃ p', run_cell self code name p = (inl e, p')
            ∧ sys_stdout p' = sys_stdout p
            ∧ sys_stderr p' = sys_stderr p
            ∧ sys_displayhook p' = sys_displayhook p
            ∧ global_ns p' = global_ns p
  | inr nodes =>
      ∃ p' res failed,
        (_run_ast_nodes self nodes name (captured None p)).1
        = inr (failed, (extend_nodes nodes).2)
        ∧ run_cell self code name p = (inr (length (results p)), p')
        ∧ results p' !! length (results p) = Some res
        ∧ has_exception res = failed
  end.
Proof.
  destruct (ast_parse code name) as [e|nodes] eqn:Hparse.
  - eexists. split; [apply run_cell_parse_error, Hparse|]. repeat split.
  - destruct (run_cell_parsed self code name p nodes Hparse)
      as (failed & x & Hret & Hx & _ & Hrun).
    eexists _, _, failed. split; [exact Hret|]. split; [exact Hrun|].
    split; [cbn [results released set_results];
            apply (lookup_alter_alter _ _ _ _ _ Hx)|reflexivity].
Qed.

(** C6 (as amended).  When the last statement of a cell is an assignment
    with one target, an augmented assignment or an annotated assignment,
    and the target is a name [N], [run_cell] appends the expression
    statement [N] and makes it the display portion, the whole cell being
    the batch, and the result it returns carries [N] as bound name,
    however the run ends.  The value is displayed under conditions: when
    the batch runs without raising, leaves the [sys] singletons alone and
    leaves [N] bound to [v], an interpreter that evaluates bound names as
    CPython does hands [v] to the display hook of the result, which
    records it as output.  In particular [run_cell] of [x = 1 + 1] on an
    empty namespace returns a result with no failure and bound name [x],
    the value 2 having been displayed, and leaves [x] bound to 2. *)
Theorem trailing_assignment_is_displayed (self : Executor) :
  (∀ (code name : string) (p : Process) (nodes : list stmt) (asg : stmt)
     (N : string),
     ast_parse code name = inr nodes →
     last nodes = Some asg →
     single_target_assignment asg N →
     let r := length (results p) in
     extend_nodes nodes = (nodes ++ [Expr (Name N Load)], Some N)
     ∧ split_nodes (nodes ++ [Expr (Name N Load)])
       = (nodes, [Expr (Name N Load)])
     ∧ (∃ p' res,
          run_cell self code name p = (inr r, p')
          ∧ results p' !! r = Some res ∧ target_id res = Some N)
     ∧ (displays_bound_names →
        ∀ (batch shown_code : code_type) (v : value),
          compile (Module_ nodes) name "exec" = inr batch →
          compile (Interactive [Expr (Name N Load)]) name "single"
            = inr shown_code →
          let run1 := exec batch (global_ns p) in
          outcome run1 = inr tt →
          quiet (effects run1) = true →
          ns_after run1 !! N = Some v →
          ∃ p' res,
            run_cell self code name p = (inr r, p')
            ∧ results p' !! r = Some res
            ∧ has_exception res = false ∧ target_id res = Some N
            ∧ output res = v ∧ (v ≠ VNone → has_output res = true)
            ∧ global_ns p' = ns_after run1))
  ∧ (∃ p' res,
       @run_cell MiniPy.interpreter MiniPy.executor "x = 1 + 1" "cell1"
         (MiniPy.fresh ∅) = (inr 0, p')
       ∧ results p' !! 0 = Some res
       ∧ has_exception res = false ∧ target_id res = Some "x"
       ∧ has_output res = true ∧ output res = VInt 2
       ∧ global_ns p' = {["x" := VInt 2]}).
Proof.
  split.
  - intros code name p nodes asg N Hparse Hlast Htarget r. subst r.
    destruct (extend_nodes_single_target nodes asg N Hlast Htarget)
      as [Hext Hsplit].
    assert (Hne : nodes ≠ []) by (intros ->; discriminate).
    split; [exact Hext|]. split; [exact Hsplit|].
    destruct (run_cell_parsed self code name p nodes Hparse)
      as (failed & x & Hret & Hx & Hsame & Hrun).
    rewrite Hext in Hrun, Hret. cbn [snd] in Hrun, Hret.
    split.
    { eexists _, _. split; [exact Hrun|].
      split; [cbn [results released set_results];
              apply (lookup_alter_alter _ _ _ _ _ Hx)|reflexivity]. }
    intros Hlaw batch shown_code v Hc Hc2 run1 Ho1 Hquiet Hv.
    pose proof (Hlaw N name shown_code (ns_after run1) v Hc2 Hv) as Hrun2.
    subst run1.
    destruct (exec batch (global_ns p)) as [effs ns1 o] eqn:Hrun1.
    cbn [outcome effects ns_after] in Ho1, Hquiet, Hv, Hrun2. subst o.
    assert (Hq1 : ran self batch (captured None p)
                  = set_global_ns ns1
                      (after_quiet effs (length (buffers p))
                         (S (length (buffers p))) (length (results p))
                         (captured None p))).
    { rewrite (ran_quiet self batch (captured None p) (length (buffers p))
                 (S (length (buffers p))) (length (results p)));
        cbn [global_ns captured]; rewrite ?Hrun1;
        try assumption; try reflexivity; lia. }
    assert (Hnodes : _run_ast_nodes self nodes name (captured None p)
              = (inr (false, Some N),
                 ran self shown_code (ran self batch (captured None p)))).
    { rewrite (_run_ast_nodes_displayed self nodes name (captured None p)
                 batch shown_code (Expr (Name N Load)) Hne).
      - rewrite Hext. reflexivity.
      - rewrite Hext. cbn [fst]. rewrite Hsplit. exact Hc.
      - rewrite Hext. cbn [fst]. rewrite Hsplit. reflexivity.
      - exact Hc2.
      - cbn [global_ns captured]. rewrite Hrun1. reflexivity.
      - rewrite Hq1. cbn [global_ns set_global_ns]. rewrite Hrun2.
        reflexivity. }
    rewrite Hnodes in Hret, Hx, Hrun. cbn [fst snd] in Hret, Hx, Hrun.
    injection Hret as <-.
    assert (Hq2 : ran self shown_code (ran self batch (captured None p))
                  = set_global_ns ns1
                      (after_quiet [Display v] (length (buffers p))
                         (S (length (buffers p))) (length (results p))
                         (ran self batch (captured None p)))).
    { rewrite (ran_quiet self shown_code _ (length (buffers p))
                 (S (length (buffers p))) (length (results p)));
        rewrite ?Hq1; cbn [global_ns set_global_ns]; rewrite ?Hrun2;
        try reflexivity; lia. }
    rewrite Hq2, Hq1 in Hrun. clear Hx.
    eexists _, _. split; [exact Hrun|].
    split.
    { cbn [results released after_quiet set_results set_buffers
           set_global_ns captured].
      rewrite !list_lookup_alter_eq. rewrite lookup_app_r by reflexivity.
      rewrite Nat.sub_diag. reflexivity. }
    cbn [shown]. unfold record_display.
    cbn [set_output output set_target_id set_has_exception has_exception
         target_id].
    case_bool_decide as Hv'; cbn [set_has_output output has_output
      set_target_id set_has_exception has_exception target_id];
      repeat split; try reflexivity.
    intros Hv''. contradiction.
  - eexists _, _.
    split; [vm_compute; reflexivity|].
    split; [vm_compute; reflexivity|].
    repeat split.
Qed.


(** C7 (as amended).  When executing the batch portion raises, [run_cell]
    does not run the display portion: it returns a result with the failure
    flag set and the bound name of the cell, and the process it leaves is
    the one that the batch and the rendering of its exception left, with
    flag and name recorded and the streams and the display hook put back;
    the namespace is the one the batch left.  The rendered text is printed
    to what [sys.stderr] is at that moment: when the renderer returns a
    text and the batch left the [sys] singletons alone, the result object
    holds just what the batch displayed, the captured standard output is
    what the batch wrote, and the captured standard error is what the batch
    wrote followed by the rendered failure.  In particular [run_cell] of
    [1/0] (whose only statement is the display portion) returns a failed
    result with a captured standard error that is not empty and leaves the
    namespace as it was. *)
Theorem batch_failure_aborts (self : Executor) :
  (∀ (code name : string) (p : Process) (nodes : list stmt)
     (batch : code_type) (e : pyexc),
     ast_parse code name = inr nodes → nodes ≠ [] →
     compile (Module_ (split_nodes (extend_nodes nodes).1).1) name "exec"
       = inr batch →
     outcome (exec batch (global_ns p)) = inl e →
     let run := exec batch (global_ns p) in
     let r := length (results p) in
     let q := (showtraceback self e (ran self batch (captured None p))).2 in
     ∃ p' res,
       run_cell self code name p = (inr r, p')
       ∧ p' = released p
                (set_results
                   (alter (set_target_id (extend_nodes nodes).2) r
                      (alter (set_has_exception true) r (results q))) q)
       ∧ results p' !! r = Some res
       ∧ has_exception res = true
       ∧ target_id res = (extend_nodes nodes).2
       ∧ stdout res = Some (StringIO (length (buffers p)))
       ∧ stderr res = Some (StringIO (S (length (buffers p))))
       ∧ global_ns p' = ns_after run
       ∧ (∀ text, render self e = inr text → quiet (effects run) = true →
            res = set_target_id (extend_nodes nodes).2
                    (set_has_exception true
                       (shown (effects run) (fresh_result None p)))
            ∧ getvalue p' (stdout res) = written StdOut (effects run)
            ∧ getvalue p' (stderr res)
              = written StdErr (effects run) +:+ text +:+ newline))
  ∧ (∃ p' res,
       @run_cell MiniPy.interpreter MiniPy.executor "1/0" "cell2"
         (MiniPy.fresh ∅) = (inr 0, p')
       ∧ results p' !! 0 = Some res
       ∧ has_exception res = true
       ∧ getvalue p' (stderr res) ≠ ""
       ∧ global_ns p' = ∅).
Proof.
  split.
  - intros code name p nodes batch e Hparse Hne Hc He run r q. subst run r q.
    destruct (run_cell_parsed self code name p nodes Hparse)
      as (failed & x & Hret & Hx & Hsame & Hrun).
    rewrite (_run_ast_nodes_batch_raises self nodes name (captured None p)
               batch e Hne Hc He) in Hret, Hx, Hrun.
    cbn [fst snd] in Hret, Hx, Hrun. injection Hret as <-.
    eexists _, _. split; [exact Hrun|]. split; [reflexivity|].
    split; [cbn [results released set_results];
            apply (lookup_alter_alter _ _ _ _ _ Hx)|].
    split; [reflexivity|]. split; [reflexivity|].
    destruct Hsame as (Hs1 & Hs2 & _).
    cbn [set_target_id set_has_exception stdout stderr fresh_result] in *.
    split; [symmetry; exact Hs1|]. split; [symmetry; exact Hs2|].
    split.
    { cbn [global_ns released set_results]. rewrite showtraceback_ns.
      reflexivity. }
    intros text Hrender Hquiet.
    rewrite <- Hs1, <- Hs2.
    cbn [getvalue released buffers set_results].
    revert Hx. rewrite showtraceback_render, Hrender.
    rewrite (ran_quiet self batch (captured None p) (length (buffers p))
               (S (length (buffers p))) (length (results p)))
      by (try assumption; try reflexivity; lia).
    rewrite (print_stderr_run text _ (S (length (buffers p))))
      by reflexivity.
    cbn [buffers results set_buffers set_global_ns after_quiet set_results
         captured global_ns].
    rewrite alter_last. rewrite lookup_app_r by reflexivity.
    rewrite Nat.sub_diag. cbn [lookup list_lookup]. intros Hx.
    injection Hx as <-.
    destruct (captured_texts (buffers p)
                (written StdOut (effects (exec batch (global_ns p))))
                (written StdErr (effects (exec batch (global_ns p))))
                (text +:+ newline)) as [Hb1 Hb2].
    cbv zeta in Hb1, Hb2. rewrite Hb1, Hb2. repeat split.
  - eexists _, _.
    split; [vm_compute; reflexivity|].
    split; [vm_compute; reflexivity|].
    split; [reflexivity|].
    split; [vm_compute; discriminate|].
    reflexivity.
Qed.

End Outcomes.

(** The witness of C6: the augmented assignment [x += 1] where [x] is
    bound to 1, and the annotated assignment [x: 0 = 3]. *)
Lemma trailing_assignment_is_displayed_witness :
  (let asg := AugAssign (Name "x" Store) Add (Num 1) in
   ast_parse "x += 1" "cell1" = inr [asg]
   ∧ extend_nodes [asg] = ([asg; Expr (Name "x" Load)], Some "x")
   ∧ ∃ p' res,
       run_cell MiniPy.executor "x += 1" "cell1"
         (MiniPy.fresh {["x" := VInt 1]}) = (inr 0, p')
       ∧ results p' !! 0 = Some res
       ∧ has_exception res = false ∧ target_id res = Some "x"
       ∧ output res = VInt 2 ∧ has_output res = true
       ∧ global_ns p' = {["x" := VInt 2]})
  ∧ (let asg := AnnAssign (Name "x" Store) (Num 0) (Some (Num 3)) in
     ast_parse "x: 0 = 3" "cell1" = inr [asg]
     ∧ ∃ p' res,
         run_cell MiniPy.executor "x: 0 = 3" "cell1" (MiniPy.fresh ∅)
         = (inr 0, p')
         ∧ results p' !! 0 = Some res
         ∧ has_exception res = false ∧ target_id res = Some "x"
         ∧ output res = VInt 3 ∧ has_output res = true
         ∧ global_ns p' !! "x" = Some (VInt 3)).
Proof.
  destruct (@trailing_assignment_is_displayed MiniPy.interpreter
              MiniPy.executor) as [Hgen _].
  split.
  - intros asg.
    assert (Hparse : ast_parse "x += 1" "cell1" = inr [asg]) by reflexivity.
    split; [exact Hparse|].
    destruct (Hgen "x += 1" "cell1" (MiniPy.fresh {["x" := VInt 1]}) [asg]
                asg "x" Hparse eq_refl
                (augmented_assignment "x" Store Add (Num 1)))
      as (Hext & _ & _ & Hshown).
    split; [exact Hext|].
    destruct (Hshown MiniPy_displays_bound_names (Module_ [asg])
                (Interactive [Expr (Name "x" Load)]) (VInt 2))
      as (p' & res & Hrun & Hres & Hok & Hname & Hout & Hhas & Hns);
      [reflexivity|reflexivity|reflexivity|reflexivity
      |vm_compute; reflexivity|].
    exists p', res.
    split; [exact Hrun|]. split; [exact Hres|]. split; [exact Hok|].
    split; [exact Hname|]. split; [exact Hout|].
    split; [apply Hhas; discriminate|].
    rewrite Hns. vm_compute. reflexivity.
  - intros asg.
    assert (Hparse : ast_parse "x: 0 = 3" "cell1" = inr [asg]) by reflexivity.
    split; [exact Hparse|].
    destruct (Hgen "x: 0 = 3" "cell1" (MiniPy.fresh ∅) [asg]
                asg "x" Hparse eq_refl
                (annotated_assignment "x" Store (Num 0) (Some (Num 3))))
      as (_ & _ & _ & Hshown).
    destruct (Hshown MiniPy_displays_bound_names (Module_ [asg])
                (Interactive [Expr (Name "x" Load)]) (VInt 3))
      as (p' & res & Hrun & Hres & Hok & Hname & Hout & Hhas & Hns);
      [reflexivity|reflexivity|reflexivity|reflexivity
      |vm_compute; reflexivity|].
    exists p', res.
    split; [exact Hrun|]. split; [exact Hres|]. split; [exact Hok|].
    split; [exact Hname|]. split; [exact Hout|].
    split; [apply Hhas; discriminate|].
    rewrite Hns. vm_compute. reflexivity.
Defined.

(** The counterexample to C6 as stated: the annotated assignment [x: 0]
    has no value and binds nothing.  The expression [x] is appended and
    [x] is recorded as bound name, but evaluating it raises [NameError]:
    no value reaches the display hook and the result is a failed one. *)
Lemma annotation_without_value_is_not_displayed :
  ast_parse "x: 0" "cell1" = inr [AnnAssign (Name "x" Store) (Num 0) None]
  ∧ single_target_assignment (AnnAssign (Name "x" Store) (Num 0) None) "x"
  ∧ ∃ p' res,
      run_cell MiniPy.executor "x: 0" "cell1" (MiniPy.fresh ∅) = (inr 0, p')
      ∧ results p' !! 0 = Some res
      ∧ target_id res = Some "x"
      ∧ has_exception res = true
      ∧ has_output res = false ∧ output res = VNone
      ∧ global_ns p' !! "x" = None.
Proof.
  split; [reflexivity|]. split; [constructor|].
  eexists _, _.
  split; [vm_compute; reflexivity|].
  split; [vm_compute; reflexivity|].
  repeat split.
Qed.



(** The witness of C7: the batch of [x = 1 // 0] raises. *)
Lemma batch_failure_aborts_witness :
  let nodes := [Assign [Name "x" Store] (BinOp (Num 1) FloorDiv (Num 0))] in
  let batch := Module_ nodes in
  let e := PyExc ZeroDivisionError "integer division or modulo by zero" in
  ast_parse "x = 1 // 0" "cell3" = inr nodes
  ∧ nodes ≠ []
  ∧ compile (Module_ (split_nodes (extend_nodes nodes).1).1) "cell3" "exec"
    = inr batch
  ∧ outcome (exec batch (global_ns (MiniPy.fresh ∅))) = inl e
  ∧ ∃ p' res,
      run_cell MiniPy.executor "x = 1 // 0" "cell3" (MiniPy.fresh ∅)
      = (inr 0, p')
      ∧ results p' !! 0 = Some res
      ∧ has_exception res = true
      ∧ target_id res = Some "x"
      ∧ has_output res = false
      ∧ global_ns p' = ∅
      ∧ getvalue p' (stderr res)
        = "Traceback" +:+ newline +:+ "integer division or modulo by zero"
          +:+ newline.
Proof.
  intros nodes batch e.
  assert (Hparse : ast_parse "x = 1 // 0" "cell3" = inr nodes) by reflexivity.
  assert (Hne : nodes ≠ []) by discriminate.
  assert (Hc : compile (Module_ (split_nodes (extend_nodes nodes).1).1)
                 "cell3" "exec" = inr batch) by reflexivity.
  assert (He : outcome (exec batch (global_ns (MiniPy.fresh ∅))) = inl e)
    by reflexivity.
  repeat (split; [assumption|]).
  destruct (batch_failure_aborts MiniPy.executor) as [Hgen _].
  destruct (Hgen "x = 1 // 0" "cell3" (MiniPy.fresh ∅) nodes batch e
              Hparse Hne Hc He)
    as (p' & res & Hrun & _ & Hres & Hfailed & Htarget & _ & _ & Hns & Htext).
  destruct (Htext ("Traceback" +:+ newline
                   +:+ "integer division or modulo by zero")
              eq_refl eq_refl) as (Hshape & _ & Herr).
  exists p', res.
  split; [exact Hrun|]. split; [exact Hres|]. split; [exact Hfailed|].
  split; [exact Htarget|]. split; [rewrite Hshape; reflexivity|].
  split; [exact Hns|exact Herr].
Defined.

(** The counterexample to C7 as stated: under an executor whose renderer
    raises, the batch of [x = 1 // 0] raises and [run_cell] returns a
    failed result, but nothing is rendered to the captured standard error:
    it is empty, and the captured standard output holds [str] of what the
    renderer raised. *)
Lemma unrendered_failure_leaves_stderr_empty :
  ast_parse "x = 1 // 0" "cell3"
  = inr [Assign [Name "x" Store] (BinOp (Num 1) FloorDiv (Num 0))]
  ∧ render failing_executor
      (PyExc ZeroDivisionError "integer division or modulo by zero")
    = inl (PyExc ValueError "no frames")
  ∧ ∃ p' res,
      run_cell failing_executor "x = 1 // 0" "cell3" (MiniPy.fresh ∅)
      = (inr 0, p')
      ∧ results p' !! 0 = Some res
      ∧ has_exception res = true
      ∧ getvalue p' (stderr res) = ""
      ∧ getvalue p' (stdout res) = "no frames" +:+ newline.
Proof.
  split; [reflexivity|]. split; [reflexivity|].
  eexists _, _.
  split; [vm_compute; reflexivity|].
  split; [vm_compute; reflexivity|].
  repeat split.
Qed.

(** ** The two portions of a cell *)

Lemma split_nodes_portions (l : list stmt) :
  (split_nodes l).1 ++ (split_nodes l).2 = l
  ∧ ((split_nodes l).2 = []
     ∨ ∃ e, (split_nodes l).2 = [Expr e] ∧ last l = Some (Expr e))
  ∧ ((split_nodes l).2 = [] ↔ ∀ e, last l ≠ Some (Expr e)).
Proof.
  unfold split_nodes. destruct (last l) as [s|] eqn:Hlast.
  - destruct s as [targets v|target op v|target ann v|v|names| |v];
      cbn [fst snd];
      try (split; [apply app_nil_r|]; split; [left; reflexivity|];
           split; [intros _ e; discriminate|reflexivity]).
    split; [apply removelast_then_last, Hlast|].
    split; [right; exists v; split; reflexivity|].
    split; [discriminate|]. intros Hno. exfalso. apply (Hno v). reflexivity.
  - cbn [fst snd]. split; [apply app_nil_r|]. split; [left; reflexivity|].
    split; [intros _ e; discriminate|reflexivity].
Qed.

Lemma extend_nodes_appends (nodes : list stmt) :
  match (extend_nodes nodes).2 with
  | Some N => (extend_nodes nodes).1 = nodes ++ [Expr (Name N Load)]
  | None => (extend_nodes nodes).1 = nodes
  end.
Proof.
  unfold extend_nodes.
  destruct (last nodes) as [asg|]; [|reflexivity].
  destruct (is_assign_node asg); [|reflexivity].
  destruct (assign_target asg) as [[]|]; reflexivity.
Qed.

Section Portions.
Context `{Interpreter}.

(** What [_run_ast_nodes] executes, and when it reports a failure.  The
    statements of the cell, followed by the expression [N] when the cell
    names an output [N], are cut in two portions that together are that
    list, in its order: the display portion is its last statement if that
    is an expression statement and is empty otherwise, the batch is the
    rest.  The batch is compiled as one module and executed once; the
    display portion is compiled and executed, once and after the batch,
    only if the batch compiled and ran without raising.  The call reports
    a failure exactly when the cell is empty, a compilation raised or an
    execution raised; a failing compilation is not rendered, a failing
    execution is. *)
Theorem nodes_are_partitioned (self : Executor) (nodes : list stmt)
    (name : string) (q : Process) :
  let ext := (extend_nodes nodes).1 in
  let output_name := (extend_nodes nodes).2 in
  let batch_nodes := (split_nodes ext).1 in
  let shown := (split_nodes ext).2 in
  batch_nodes ++ shown = ext
  ∧ match output_name with
    | Some N => ext = nodes ++ [Expr (Name N Load)]
    | None => ext = nodes
    end
  ∧ (shown = [] ∨ ∃ e, shown = [Expr e] ∧ last ext = Some (Expr e))
  ∧ (shown = [] ↔ ∀ e, last ext ≠ Some (Expr e))
  ∧ _run_ast_nodes self nodes name q
    = match nodes with
      | [] => (inr (true, None), q)
      | _ :: _ =>
          match compile (Module_ batch_nodes) name "exec" with
          | inl _ => (inr (true, output_name), q)
          | inr batch =>
              let q1 := ran self batch q in
              match outcome (exec batch (global_ns q)) with
              | inl e => (inr (true, output_name), (showtraceback self e q1).2)
              | inr _ =>
                  match shown with
                  | [] => (inr (false, output_name), q1)
                  | node :: _ =>
                      match compile (Interactive [node]) name "single" with
                      | inl _ => (inr (true, output_name), q1)
                      | inr shown_code =>
                          let q2 := ran self shown_code q1 in
                          match outcome (exec shown_code (global_ns q1)) with
                          | inl e =>
                              (inr (true, output_name),
                               (showtraceback self e q2).2)
                          | inr _ => (inr (false, output_name), q2)
                          end
                      end
                  end
              end
          end
      end.
Proof.
  intros ext output_name batch_nodes shown.
  destruct (split_nodes_portions ext) as (Happ & Hshape & Hempty).
  split; [exact Happ|].
  split; [exact (extend_nodes_appends nodes)|].
  split; [exact Hshape|]. split; [exact Hempty|].
  destruct nodes as [|n0 nodes]; [reflexivity|].
  unfold _run_ast_nodes.
  subst ext output_name batch_nodes shown.
  destruct (extend_nodes (n0 :: nodes)) as [all output_name].
  cbn [fst snd] in *.
  destruct (split_nodes all) as [to_run_exec to_run_interactive].
  cbn [fst snd] in *. unfold try_except.
  rewrite bind_run. unfold lift at 1.
  destruct (compile (Module_ to_run_exec) name "exec") as [e0|batch];
    [reflexivity|].
  rewrite bind_run, _run_code_ran.
  destruct (outcome (exec batch (global_ns q))) as [e|[]]; [reflexivity|].
  rewrite bind_run.
  destruct Hshape as [->|(v & -> & _)]; [reflexivity|].
  cbn [run_interactive]. rewrite bind_run. unfold lift at 1.
  destruct (compile (Interactive [Expr v]) name "single") as [e1|shown_code];
    [reflexivity|].
  rewrite bind_run, _run_code_ran.
  destruct (outcome (exec shown_code (global_ns (ran self batch q))))
    as [e|[]]; reflexivity.
Qed.

End Portions.

(** ** The bound name and the completeness of a result *)

Section Results.
Context `{Interpreter}.

(** The output name of a cell.  The result of [run_cell] names [N] as its
    target exactly when the last statement of the cell is an [Assign] with
    the one target [N], an [AugAssign] with target [N] or an [AnnAssign]
    with target [N], [N] being a name; for every other cell, one that ends
    in an assignment to several targets or to an attribute included, the
    target is [None]. *)
Theorem target_id_names_trailing_assignment (self : Executor)
    (code name : string) (p p' : Process) (r : nat) (res : ExecutionResult)
    (nodes : list stmt) :
  ast_parse code name = inr nodes →
  run_cell self code name p = (inr r, p') →
  results p' !! r = Some res →
  (∀ N, target_id res = Some N
        ↔ ∃ asg, last nodes = Some asg ∧ single_target_assignment asg N)
  ∧ (target_id res = None
     ↔ ∀ asg N, last nodes = Some asg → ¬ single_target_assignment asg N).
Proof.
  intros Hparse Hrun Hres.
  destruct (run_cell_result self code name p p' r res Hrun Hres)
    as (_ & nodes' & failed & x & Hparse' & _ & ->).
  rewrite Hparse in Hparse'. injection Hparse' as <-.
  cbn [target_id set_target_id].
  split; [intros N; apply extend_nodes_names|].
  destruct (extend_nodes nodes).2 as [N|] eqn:Hname.
  - split; [discriminate|]. intros Hno. exfalso.
    apply extend_nodes_names in Hname as (asg & Hl & Hs).
    exact (Hno asg N Hl Hs).
  - split; [|reflexivity]. intros _ asg N Hl Hs.
    assert (Hn : (extend_nodes nodes).2 = Some N)
      by (apply extend_nodes_names; eauto).
    congruence.
Qed.

(** When the result of a cell is complete.  The result that [run_cell]
    returns passes [is_complete] exactly when the run did not fail and, in
    case a value was displayed, the value last displayed is not [None] and
    the last statement of the cell is an [Assign] with one target, an
    [AugAssign] or an [AnnAssign] whose target is a name. *)
Theorem run_cell_result_is_complete_iff (self : Executor)
    (code name : string) (p p' : Process) (r : nat) (res : ExecutionResult)
    (nodes : list stmt) :
  ast_parse code name = inr nodes →
  run_cell self code name p = (inr r, p') →
  results p' !! r = Some res →
  is_complete res = true
  ↔ has_exception res = false
    ∧ (has_output res = true →
       output res ≠ VNone
       ∧ ∃ asg N, last nodes = Some asg ∧ single_target_assignment asg N).
Proof.
  intros Hparse Hrun Hres.
  destruct (run_cell_result self code name p p' r res Hrun Hres)
    as (_ & nodes' & failed & x & Hparse' & Hx & ->).
  rewrite Hparse in Hparse'. injection Hparse' as <-.
  destruct Hx as (Hso & Hse & _ & _ & Hexc).
  cbn [fresh_result stdout stderr exception] in Hso, Hse, Hexc.
  unfold is_complete.
  cbn [stdout stderr exception set_target_id set_has_exception has_output
       output target_id has_exception].
  rewrite <- Hso, <- Hse, <- Hexc.
  rewrite !bool_decide_eq_true_2 by discriminate.
  cbn [andb].
  assert (Htarget : bool_decide ((extend_nodes nodes).2 ≠ None) = true
          ↔ ∃ asg N, last nodes = Some asg ∧ single_target_assignment asg N).
  { rewrite bool_decide_eq_true. split.
    - destruct (extend_nodes nodes).2 as [N|] eqn:Hn; [|congruence].
      intros _. apply extend_nodes_names in Hn as (asg & Hl & Ht).
      exists asg, N. auto.
    - intros (asg & N & Hl & Ht).
      assert (Hn : (extend_nodes nodes).2 = Some N)
        by (apply extend_nodes_names; eauto).
      rewrite Hn. discriminate. }
  destruct failed; cbn [andb].
  - rewrite andb_false_r. split; [discriminate|]. intros [? _]. discriminate.
  - rewrite andb_true_r. destruct (has_output x).
    + rewrite andb_true_iff, bool_decide_eq_true, Htarget.
      split; [intros [Ho Ht]; split; [reflexivity|auto]|].
      intros [_ Hc]. apply Hc. reflexivity.
    + split; [intros _; split; [reflexivity|discriminate]|reflexivity].
Qed.

End Results.

(** The witness: the cell [x += 1] names [x], the cell [x = y = 1], with
    two targets, names nothing. *)
Lemma target_id_names_trailing_assignment_witness :
  (∃ p' res,
     ast_parse "x += 1" "cell1" = inr [AugAssign (Name "x" Store) Add (Num 1)]
     ∧ run_cell MiniPy.executor "x += 1" "cell1"
         (MiniPy.fresh {["x" := VInt 1]}) = (inr 0, p')
     ∧ results p' !! 0 = Some res
     ∧ target_id res = Some "x")
  ∧ (∃ p' res,
       ast_parse "x = y = 1" "cell1"
       = inr [Assign [Name "x" Store; Name "y" Store] (Num 1)]
       ∧ run_cell MiniPy.executor "x = y = 1" "cell1" (MiniPy.fresh ∅)
         = (inr 0, p')
       ∧ results p' !! 0 = Some res
       ∧ has_exception res = false
       ∧ target_id res = None
       ∧ ∀ asg N,
           last [Assign [Name "x" Store; Name "y" Store] (Num 1)] = Some asg →
           ¬ single_target_assignment asg N).
Proof.
  split.
  - eexists _, _.
    assert (Hparse : ast_parse "x += 1" "cell1"
                     = inr [AugAssign (Name "x" Store) Add (Num 1)])
      by reflexivity.
    split; [exact Hparse|].
    split; [vm_compute; reflexivity|].
    split; [vm_compute; reflexivity|].
    eapply (target_id_names_trailing_assignment MiniPy.executor "x += 1"
              "cell1" (MiniPy.fresh {["x" := VInt 1]})).
    + exact Hparse.
    + vm_compute. reflexivity.
    + vm_compute. reflexivity.
    + eexists. split; [reflexivity|]. constructor.
  - eexists _, _.
    assert (Hparse : ast_parse "x = y = 1" "cell1"
                     = inr [Assign [Name "x" Store; Name "y" Store] (Num 1)])
      by reflexivity.
    split; [exact Hparse|].
    split; [vm_compute; reflexivity|].
    split; [vm_compute; reflexivity|].
    split; [reflexivity|]. split; [reflexivity|].
    eapply (target_id_names_trailing_assignment MiniPy.executor "x = y = 1"
              "cell1" (MiniPy.fresh ∅)).
    + exact Hparse.
    + vm_compute. reflexivity.
    + vm_compute. reflexivity.
    + reflexivity.
Defined.

(** The witness: the cell [1 + 1] displays 2 and names no target, so its
    result is not complete; the cell [x = 1 + 1] displays 2 under the name
    [x], and its result is complete. *)
Lemma run_cell_result_is_complete_iff_witness :
  (∃ p' res,
     ast_parse "1 + 1" "cell1" = inr [Expr (BinOp (Num 1) Add (Num 1))]
     ∧ run_cell MiniPy.executor "1 + 1" "cell1" (MiniPy.fresh ∅) = (inr 0, p')
     ∧ results p' !! 0 = Some res
     ∧ has_output res = true ∧ has_exception res = false
     ∧ ¬ (∃ asg N, last [Expr (BinOp (Num 1) Add (Num 1))] = Some asg
                   ∧ single_target_assignment asg N)
     ∧ is_complete res ≠ true)
  ∧ (∃ p' res,
       run_cell MiniPy.executor "x = 1 + 1" "cell1" (MiniPy.fresh ∅)
       = (inr 0, p')
       ∧ results p' !! 0 = Some res
       ∧ is_complete res = true).
Proof.
  split.
  - eexists _, _.
    assert (Hparse : ast_parse "1 + 1" "cell1"
                     = inr [Expr (BinOp (Num 1) Add (Num 1))])
      by reflexivity.
    split; [exact Hparse|].
    split; [vm_compute; reflexivity|].
    split; [vm_compute; reflexivity|].
    split; [reflexivity|]. split; [reflexivity|].
    assert (Hno : ¬ (∃ asg N, last [Expr (BinOp (Num 1) Add (Num 1))]
                               = Some asg
                              ∧ single_target_assignment asg N)).
    { intros (asg & N & [= <-] & Hs). inversion Hs. }
    split; [exact Hno|].
    intros Hcomplete.
    eapply (run_cell_result_is_complete_iff MiniPy.executor "1 + 1" "cell1"
              (MiniPy.fresh ∅)) in Hcomplete as [_ Hshown].
    + destruct (Hshown eq_refl) as [_ Hasg]. exact (Hno Hasg).
    + exact Hparse.
    + vm_compute. reflexivity.
    + vm_compute. reflexivity.
  - eexists _, _.
    split; [vm_compute; reflexivity|].
    split; [vm_compute; reflexivity|].
    eapply (run_cell_result_is_complete_iff MiniPy.executor "x = 1 + 1"
              "cell1" (MiniPy.fresh ∅)).
    + reflexivity.
    + vm_compute. reflexivity.
    + vm_compute. reflexivity.
    + split; [reflexivity|]. intros _. split; [discriminate|].
      eexists _, "x". split; [reflexivity|]. constructor.
Defined.

(** ** A renderer that fails *)


Section Renderer.
Context `{Interpreter}.


End Renderer.

